(** * docker-fs: the container filesystem adapter, embedded and verified

    A shallow embedding of the Go sources of docker-fs

    - [lib/dockerfs/changes.go]   ([WasRemoved], the change kinds),
    - [lib/dockerfs/mng.go]       ([parseContainterContent], [ChangesInDir],
                                   [fetchFsChanges]),
    - the docker client wrapper   ([dockerMngImpl.GetPathAttrs], [SaveFile]),
    - the FUSE directory node     ([Dir.Getattr], [Dir.Lookup], [Dir.Create],
                                   [Dir.Readdir]),

    together with the parts of the Go standard library they call
    ([strings], [path/filepath], [archive/tar], [bytes]).

    Conventions.
    - Go strings are [string]; indices and machine integers are [Z], with
      the conversions of the source ([uint32 (..)]) written as [Z.modulo].
    - Go maps are [gmap string _]; [range] over a map visits the entries
      in an order chosen by the runtime, which is a field of the
      environment.
    - The container runtime, the clock and the map iteration order form
      the environment [Env]; everything the program mutates (the change
      cache, the inode table) and everything it sends to the runtime (the
      request log) is in [World].  Operations are state transformers
      [World -> A * World]. *)

From Stdlib Require Import ZArith Lia String Ascii List.
From stdpp Require Import base gmap strings list.

Local Open Scope Z_scope.

(** ** Go's [strings] package and string slicing *)

Module Strings.

(** [strings.HasPrefix s prefix]. *)
Fixpoint HasPrefix (s prefix : string) {struct prefix} : bool :=
  match prefix, s with
  | EmptyString, _ => true
  | String _ _, EmptyString => false
  | String c p', String d s' => if Ascii.eqb c d then HasPrefix s' p' else false
  end.

(** [s[n:]] for [0 <= n <= len s]. *)
Fixpoint from (n : nat) (s : string) : string :=
  match n, s with
  | O, _ => s
  | S _, EmptyString => EmptyString
  | S n', String _ s' => from n' s'
  end.

(** [s[:n]] for [0 <= n <= len s]. *)
Fixpoint upto (n : nat) (s : string) : string :=
  match n, s with
  | O, _ => EmptyString
  | S _, EmptyString => EmptyString
  | S n', String c s' => String c (upto n' s')
  end.

(** [strings.HasSuffix s suffix]:
    [len(s) >= len(suffix) && s[len(s)-len(suffix):] == suffix]. *)
Definition HasSuffix (s suffix : string) : bool :=
  (String.length suffix <=? String.length s)%nat
  && String.eqb (from (String.length s - String.length suffix) s) suffix.

(** [strings.Index s "/"]: the index of the first slash, or [-1]. *)
Fixpoint IndexSlash (s : string) : Z :=
  match s with
  | EmptyString => -1
  | String c s' =>
      if Ascii.eqb c "/" then 0
      else let r := IndexSlash s' in if r <? 0 then -1 else r + 1
  end.

(** [strings.LastIndex s "/"]: the index of the last slash, or [-1]. *)
Fixpoint LastIndexSlash (s : string) : Z :=
  match s with
  | EmptyString => -1
  | String c s' =>
      let r := LastIndexSlash s' in
      if 0 <=? r then r + 1
      else if Ascii.eqb c "/" then 0 else -1
  end.

(** [strings.Join elems "/"]. *)
Fixpoint JoinSlash (elems : list string) : string :=
  match elems with
  | [] => ""
  | [e] => e
  | e :: rest => e +:+ "/" +:+ JoinSlash rest
  end.

(** [strings.Split s "/"]: never empty, ["a//b"] gives ["a"; ""; "b"]. *)
Fixpoint SplitSlash (s : string) : list string :=
  match s with
  | EmptyString => [EmptyString]
  | String c s' =>
      if Ascii.eqb c "/" then EmptyString :: SplitSlash s'
      else match SplitSlash s' with
           | [] => [String c EmptyString]
           | x :: xs => String c x :: xs
           end
  end.

End Strings.

(** ** Go's [path/filepath] on Unix (separator [/], no volume names) *)

Module Filepath.
Import Strings.

(** One element of the path in [Clean]'s scan.  [out] holds the
    elements kept so far, the last one first.  An empty element (a
    doubled or trailing slash) and [.] are dropped; [..] removes the
    element before it when there is one to remove, is dropped at the
    root of a rooted path, and is kept otherwise. *)
Definition cleanElem (rooted : bool) (out : list string) (e : string)
  : list string :=
  if String.eqb e "" then out
  else if String.eqb e "." then out
  else if String.eqb e ".." then
    match out with
    | top :: rest =>
        if String.eqb top ".." then (if rooted then out else e :: out)
        else rest
    | [] => if rooted then out else [e]
    end
  else e :: out.

(** [filepath.Clean]. *)
Definition Clean (path : string) : string :=
  if String.eqb path "" then "."
  else
    let rooted := HasPrefix path "/" in
    let out := rev (fold_left (cleanElem rooted) (SplitSlash path) []) in
    if rooted then "/" +:+ JoinSlash out
    else match out with
         | [] => "."
         | _ => JoinSlash out
         end.

(** [filepath.Split]: [path[:i+1], path[i+1:]] with [i] the index of
    the last slash. *)
Definition Split (path : string) : string * string :=
  let i := Z.to_nat (LastIndexSlash path + 1) in
  (upto i path, from i path).

(** [filepath.Dir]: [Clean] of everything up to the last slash. *)
Definition Dir (path : string) : string := Clean (fst (Split path)).

(** Strip trailing slashes, as the first loop of [filepath.Base]. *)
Fixpoint stripTrailingSlashes (s : string) : string :=
  match s with
  | EmptyString => EmptyString
  | String c s' =>
      match stripTrailingSlashes s' with
      | EmptyString => if Ascii.eqb c "/" then EmptyString else String c EmptyString
      | r => String c r
      end
  end.

(** [filepath.Base]. *)
Definition Base (path : string) : string :=
  if String.eqb path "" then "."
  else
    let p := stripTrailingSlashes path in
    let p := snd (Split p) in
    if String.eqb p "" then "/" else p.

(** [filepath.Join a b]: the first non-empty element starts the
    result, the rest are joined to it with [/] and the whole is
    cleaned; all empty gives the empty string. *)
Definition Join (a b : string) : string :=
  if negb (String.eqb a "") then Clean (a +:+ "/" +:+ b)
  else if negb (String.eqb b "") then Clean b
  else "".

End Filepath.


(** ** Constants of [os], [syscall], [fuse] and [archive/tar] *)

Definition uint32 (z : Z) : Z := z mod 2 ^ 32.
Definition uint64 (z : Z) : Z := z mod 2 ^ 64.

Module Os.
(** [os.FileMode] type bits. *)
Definition ModeDir : Z := 2 ^ 31.
Definition ModeSymlink : Z := 2 ^ 27.
(** [FileMode.IsDir]: [m&ModeDir != 0]. *)
Definition IsDir (m : Z) : bool := negb (Z.land m ModeDir =? 0).
End Os.

Module Fuse.
Definition S_IFDIR : Z := 0x4000.
Definition S_IFREG : Z := 0x8000.
Definition S_IFLNK : Z := 0xA000.

(** [fuse.DirEntry]. *)
Record DirEntry := {
  Mode : Z;
  Name : string;
  Ino : Z }.

(** The fields of [fuse.AttrOut] and [fuse.EntryOut] that the
    directory node writes: [Owner.Uid], [Owner.Gid] and [Mode]. *)
Record Attr := {
  OwnerUid : Z;
  OwnerGid : Z;
  AttrMode : Z }.

End Fuse.

Module Syscall.
Definition OK : Z := 0.
Definition ENOENT : Z := 2.
Definition EIO : Z := 5.
Definition EEXIST : Z := 17.
End Syscall.

(** ** [archive/tar] *)

Module Tar.

Definition TypeReg : Z := 48.      (* '0' *)
Definition TypeRegA : Z := 0.      (* '\x00' *)
Definition TypeSymlink : Z := 50.  (* '2' *)
Definition TypeDir : Z := 53.      (* '5' *)

(** [tar.Header], the fields the program reads or writes. *)
Record Header := {
  Typeflag : Z;
  Name : string;
  Linkname : string;
  Size : Z;
  Mode : Z;
  ModTime : Z }.

(** What successive calls of [Reader.Next] return on an archive: a
    header, or an error that is not [io.EOF]; the end of the list is
    [io.EOF]. *)
Inductive NextResult :=
| NextHeader (hdr : Header)
| NextError (err : string).

(** The byte stream of an archive.  A header block (512 bytes encoding
    one header) is kept as one unit; every other byte is itself. *)
Inductive Unit :=
| Block (hdr : Header)
| Octet (b : Byte.byte).

Definition Stream := list Unit.

Definition blockSize : Z := 512.

(** [blockPadding]: the bytes needed to fill the last block of a file
    of [size] bytes. *)
Definition blockPadding (size : Z) : Z := (- size) mod blockSize.

Definition zeros (n : Z) : Stream := replicate (Z.to_nat n) (Octet Byte.x00).

(** [tar.Writer] over a [bytes.Buffer]: the buffer written so far, the
    bytes of the current entry still to come ([curr.nb]), the padding
    owed after it, and the sticky error. *)
Record Writer := {
  buffer : Stream;
  nb : Z;
  pad : Z;
  werr : option string }.

(** [tar.NewWriter(&buffer)] on an empty buffer. *)
Definition NewWriter : Writer :=
  {| buffer := []; nb := 0; pad := 0; werr := None |}.

(** [Writer.Flush]: refuses while the current entry is incomplete,
    otherwise writes the padding owed. *)
Definition Flush (tw : Writer) : option string * Writer :=
  match werr tw with
  | Some e => (Some e, tw)
  | None =>
      if 0 <? nb tw then (Some "archive/tar: missed writing bytes", tw)
      else (None, {| buffer := buffer tw ++ zeros (pad tw);
                     nb := nb tw; pad := 0; werr := None |})
  end.

(** [Time.Round(time.Second)] on a time in nanoseconds. *)
Definition roundSecond (t : Z) : Z := (t + 500000000) / 1000000000 * 1000000000.

(** The header as [WriteHeader] writes it when no format is asked for:
    the legacy type flag [TypeRegA] becomes [TypeDir] for a name ending
    in a slash and [TypeReg] otherwise, and the modification time is
    rounded to the second. *)
Definition normalize (hdr : Header) : Header :=
  {| Typeflag :=
       if Typeflag hdr =? TypeRegA
       then (if Strings.HasSuffix (Name hdr) "/" then TypeDir else TypeReg)
       else Typeflag hdr;
     Name := Name hdr;
     Linkname := Linkname hdr;
     Size := Size hdr;
     Mode := Mode hdr;
     ModTime := roundSecond (ModTime hdr) |}.

(** [Writer.WriteHeader]: flushes the previous entry, then writes the
    header block and opens an entry of [hdr.Size] bytes.  [encodable]
    stands for the checks of [Header.allowedFormats], which decide
    whether some tar format can carry this header. *)
Definition WriteHeader (encodable : Header -> bool) (hdr : Header) (tw : Writer)
  : option string * Writer :=
  match Flush tw with
  | (Some e, tw') => (Some e, tw')
  | (None, tw') =>
      let hdr := normalize hdr in
      if encodable hdr then
        (None, {| buffer := buffer tw' ++ [Block hdr];
                  nb := Size hdr; pad := blockPadding (Size hdr);
                  werr := None |})
      else
        (Some "archive/tar: cannot encode header",
         {| buffer := buffer tw'; nb := nb tw'; pad := pad tw';
            werr := Some "archive/tar: cannot encode header" |})
  end.

(** [Writer.Write]: at most [nb] bytes go to the current entry; a
    longer slice is cut and reported as [ErrWriteTooLong]. *)
Definition Write (b : list Byte.byte) (tw : Writer) : option string * Writer :=
  match werr tw with
  | Some e => (Some e, tw)
  | None =>
      let overwrite := nb tw <? Z.of_nat (length b) in
      let b' := if overwrite then take (Z.to_nat (nb tw)) b else b in
      (if overwrite then Some "archive/tar: write too long" else None,
       {| buffer := buffer tw ++ map Octet b';
          nb := nb tw - Z.of_nat (length b'); pad := pad tw; werr := None |})
  end.

(** [Writer.Close]: flushes and writes the trailer of two zero blocks. *)
Definition Close (tw : Writer) : option string * Writer :=
  match Flush tw with
  | (Some e, tw') => (Some e, tw')
  | (None, tw') =>
      (None, {| buffer := buffer tw' ++ zeros (2 * blockSize);
                nb := nb tw'; pad := pad tw';
                werr := Some "archive/tar: write after close" |})
  end.

(** [tar.Reader]: the underlying stream and the bytes left in the
    current entry. *)
Record Reader := {
  src : Stream;
  remaining : Z }.

(** [tar.NewReader r]: [&Reader{r: r, curr: &regFileReader{r, 0}}]; no
    entry is current until [Next] is called. *)
Definition NewReader (s : Stream) : Reader := {| src := s; remaining := 0 |}.

(** What a consumer of the reader as an [io.Reader] receives by
    calling [Reader.Read] until [io.EOF]: the bytes left in the
    current entry, and nothing beyond it. *)
Definition ReadAll (tr : Reader) : Stream := take (Z.to_nat (remaining tr)) (src tr).

(** The entries of an archive as an extractor sees them: a header
    block, [Size] bytes of content, the padding to the next block
    boundary, repeated until the zero bytes of the trailer or the end
    of the stream.  [None] when the stream is cut inside an entry or
    continues with bytes that are no header. *)
Definition octets (s : Stream) : option (list Byte.byte) :=
  mapM (fun u => match u with Octet b => Some b | Block _ => None end) s.

Fixpoint entries (fuel : nat) (s : Stream) : option (list (Header * list Byte.byte)) :=
  match fuel with
  | O => None
  | S fuel' =>
      match s with
      | [] => Some []
      | Octet b :: _ => if Byte.eqb b Byte.x00 then Some [] else None
      | Block hdr :: rest =>
          let n := Z.to_nat (Size hdr) in
          let p := Z.to_nat (blockPadding (Size hdr)) in
          if (n + p <=? length rest)%nat then
            match octets (take n rest), entries fuel' (drop (n + p) rest) with
            | Some body, Some more => Some ((hdr, body) :: more)
            | _, _ => None
            end
          else None
      end
  end.

Definition Entries (s : Stream) : option (list (Header * list Byte.byte)) :=
  entries (S (length s)) s.

End Tar.

(** ** The container API and the data of the adapter *)

(** [types.ContainerPathStat]. *)
Module Types.
Record ContainerPathStat := {
  Name : string;
  Size : Z;
  Mode : Z;
  LinkTarget : string }.
End Types.

(** changes.go: the change kinds, [uint8] constants. *)
Definition FileModified : Z := 0.
Definition FileAdded : Z := 1.
Definition FileRemoved : Z := 2.

(** One record of the container's diff: [Path] and [Kind] come from the
    wire, [mode] is filled by [ChangesInDir]. *)
Record fsChange := {
  Path : string;
  Kind : Z;
  mode : Z }.

Definition fsChanges := list fsChange.

(** What [json.Decoder.Decode] makes of the body of the changes
    response: an error, the nil slice for the JSON value [null], or the
    elements of a JSON array. *)
Inductive DecodedChanges :=
| DecodeError (err : string)
| DecodedNull
| DecodedArray (l : fsChanges).

Record ChangesResponse := {
  StatusCode : Z;
  Body : DecodedChanges }.

(** The response to [HEAD /containers/{id}/archive?path=]: the status
    and the value of the [X-Docker-Container-Path-Stat] header (empty
    when absent). *)
Record HeadResponse := {
  HeadStatus : Z;
  PathStatHeader : string }.

(** A request sent to the container runtime. *)
Inductive Request :=
| ReqHeadArchive (path : string)
| ReqChanges
| ReqStatPath (path : string)
| ReqCopyTo (dstPath : string) (content : Tar.Stream).

Definition isChanges (q : Request) : bool :=
  match q with ReqChanges => true | _ => false end.

Definition isCopyTo (q : Request) : bool :=
  match q with ReqCopyTo _ _ => true | _ => false end.

(** The uploads and the changes requests in a log. *)
Definition uploads (log : list Request) : list Request := List.filter isCopyTo log.
Definition diffCalls (log : list Request) : list Request := List.filter isChanges log.

(** The environment of a mount.  A response may depend on everything
    sent before: the runtime's answers are indexed by the number of
    requests already in the log, the clock by the number of readings
    already taken. *)
Record Env := {
  (** [time.Now()], in nanoseconds *)
  now : nat -> Z;
  (** [m.unixc.Head(url)] *)
  unixHead : nat -> string -> string + HeadResponse;
  (** the base64 and JSON decoding of a path-stat header, reduced to
      the number under its ["mode"] key *)
  decodePathStat : string -> string + Z;
  (** [m.unixc.Get(".../changes")] *)
  unixGetChanges : nat -> string + ChangesResponse;
  (** [dockerClient.ContainerStatPath] *)
  ContainerStatPath : nat -> string -> string + Types.ContainerPathStat;
  (** [dockerClient.CopyToContainer] *)
  CopyToContainer : nat -> string -> Tar.Stream -> option string;
  (** the order in which [range] visits the entries of a map *)
  rangeOrder : list (string * Z) -> list (string * Z);
  (** [Header.allowedFormats] of archive/tar finds a format *)
  tarEncodable : Tar.Header -> bool }.

(** [range] visits every entry of the map once. *)
Definition range_ok (E : Env) : Prop :=
  ∀ l, NoDup l → rangeOrder E l ≡ₚ l.

(** ** The inode allocator *)

Module Inodes.

Record Table := {
  table : gmap string Z;
  next : Z }.

(** Modelled from the spec: the inode allocator behind [d.mng.inodes],
    whose source is not among the files of the adapter.  "Maps
    cleaned_path -> uint64.  First-seen path gets the next unused id
    starting at 2.  The root path / always maps to 1." *)
Definition initial : Table :=
  {| table := {[ "/" := 1 ]}; next := 2 |}.

(** Modelled from the spec: [inodes.Inode(path)], the [inodeFor] of the
    specification.  A path seen before keeps its number; a new path
    takes the counter, which then advances in [uint64]. *)
Definition Inode (path : string) (t : Table) : Z * Table :=
  match table t !! path with
  | Some ino => (ino, t)
  | None =>
      (next t, {| table := <[ path := next t ]> (table t);
                  next := uint64 (next t + 1) |})
  end.

(** The numbers handed out for a sequence of requests, in order. *)
Fixpoint run (paths : list string) (t : Table) : list Z * Table :=
  match paths with
  | [] => ([], t)
  | p :: rest =>
      let (ino, t1) := Inode p t in
      let (inos, t2) := run rest t1 in
      (ino :: inos, t2)
  end.

(** The state of the table after at most [k] allocations: the root
    holds 1, every other path a number from 2 up to the counter, no
    number is held twice, and the counter has not wrapped. *)
Definition allocated (k : Z) (t : Table) : Prop :=
  table t !! "/" = Some 1
  ∧ 2 ≤ next t ≤ 2 + k
  ∧ (∀ p i, table t !! p = Some i → i = 1 ∧ p = "/" ∨ 2 ≤ i < next t)
  ∧ (∀ p q i, table t !! p = Some i → table t !! q = Some i → p = q).

(** One table extends another: every path keeps its number. *)
Definition extends (t t' : Table) : Prop :=
  ∀ p i, table t !! p = Some i → table t' !! p = Some i.

End Inodes.

(** ** The manager and the world *)

(** [Mng]: mng.go's fields, with the [uid], [gid] and [inodes] that the
    directory node reads from it.  [changes] is a slice: [None] is nil. *)
Record Mng := {
  id : string;
  staticFiles : gmap string Z;
  changes : option fsChanges;
  changesUpdated : Z;
  changesUpdateInterval : Z;
  uid : Z;
  gid : Z;
  inodes : Inodes.Table }.

(** The zero [time.Time] (January 1 of year 1, UTC), in nanoseconds
    from the Unix epoch. *)
Definition zeroTime : Z := -62135596800 * 1000000000.

Definition Second : Z := 1000000000.

(** [NewMng] followed by [Init] with the parsed export; [uid] and [gid]
    are those of the mounting process. *)
Definition NewMng (containerId : string) (files : gmap string Z) (u g : Z) : Mng :=
  {| id := containerId;
     staticFiles := files;
     changes := None;
     changesUpdated := zeroTime;
     changesUpdateInterval := 30 * Second;
     uid := u;
     gid := g;
     inodes := Inodes.initial |}.

Record World := {
  mng : Mng;
  requests : list Request;
  clockReads : nat }.

Definition M (A : Type) : Type := World → A * World.

Definition ret {A : Type} (a : A) : M A := λ w, (a, w).

Definition bind {A B : Type} (c : M A) (k : A → M B) : M B :=
  λ w, let (a, w') := c w in k a w'.

Notation "x <- c ;; k" := (bind c (λ x, k))
  (at level 100, c at next level, right associativity).

(** [time.Now()]. *)
Definition timeNow (E : Env) : M Z :=
  λ w, (now E (clockReads w),
        {| mng := mng w; requests := requests w; clockReads := S (clockReads w) |}).

(** Log a request; the result is its position, which selects the
    runtime's answer. *)
Definition send (q : Request) : M nat :=
  λ w, (length (requests w),
        {| mng := mng w; requests := requests w ++ [q]; clockReads := clockReads w |}).

Definition getMng : M Mng := λ w, (mng w, w).

(** [m.changes = c; m.changesUpdated = t]. *)
Definition setChanges (c : option fsChanges) (t : Z) : M unit :=
  λ w, let m := mng w in
       (tt, {| mng := {| id := id m; staticFiles := staticFiles m;
                         changes := c; changesUpdated := t;
                         changesUpdateInterval := changesUpdateInterval m;
                         uid := uid m; gid := gid m; inodes := inodes m |};
               requests := requests w; clockReads := clockReads w |}).

(** The world with the inode table of the manager replaced. *)
Definition setInodes (t : Inodes.Table) (w : World) : World :=
  let m := mng w in
  {| mng := {| id := id m; staticFiles := staticFiles m;
               changes := changes m; changesUpdated := changesUpdated m;
               changesUpdateInterval := changesUpdateInterval m;
               uid := uid m; gid := gid m; inodes := t |};
     requests := requests w; clockReads := clockReads w |}.

(** [d.mng.inodes.Inode(path)]. *)
Definition inodeFor (path : string) : M Z :=
  λ w, let (ino, t) := Inodes.Inode path (inodes (mng w)) in (ino, setInodes t w).

(** A [for] loop over a slice with an accumulator. *)
Fixpoint foldM {A B : Type} (body : A → B → M A) (acc : A) (l : list B) : M A :=
  match l with
  | [] => ret acc
  | x :: rest => acc' <- body acc x ;; foldM body acc' rest
  end.

(** ** changes.go *)

Fixpoint WasRemoved (path : string) (c : fsChanges) : bool :=
  match c with
  | [] => false
  | ch :: rest =>
      if String.eqb (Path ch) path && (Kind ch =? FileRemoved) then true
      else WasRemoved path rest
  end.

(** ** mng.go *)

(** The loop of [parseContainterContent] over the results of
    [tr.Next()]. *)
Fixpoint parseEntries (tr : list Tar.NextResult) (result : gmap string Z)
  : gmap string Z :=
  match tr with
  | [] => result
  | Tar.NextError _ :: _ => result
  | Tar.NextHeader hdr :: rest =>
      if (Tar.Typeflag hdr =? Tar.TypeReg) || (Tar.Typeflag hdr =? Tar.TypeRegA)
      then parseEntries rest
             (<[ "/" +:+ Filepath.Clean (Tar.Name hdr) := uint32 (Tar.Mode hdr) ]> result)
      else parseEntries rest result
  end.

(** [parseContainterContent]; the argument is what [os.Open] and the
    tar reader make of the file. *)
Definition parseContainterContent (file : string + list Tar.NextResult)
  : string + gmap string Z :=
  match file with
  | inl err => inl err
  | inr tr => inr (parseEntries tr ∅)
  end.

Definition ErrorNotFound : string := "Not found".

Section Operations.

Context (E : Env).

(** [Mng.getRawAttrs], reduced to the ["mode"] of the decoded header. *)
Definition getRawAttrs (path : string) : M (string + Z) :=
  n <- send (ReqHeadArchive path) ;;
  ret
    match unixHead E n path with
    | inl err => inl ("Head request failed: " +:+ err)
    | inr resp =>
        if HeadStatus resp =? 404 then inl ErrorNotFound
        else if negb (HeadStatus resp =? 200) then inl "Unexpected status code"
        else if String.eqb (PathStatHeader resp) ""
        then inl "X-Docker-Container-Path-Stat header not found"
        else match decodePathStat E (PathStatHeader resp) with
             | inl err => inl ("Decoding failed: " +:+ err)
             | inr data => inr data
             end
    end.

(** [Mng.fetchFsChanges]. *)
Definition fetchFsChanges : M (option string) :=
  n <- send ReqChanges ;;
  match unixGetChanges E n with
  | inl err => ret (Some err)
  | inr resp =>
      if negb (StatusCode resp =? 200)
      then ret (Some "Unexpected status code (expected 200 OK)")
      else match Body resp with
           | DecodeError err => ret (Some err)
           | DecodedNull => t <- timeNow E ;; _ <- setChanges None t ;; ret None
           | DecodedArray l => t <- timeNow E ;; _ <- setChanges (Some l) t ;; ret None
           end
  end.

(** The body of the loop of [ChangesInDir]. *)
Definition changesInDirStep (dir : string) (result : fsChanges) (change : fsChange)
  : M fsChanges :=
  if Kind change =? FileModified then ret result
  else if negb (String.eqb (Filepath.Clean (Filepath.Dir (Path change))) dir)
  then ret result
  else
    data <- getRawAttrs (Path change) ;;
    match data with
    | inl _ => ret result
    | inr md =>
        ret (result ++ [{| Path := Path change; Kind := Kind change;
                            mode := uint32 md |}])
    end.

(** The condition [m.changes == nil || time.Now().After(...)]; the
    clock is read only when the slice is not nil. *)
Definition changesStale : M bool :=
  m <- getMng ;;
  match changes m with
  | None => ret true
  | Some _ =>
      t <- timeNow E ;;
      ret (changesUpdated m + changesUpdateInterval m <? t)
  end.

(** [Mng.ChangesInDir]. *)
Definition ChangesInDir (dir : string) : M (string + fsChanges) :=
  stale <- changesStale ;;
  err <- (if stale then fetchFsChanges else ret None) ;;
  match err with
  | Some e => ret (inl e)
  | None =>
      m <- getMng ;;
      let dir := Filepath.Clean dir in
      result <- foldM (changesInDirStep dir) [] (default [] (changes m)) ;;
      ret (inr result)
  end.

End Operations.

(** ** The nodes of the filesystem *)

Module Fs.

(** [fs.StableAttr]. *)
Record StableAttr := {
  Mode : Z;
  Ino : Z }.

(** [File], the fields that [Dir] sets. *)
Record File := {
  fullpath : string;
  write : bool;
  stat : option Types.ContainerPathStat }.

(** The node implementations handed to [NewPersistentInode]:
    [fs.MemSymlink], [Dir] and [File]. *)
Inductive Ops :=
| MemSymlink (Data : string)
| DirOps (fullpath : string)
| FileOps (f : File).

(** [fs.Inode] as [NewPersistentInode] builds it. *)
Record Inode := {
  ops : Ops;
  stableAttr : StableAttr }.

Definition NewPersistentInode (o : Ops) (a : StableAttr) : Inode :=
  {| ops := o; stableAttr := a |}.

(** [MemSymlink.Readlink]: the stored target. *)
Definition Readlink (n : Inode) : option string :=
  match ops n with
  | MemSymlink data => Some data
  | _ => None
  end.

End Fs.

Record Dir := {
  fullpath : string }.

(** [Mng.Root]. *)
Definition Root : Dir := {| fullpath := "/" |}.

Section Adapter.

Context (E : Env).

(** ** The docker client wrapper *)

(** [dockerMngImpl.GetPathAttrs]. *)
Definition GetPathAttrs (path : string) : M (string + Types.ContainerPathStat) :=
  n <- send (ReqStatPath path) ;;
  ret (ContainerStatPath E n path).

(** [dockerMngImpl.SaveFile].  The deferred [writer.Close()] runs after
    the upload and writes to a buffer nobody reads again. *)
Definition SaveFile (path : string) (data : list Byte.byte)
    (stat : Types.ContainerPathStat) : M (option string) :=
  let writer := Tar.NewWriter in
  let (dir, name) := Filepath.Split path in
  t <- timeNow E ;;
  let hdr := {| Tar.Typeflag := 0;
                Tar.Name := name;
                Tar.Linkname := "";
                Tar.Size := Z.of_nat (length data);
                Tar.Mode := Types.Mode stat;
                Tar.ModTime := t |} in
  match Tar.WriteHeader (tarEncodable E) hdr writer with
  | (Some err, _) => ret (Some err)
  | (None, writer) =>
      match Tar.Write data writer with
      | (Some err, _) => ret (Some err)
      | (None, writer) =>
          let reader := Tar.NewReader (Tar.buffer writer) in
          n <- send (ReqCopyTo dir (Tar.ReadAll reader)) ;;
          ret (CopyToContainer E n dir (Tar.ReadAll reader))
      end
  end.

(** ** The directory node *)

(** The octal literal [0755]. *)
Definition perm0755 : Z := 7 * 64 + 5 * 8 + 5.

(** [Dir.Getattr]. *)
Definition Getattr (d : Dir) (out : Fuse.Attr) : M (Fuse.Attr * Z) :=
  m <- getMng ;;
  ret ({| Fuse.OwnerUid := uid m; Fuse.OwnerGid := gid m; Fuse.AttrMode := perm0755 |},
       Syscall.OK).

(** [Dir.Lookup]; the result carries the [out] argument as the call
    leaves it. *)
Definition Lookup (d : Dir) (name : string) (out : Fuse.Attr)
  : M (option Fs.Inode * Z * Fuse.Attr) :=
  let path := Filepath.Join (fullpath d) name in
  attrs <- GetPathAttrs path ;;
  match attrs with
  | inl err =>
      if Strings.HasSuffix err "404" then ret (None, Syscall.ENOENT, out)
      else ret (None, Syscall.EIO, out)
  | inr attrs =>
      let mode := Types.Mode attrs in
      m <- getMng ;;
      let out := {| Fuse.OwnerUid := uid m; Fuse.OwnerGid := gid m;
                    Fuse.AttrMode := Fuse.AttrMode out |} in
      inode <- inodeFor (Filepath.Clean path) ;;
      if negb (Z.land mode Os.ModeSymlink =? 0) then
        ret (Some (Fs.NewPersistentInode (Fs.MemSymlink (Types.LinkTarget attrs))
                     {| Fs.Mode := Fuse.S_IFLNK; Fs.Ino := inode |}),
             Syscall.OK, out)
      else if Os.IsDir mode then
        ret (Some (Fs.NewPersistentInode (Fs.DirOps path)
                     {| Fs.Mode := Fuse.S_IFDIR; Fs.Ino := inode |}),
             Syscall.OK, out)
      else
        ret (Some (Fs.NewPersistentInode
                     (Fs.FileOps {| Fs.fullpath := path; Fs.write := false;
                                    Fs.stat := None |})
                     {| Fs.Mode := 0; Fs.Ino := inode |}),
             Syscall.OK, out)
  end.

Definition emptyAttr : Fuse.Attr :=
  {| Fuse.OwnerUid := 0; Fuse.OwnerGid := 0; Fuse.AttrMode := 0 |}.

(** [Dir.Create]: the node and the errno; the file handle and the fuse
    flags it returns are always zero. *)
Definition Create (d : Dir) (name : string) (flags mode : Z)
  : M (option Fs.Inode * Z) :=
  let path := Filepath.Join (fullpath d) name in
  probe <- Lookup d name emptyAttr ;;
  let syserr := snd (fst probe) in
  if syserr =? 0 then ret (None, Syscall.EEXIST)
  else if negb (syserr =? Syscall.ENOENT) then ret (None, syserr)
  else
    let f := {| Fs.fullpath := path;
                Fs.write := true;
                Fs.stat := Some {| Types.Name := ""; Types.Size := 0;
                                   Types.Mode := mode;
                                   Types.LinkTarget := "" |} |} in
    inode <- inodeFor (Filepath.Clean path) ;;
    ret (Some (Fs.NewPersistentInode (Fs.FileOps f)
                 {| Fs.Mode := 0; Fs.Ino := inode |}),
         Syscall.OK).

(** The first loop of [Dir.Readdir]: one entry of [staticFiles]. *)
Definition staticStep (path : string) (changes : fsChanges)
    (children : gmap string Z) (entry : string * Z) : gmap string Z :=
  let (name, mode) := entry in
  if negb (Strings.HasPrefix name path) then children
  else if WasRemoved name changes then children
  else
    let sub := Strings.from (String.length path) name in
    let pos := Strings.IndexSlash sub in
    if 0 <? pos then <[ Strings.upto (Z.to_nat pos) sub := Fuse.S_IFDIR ]> children
    else if pos <? 0 then
      if Z.land mode Fuse.S_IFLNK =? Fuse.S_IFLNK
      then <[ sub := Fuse.S_IFLNK ]> children
      else <[ sub := Fuse.S_IFREG ]> children
    else children.

(** The second loop of [Dir.Readdir]: one change. *)
Definition addedStep (children : gmap string Z) (ch : fsChange)
  : M (gmap string Z) :=
  if negb (Kind ch =? FileAdded) then ret children
  else
    stat <- GetPathAttrs (Path ch) ;;
    match stat with
    | inl _ => ret children
    | inr stat =>
        let mode := uint32 (Types.Mode stat) in
        let fuseMode := if Os.IsDir mode then Fuse.S_IFDIR else Fuse.S_IFREG in
        ret (<[ Filepath.Base (Path ch) := fuseMode ]> children)
    end.

(** The third loop of [Dir.Readdir]: one child. *)
Definition listStep (dirpath : string) (entries : list Fuse.DirEntry)
    (entry : string * Z) : M (list Fuse.DirEntry) :=
  let (child, mode) := entry in
  inode <- inodeFor (Filepath.Clean (Filepath.Join dirpath child)) ;;
  ret (entries ++ [{| Fuse.Mode := mode; Fuse.Name := child; Fuse.Ino := inode |}]).

(** [Dir.Readdir]. *)
Definition Readdir (d : Dir) : M (option (list Fuse.DirEntry) * Z) :=
  let path := if negb (String.eqb (fullpath d) "/")
              then fullpath d +:+ "/" else fullpath d in
  changes <- ChangesInDir E (fullpath d) ;;
  match changes with
  | inl _ => ret (None, Syscall.EIO)
  | inr changes =>
      m <- getMng ;;
      let children :=
        fold_left (staticStep path changes)
                  (rangeOrder E (map_to_list (staticFiles m))) ∅ in
      children <- foldM addedStep children changes ;;
      entries <- foldM (listStep (fullpath d)) []
                       (rangeOrder E (map_to_list children)) ;;
      ret (Some entries, Syscall.OK)
  end.

End Adapter.

(** The node [Create] materializes: a [File] with [write] set and the
    requested mode in its in-memory stat. *)
Definition createdFile (path : string) (mode ino : Z) : Fs.Inode :=
  Fs.NewPersistentInode
    (Fs.FileOps {| Fs.fullpath := path; Fs.write := true;
                   Fs.stat := Some {| Types.Name := ""; Types.Size := 0;
                                      Types.Mode := mode; Types.LinkTarget := "" |} |})
    {| Fs.Mode := 0; Fs.Ino := ino |}.

(** ** Vocabulary of the statements *)

(** A path element: no slash inside. *)
Fixpoint noSlash (s : string) : bool :=
  match s with
  | EmptyString => true
  | String c s' => negb (Ascii.eqb c "/") && noSlash s'
  end.

(** A proper path element: not empty, not [.] and not [..]. *)
Definition normal (e : string) : Prop :=
  noSlash e = true ∧ e ≠ "" ∧ e ≠ "." ∧ e ≠ "..".

(** The shape of [Clean]'s output stack, last element first: proper
    elements above [..] elements, and no [..] in a rooted path. *)
Definition shape (rooted : bool) (out : list string) : Prop :=
  ∃ ns ds, out = ns ++ ds ∧ Forall normal ns ∧ Forall (λ e, e = "..") ds
           ∧ (rooted = true → ds = []).

(** Steps that leave the manager and the clock alone and send neither
    a changes request nor an upload. *)
Definition quiet (w w' : World) : Prop :=
  mng w' = mng w
  ∧ clockReads w' = clockReads w
  ∧ diffCalls (requests w') = diffCalls (requests w)
  ∧ uploads (requests w') = uploads (requests w).

(** The error with which [fetchFsChanges] gives up on a response, if
    it does: a failed request, a status other than 200, or a body that
    does not decode. *)
Definition fetchError (resp : string + ChangesResponse) : option string :=
  match resp with
  | inl err => Some err
  | inr resp =>
      if negb (StatusCode resp =? 200)
      then Some "Unexpected status code (expected 200 OK)"
      else match Body resp with
           | DecodeError err => Some err
           | _ => None
           end
  end.

(** The slice a response decodes to. *)
Definition decodedChanges (resp : string + ChangesResponse) : option fsChanges :=
  match resp with
  | inr {| Body := DecodedArray l |} => Some l
  | _ => None
  end.

(** The prefix under which [Readdir] of [d] looks for snapshot paths:
    the full path followed by a slash, the root as it is. *)
Definition childPrefix (d : Dir) : string :=
  if negb (String.eqb (fullpath d) "/") then fullpath d +:+ "/" else fullpath d.

(** The type [Readdir] gives an added entry, from its stat. *)
Definition fuseModeOf (st : Types.ContainerPathStat) : Z :=
  if Os.IsDir (uint32 (Types.Mode st)) then Fuse.S_IFDIR else Fuse.S_IFREG.

(** An entry [name] of type [md] derived from an [Added] change of
    [chs] whose stat succeeded. *)
Definition fromAdded (E : Env) (chs : fsChanges) (name : string) (md : Z) : Prop :=
  ∃ ch n st,
    ch ∈ chs ∧ Kind ch = FileAdded ∧ Filepath.Base (Path ch) = name
    ∧ ContainerStatPath E n (Path ch) = inr st ∧ md = fuseModeOf st.

(** An entry [name] of type [md] derived from a snapshot path under
    [prefix] that [chs] does not report as removed: a directory named
    by the first segment when more segments follow, the file itself
    otherwise. *)
Definition fromSnapshot (files : gmap string Z) (prefix : string) (chs : fsChanges)
    (name : string) (md : Z) : Prop :=
  ∃ file fmode,
    files !! file = Some fmode
    ∧ Strings.HasPrefix file prefix = true
    ∧ WasRemoved file chs = false
    ∧ let sub := Strings.from (String.length prefix) file in
      let pos := Strings.IndexSlash sub in
      (0 < pos ∧ name = Strings.upto (Z.to_nat pos) sub ∧ md = Fuse.S_IFDIR)
      ∨ (pos < 0 ∧ name = sub
         ∧ md = if Z.land fmode Fuse.S_IFLNK =? Fuse.S_IFLNK
                then Fuse.S_IFLNK else Fuse.S_IFREG).

(** The container answers every stat of [path] with a result. *)
Definition statAnswers (E : Env) (path : string) : Prop :=
  ∀ n, ∃ st, ContainerStatPath E n path = inr st.

(** ** A mount session *)

(** The calls that reach the adapter while a container is mounted. *)
Inductive Call :=
| CallGetattr (d : Dir)
| CallLookup (d : Dir) (name : string)
| CallCreate (d : Dir) (name : string) (flags mode : Z)
| CallReaddir (d : Dir)
| CallSaveFile (path : string) (data : list Byte.byte) (stat : Types.ContainerPathStat).

(** The cleaned path for which [Lookup], [Create] and [Readdir] of the
    directory [d] ask the allocator when they number the child [name]. *)
Definition inodeKey (d : Dir) (name : string) : string :=
  Filepath.Clean (Filepath.Join (fullpath d) name).

(** The inode numbers that a call hands to the kernel, each with the
    cleaned path of its node, and the world the call leaves: the
    number of the node of a [Lookup] or a [Create], the numbers of the
    entries of a [Readdir]. *)
Definition reported (E : Env) (c : Call) (w : World) : list (string * Z) * World :=
  match c with
  | CallGetattr d => ([], snd (Getattr d emptyAttr w))
  | CallLookup d name =>
      let r := Lookup E d name emptyAttr w in
      (match fst (fst (fst r)) with
       | Some node => [(inodeKey d name, Fs.Ino (Fs.stableAttr node))]
       | None => []
       end, snd r)
  | CallCreate d name flags mode =>
      let r := Create E d name flags mode w in
      (match fst (fst r) with
       | Some node => [(inodeKey d name, Fs.Ino (Fs.stableAttr node))]
       | None => []
       end, snd r)
  | CallReaddir d =>
      let r := Readdir E d w in
      (match fst (fst r) with
       | Some l => map (λ e, (inodeKey d (Fuse.Name e), Fuse.Ino e)) l
       | None => []
       end, snd r)
  | CallSaveFile path data stat => ([], snd (SaveFile E path data stat w))
  end.

(** A session: the calls in order, each on the world the previous one
    left, with everything they report. *)
Fixpoint session (E : Env) (calls : list Call) (w : World) : list (string * Z) * World :=
  match calls with
  | [] => ([], w)
  | c :: rest =>
      let (r1, w1) := reported E c w in
      let (r2, w2) := session E rest w1 in
      (r1 ++ r2, w2)
  end.

(** ** Concrete mounts *)

Module Scenario.

(** The export of the end-to-end scenario: the regular file
    [/etc/hostname] with mode 0644 and the symlink [/bin/sh] to
    [busybox].  Names in an export carry no leading slash. *)
Definition export : list Tar.NextResult :=
  [ Tar.NextHeader {| Tar.Typeflag := Tar.TypeReg; Tar.Name := "etc/hostname";
                      Tar.Linkname := ""; Tar.Size := 13;
                      Tar.Mode := 6 * 64 + 4 * 8 + 4; Tar.ModTime := 0 |};
    Tar.NextHeader {| Tar.Typeflag := Tar.TypeSymlink; Tar.Name := "bin/sh";
                      Tar.Linkname := "busybox"; Tar.Size := 0;
                      Tar.Mode := 7 * 64 + 7 * 8 + 7; Tar.ModTime := 0 |} ].

Definition files : gmap string Z :=
  match parseContainterContent (inr export) with
  | inr m => m
  | inl _ => ∅
  end.

(** The live container of that scenario: [/etc/hostname] and [/bin/sh]
    exist, every other path is reported missing. *)
Definition statPath (p : string) : string + Types.ContainerPathStat :=
  if String.eqb p "/bin/sh" then
    inr {| Types.Name := "sh"; Types.Size := 7;
           Types.Mode := Os.ModeSymlink + (7 * 64 + 7 * 8 + 7);
           Types.LinkTarget := "busybox" |}
  else if String.eqb p "/etc/hostname" then
    inr {| Types.Name := "hostname"; Types.Size := 13;
           Types.Mode := 6 * 64 + 4 * 8 + 4; Types.LinkTarget := "" |}
  else inl "Error response from daemon: 404".

(** A container without changes since its start. *)
Definition env : Env :=
  {| now := λ n, 1000 * Second + Z.of_nat n;
     unixHead := λ _ _, inr {| HeadStatus := 404; PathStatHeader := "" |};
     decodePathStat := λ _, inl "unexpected end of JSON input";
     unixGetChanges := λ _, inr {| StatusCode := 200; Body := DecodedArray [] |};
     ContainerStatPath := λ _, statPath;
     CopyToContainer := λ _ _ _, None;
     rangeOrder := λ l, l;
     tarEncodable := λ _, true |}.

(** The world right after the mount. *)
Definition w0 : World :=
  {| mng := NewMng "c0ffee" files 1000 1000; requests := []; clockReads := 0 |}.

(** A container whose diff reports the added file [/etc/new]; the
    HEAD request of [ChangesInDir] finds it, the later stat of
    [Readdir] fails. *)
Definition envAdded : Env :=
  {| now := now env;
     unixHead := λ _ _, inr {| HeadStatus := 200; PathStatHeader := "eyJtb2RlIjo0MjB9" |};
     decodePathStat := λ _, inr (6 * 64 + 4 * 8 + 4);
     unixGetChanges := λ _,
       inr {| StatusCode := 200;
              Body := DecodedArray [ {| Path := "/etc/new"; Kind := FileAdded; mode := 0 |} ] |};
     ContainerStatPath := λ _ _, inl "context deadline exceeded";
     CopyToContainer := λ _ _ _, None;
     rangeOrder := λ l, l;
     tarEncodable := λ _, true |}.

(** A container in which [/etc/hostname] has become a directory and
    the file [/etc/new] has appeared; the diff reports both as added,
    and every stat is answered. *)
Definition statGrown (p : string) : string + Types.ContainerPathStat :=
  if String.eqb p "/etc/hostname" then
    inr {| Types.Name := "hostname"; Types.Size := 4096;
           Types.Mode := Os.ModeDir + (7 * 64 + 5 * 8 + 5); Types.LinkTarget := "" |}
  else if String.eqb p "/etc/new" then
    inr {| Types.Name := "new"; Types.Size := 2;
           Types.Mode := 6 * 64 + 4 * 8 + 4; Types.LinkTarget := "" |}
  else inl "Error response from daemon: 404".

Definition grown : fsChanges :=
  [ {| Path := "/etc/hostname"; Kind := FileAdded; mode := 0 |};
    {| Path := "/etc/new"; Kind := FileAdded; mode := 0 |} ].

Definition envGrown : Env :=
  {| now := now env;
     unixHead := λ _ _, inr {| HeadStatus := 200; PathStatHeader := "eyJtb2RlIjo0MjB9" |};
     decodePathStat := λ _, inr (6 * 64 + 4 * 8 + 4);
     unixGetChanges := λ _, inr {| StatusCode := 200; Body := DecodedArray grown |};
     ContainerStatPath := λ _, statGrown;
     CopyToContainer := λ _ _ _, None;
     rangeOrder := λ l, l;
     tarEncodable := λ _, true |}.

(** A container whose diff reports [/etc/hostname] as removed, on a
    runtime that still answers the HEAD request for it. *)
Definition envRemoved : Env :=
  {| now := now env;
     unixHead := λ _ _, inr {| HeadStatus := 200; PathStatHeader := "eyJtb2RlIjo0MjB9" |};
     decodePathStat := λ _, inr (6 * 64 + 4 * 8 + 4);
     unixGetChanges := λ _,
       inr {| StatusCode := 200;
              Body := DecodedArray
                        [ {| Path := "/etc/hostname"; Kind := FileRemoved; mode := 0 |} ] |};
     ContainerStatPath := ContainerStatPath env;
     CopyToContainer := λ _ _ _, None;
     rangeOrder := λ l, l;
     tarEncodable := λ _, true |}.

(** A runtime that answers the changes request with the JSON value
    [null]. *)
Definition envNull : Env :=
  {| now := now env;
     unixHead := unixHead env;
     decodePathStat := decodePathStat env;
     unixGetChanges := λ _, inr {| StatusCode := 200; Body := DecodedNull |};
     ContainerStatPath := ContainerStatPath env;
     CopyToContainer := CopyToContainer env;
     rangeOrder := rangeOrder env;
     tarEncodable := tarEncodable env |}.

(** A runtime whose changes request fails. *)
Definition envDown : Env :=
  {| now := now env;
     unixHead := unixHead env;
     decodePathStat := decodePathStat env;
     unixGetChanges := λ _, inl "dial unix /var/run/docker.sock: connect: connection refused";
     ContainerStatPath := ContainerStatPath env;
     CopyToContainer := CopyToContainer env;
     rangeOrder := rangeOrder env;
     tarEncodable := tarEncodable env |}.

(** A mount whose snapshot holds [/etc/ssl/cert.pem], on a container
    whose diff reports the directory [/etc/ssl] as removed. *)
Definition wSsl : World :=
  {| mng := NewMng "c0ffee" {[ "/etc/ssl/cert.pem" := 6 * 64 + 4 * 8 + 4 ]} 1000 1000;
     requests := []; clockReads := 0 |}.

Definition envRemovedDir : Env :=
  {| now := now env;
     unixHead := unixHead envRemoved;
     decodePathStat := decodePathStat envRemoved;
     unixGetChanges := λ _,
       inr {| StatusCode := 200;
              Body := DecodedArray
                        [ {| Path := "/etc/ssl"; Kind := FileRemoved; mode := 0 |} ] |};
     ContainerStatPath := ContainerStatPath env;
     CopyToContainer := λ _ _ _, None;
     rangeOrder := λ l, l;
     tarEncodable := λ _, true |}.

(** A container whose diff reports the added directory [/etc/new/],
    written with a trailing slash, and a change of [/etc/new/x] whose
    kind byte is 3, none of the three kinds; the runtime answers the
    HEAD request for both. *)
Definition envOdd : Env :=
  {| now := now env;
     unixHead := unixHead envRemoved;
     decodePathStat := decodePathStat envRemoved;
     unixGetChanges := λ _,
       inr {| StatusCode := 200;
              Body := DecodedArray
                        [ {| Path := "/etc/new/"; Kind := FileAdded; mode := 0 |};
                          {| Path := "/etc/new/x"; Kind := 3; mode := 0 |} ] |};
     ContainerStatPath := ContainerStatPath env;
     CopyToContainer := λ _ _ _, None;
     rangeOrder := λ l, l;
     tarEncodable := λ _, true |}.

(** The container of the scenario seen from the root: the stat of [/]
    is answered too, with a directory. *)
Definition envRoot : Env :=
  {| now := now env;
     unixHead := unixHead env;
     decodePathStat := decodePathStat env;
     unixGetChanges := unixGetChanges env;
     ContainerStatPath := λ _ p,
       if String.eqb p "/" then
         inr {| Types.Name := "/"; Types.Size := 4096;
                Types.Mode := Os.ModeDir + (7 * 64 + 5 * 8 + 5); Types.LinkTarget := "" |}
       else statPath p;
     CopyToContainer := CopyToContainer env;
     rangeOrder := rangeOrder env;
     tarEncodable := tarEncodable env |}.

Definition etc : Dir := {| fullpath := "/etc" |}.
Definition bin : Dir := {| fullpath := "/bin" |}.
Definition tmp : Dir := {| fullpath := "/tmp" |}.

(** The bytes of ["hi"]. *)
Definition hi : list Byte.byte := [Byte.x68; Byte.x69].

Definition stat0644 : Types.ContainerPathStat :=
  {| Types.Name := ""; Types.Size := 0; Types.Mode := 6 * 64 + 4 * 8 + 4;
     Types.LinkTarget := "" |}.

End Scenario.

(** ** Vocabulary of the further statements *)

(** The entries that [parseContainterContent] records: regular files. *)
Definition regularEntry (hdr : Tar.Header) : bool :=
  (Tar.Typeflag hdr =? Tar.TypeReg) || (Tar.Typeflag hdr =? Tar.TypeRegA).

(** The key under which an entry is recorded. *)
Definition snapshotKey (hdr : Tar.Header) : string :=
  "/" +:+ Filepath.Clean (Tar.Name hdr).

(** No call of [Next] fails on the archive. *)
Definition errorFree (tr : list Tar.NextResult) : Prop :=
  ∀ err, Tar.NextError err ∉ tr.

(** The mode that [getRawAttrs] obtains for [path] when its request is
    the [n]-th of the log: the response must have status 200 and carry
    a path-stat header that decodes. *)
Definition headMode (E : Env) (n : nat) (path : string) : option Z :=
  match unixHead E n path with
  | inl _ => None
  | inr resp =>
      if HeadStatus resp =? 200 then
        if String.eqb (PathStatHeader resp) "" then None
        else match decodePathStat E (PathStatHeader resp) with
             | inl _ => None
             | inr md => Some md
             end
      else None
  end.

(** The changes that the loop of [ChangesInDir] looks at for [dir]:
    not [Modified], parent directory cleaning to [dir]. *)
Definition directChild (dir : string) (c : fsChange) : bool :=
  negb (Kind c =? FileModified)
  && String.eqb (Filepath.Clean (Filepath.Dir (Path c))) dir.

(** The change as [ChangesInDir] returns it when the HEAD request for
    its path is answered with [headMode E 0]. *)
Definition surfaced (E : Env) (dir : string) (c : fsChange) : option fsChange :=
  if directChild dir c then
    match headMode E 0 (Path c) with
    | Some md => Some {| Path := Path c; Kind := Kind c; mode := uint32 md |}
    | None => None
    end
  else None.

(** The runtime answers the HEAD request for a path the same way
    whenever it is asked. *)
Definition headStable (E : Env) : Prop :=
  ∀ n path, headMode E n path = headMode E 0 path.

(** The test with which [ChangesInDir] decides to refresh, on the
    fields of the manager and the next reading of the clock. *)
Definition staleAt (E : Env) (w : World) : bool :=
  match changes (mng w) with
  | None => true
  | Some _ =>
      changesUpdated (mng w) + changesUpdateInterval (mng w) <? now E (clockReads w)
  end.

(** A cleaned absolute path. *)
Definition cleanAbs (p : string) : Prop :=
  Filepath.Clean p = p ∧ Strings.HasPrefix p "/" = true.

(** The path a node carries, if it is a directory or a file. *)
Definition nodePath (n : Fs.Inode) : option string :=
  match Fs.ops n with
  | Fs.DirOps p => Some p
  | Fs.FileOps f => Some (Fs.fullpath f)
  | Fs.MemSymlink _ => None
  end.

(** The world after one more request, nothing else changed. *)
Definition sent (q : Request) (w : World) : World :=
  {| mng := mng w; requests := requests w ++ [q]; clockReads := clockReads w |}.

Module More.

(** A container in which [/tmp/x] is missing at the first request and
    exists, as a regular file, from the second on. *)
Definition envCreated : Env :=
  {| now := now Scenario.env;
     unixHead := unixHead Scenario.env;
     decodePathStat := decodePathStat Scenario.env;
     unixGetChanges := unixGetChanges Scenario.env;
     ContainerStatPath := λ n p,
       if (0 <? Z.of_nat n) && String.eqb p "/tmp/x"
       then inr {| Types.Name := "x"; Types.Size := 2;
                   Types.Mode := 6 * 64 + 4 * 8 + 4; Types.LinkTarget := "" |}
       else Scenario.statPath p;
     CopyToContainer := CopyToContainer Scenario.env;
     rangeOrder := rangeOrder Scenario.env;
     tarEncodable := tarEncodable Scenario.env |}.

End More.

(** The name under which the first loop of [Readdir] lists a snapshot
    path below [prefix]: its first segment when more follow, the rest
    of the path otherwise. *)
Definition childName (prefix file : string) : string :=
  let sub := Strings.from (String.length prefix) file in
  let pos := Strings.IndexSlash sub in
  if 0 <? pos then Strings.upto (Z.to_nat pos) sub else sub.

(** The changes for which the second loop of [Readdir] asks the
    container. *)
Definition isAdded (c : fsChange) : bool := Kind c =? FileAdded.

(** The header that [SaveFile] hands to [WriteHeader] for a file, at
    the time [t]. *)
Definition saveHeader (path : string) (data : list Byte.byte)
    (stat : Types.ContainerPathStat) (t : Z) : Tar.Header :=
  {| Tar.Typeflag := 0;
     Tar.Name := snd (Filepath.Split path);
     Tar.Linkname := "";
     Tar.Size := Z.of_nat (length data);
     Tar.Mode := Types.Mode stat;
     Tar.ModTime := t |}.

(** ** manager.go: the status file *)

Module Manager.

(** The file at [m.statusPath] as [ioutil.ReadFile] finds it. *)
Inductive StatusFile :=
| Absent
| Unreadable (err : string)
| Holds (data : string).

(** The host of the manager.  A [map[string]string] is [None] when it
    is the nil map. *)
Record Host := {
  (** [json.Unmarshal(data, &status)] *)
  unmarshal : string → string + option (gmap string string);
  (** [json.Marshal(status)], which does not fail on such a map *)
  marshal : option (gmap string string) → string;
  (** [os.Getwd()] *)
  getwd : string + string;
  (** [ioutil.WriteFile]: [None] when the write succeeds, the error and
      the file it leaves behind otherwise *)
  writeFails : StatusFile → string → option (string * StatusFile);
  (** the error of [cmd.Run()] for [umount path] *)
  umount : string → option string }.

(** How a call ends: it returns an error or nil, or it panics. *)
Inductive Outcome :=
| Returned (err : option string)
| Panicked.

(** [filepath.Abs] on Unix. *)
Definition Abs (H : Host) (path : string) : string + string :=
  if Strings.HasPrefix path "/" then inr (Filepath.Clean path)
  else match getwd H with
       | inl err => inl err
       | inr wd => inr (Filepath.Join wd path)
       end.

(** [Manager.ReadStatus]. *)
Definition ReadStatus (H : Host) (f : StatusFile)
  : string + option (gmap string string) :=
  match f with
  | Absent => inr (Some ∅)
  | Unreadable err => inl err
  | Holds data => unmarshal H data
  end.

(** The end of [writeStatus]: marshal and write. *)
Definition store (H : Host) (status : option (gmap string string)) (f : StatusFile)
  : Outcome * StatusFile :=
  let data := marshal H status in
  match writeFails H f data with
  | Some (err, f') => (Returned (Some err), f')
  | None => (Returned None, Holds data)
  end.

(** [Manager.writeStatus].  Assigning into the nil map panics;
    deleting from it does nothing. *)
Definition writeStatus (H : Host) (id path : string) (f : StatusFile)
  : Outcome * StatusFile :=
  match ReadStatus H f with
  | inl err => (Returned (Some err), f)
  | inr status =>
      if negb (String.eqb path "") then
        match Abs H path with
        | inl err => (Returned (Some err), f)
        | inr absPath =>
            match status with
            | None => (Panicked, f)
            | Some m => store H (Some (<[ id := absPath ]> m)) f
            end
        end
      else store H (delete id <$> status) f
  end.

(** [Manager.UnmountContainer]: the result of the [umount] command is
    discarded. *)
Definition UnmountContainer (H : Host) (id path : string) (f : StatusFile)
  : Outcome * StatusFile :=
  let _ := umount H path in
  writeStatus H id "" f.

(** The codec is faithful on a map: what [Marshal] writes,
    [Unmarshal] reads back. *)
Definition roundTrips (H : Host) (m : gmap string string) : Prop :=
  unmarshal H (marshal H (Some m)) = inr (Some m).

(** A host for examples: a working directory, a disk that takes every
    write, and a codec that knows the three documents of the
    examples. *)
Definition mounted : gmap string string := {[ "c0ffee" := "/home/u/mnt" ]}.

Definition host : Host :=
  {| unmarshal := λ data,
       if String.eqb data "null" then inr None
       else if String.eqb data "{}" then inr (Some ∅)
       else if String.eqb data "{c0ffee:/home/u/mnt}" then inr (Some mounted)
       else inl "invalid character";
     marshal := λ status,
       match status with
       | None => "null"
       | Some m =>
           if decide (m = ∅) then "{}"
           else if decide (m = mounted) then "{c0ffee:/home/u/mnt}"
           else "{...}"
       end;
     getwd := inr "/home/u";
     writeFails := λ _ _, None;
     umount := λ _, Some "exit status 32" |}.

End Manager.

(** * Properties *)

(** ** The path functions on examples *)

Module PathExamples.
Import Strings Filepath.

Example clean_abs : Clean "/a//b/./c/../d/" = "/a/b/d". Proof. reflexivity. Qed.
Example clean_root : Clean "/.." = "/". Proof. reflexivity. Qed.
Example clean_rel : Clean "a/../../b" = "../b". Proof. reflexivity. Qed.
Example clean_dot : Clean "./" = ".". Proof. reflexivity. Qed.
Example split_abc : Split "/a/b/c" = ("/a/b/", "c"). Proof. reflexivity. Qed.
Example dir_abc : Dir "/a/b/c" = "/a/b". Proof. reflexivity. Qed.
Example dir_top : Dir "/x" = "/". Proof. reflexivity. Qed.
Example base_abc : Base "/a/b/c/" = "c". Proof. reflexivity. Qed.
Example base_root : Base "///" = "/". Proof. reflexivity. Qed.
Example join_root : Join "/" "etc" = "/etc". Proof. reflexivity. Qed.
Example join_sub : Join "/etc" "hostname" = "/etc/hostname". Proof. reflexivity. Qed.
Example suffix_404 : HasSuffix "status 404" "404" = true. Proof. reflexivity. Qed.
Example index_none : IndexSlash "hostname" = -1. Proof. reflexivity. Qed.
Example index_some : IndexSlash "ssl/certs" = 3. Proof. reflexivity. Qed.

End PathExamples.

(** ** [filepath.Clean] is idempotent *)

Module PathFacts.
Import Strings Filepath.

Lemma SplitSlash_noSlash s : Forall (λ e, noSlash e = true) (SplitSlash s).
Proof.
  induction s as [|c s IH]; simpl.
  - repeat constructor.
  - destruct (Ascii.eqb c "/") eqn:Hc.
    + constructor; [reflexivity | exact IH].
    + destruct (SplitSlash s) as [|x xs]; [repeat constructor; simpl; by rewrite Hc|].
      inversion IH; subst. constructor; [simpl; rewrite Hc; simpl; assumption | assumption].
Qed.

Lemma SplitSlash_element e : noSlash e = true → SplitSlash e = [e].
Proof.
  induction e as [|c e IH]; simpl; [reflexivity|].
  intros H. apply andb_true_iff in H as [Hc He].
  apply negb_true_iff in Hc. rewrite Hc, (IH He). reflexivity.
Qed.

Lemma SplitSlash_cons e s :
  noSlash e = true → SplitSlash (e +:+ "/" +:+ s) = e :: SplitSlash s.
Proof.
  induction e as [|c e IH]; simpl; [reflexivity|].
  intros H. apply andb_true_iff in H as [Hc He].
  apply negb_true_iff in Hc. rewrite Hc.
  change (SplitSlash (e +:+ String "/" s)) with (SplitSlash (e +:+ "/" +:+ s)).
  rewrite (IH He). reflexivity.
Qed.

Lemma SplitSlash_JoinSlash l :
  l ≠ [] → Forall (λ e, noSlash e = true) l → SplitSlash (JoinSlash l) = l.
Proof.
  induction l as [|e l IH]; [done|].
  intros _ Hall. inversion Hall as [|? ? He Hl]; subst.
  destruct l as [|e' l'].
  - simpl. by apply SplitSlash_element.
  - change (JoinSlash (e :: e' :: l')) with (e +:+ "/" +:+ JoinSlash (e' :: l')).
    rewrite SplitSlash_cons by assumption.
    rewrite IH; [reflexivity | discriminate | assumption].
Qed.

Lemma cleanElem_normal rooted out e : normal e → cleanElem rooted out e = e :: out.
Proof.
  intros (_ & H1 & H2 & H3). unfold cleanElem.
  destruct (String.eqb_spec e ""); [done|].
  destruct (String.eqb_spec e "."); [done|].
  destruct (String.eqb_spec e ".."); [done|]. reflexivity.
Qed.

Lemma cleanElem_shape rooted out e :
  noSlash e = true → shape rooted out → shape rooted (cleanElem rooted out e).
Proof.
  intros He (ns & ds & -> & Hns & Hds & Hr). unfold cleanElem.
  destruct (String.eqb_spec e ""); [by exists ns, ds|].
  destruct (String.eqb_spec e "."); [by exists ns, ds|].
  destruct (String.eqb_spec e "..") as [->|Hne].
  - destruct ns as [|top ns']; simpl.
    + destruct ds as [|top ds'].
      * destruct rooted; [by exists [], []|].
        exists [], [".."]. repeat split; auto. discriminate.
      * inversion Hds; subst. simpl.
        destruct rooted; [by exists [], (".." :: ds')|].
        exists [], (".." :: ".." :: ds'). repeat split; auto. discriminate.
    + inversion Hns as [|? ? Htop Hns']; subst.
      destruct Htop as (_ & _ & _ & Htop).
      destruct (String.eqb_spec top ".."); [done|].
      by exists ns', ds.
  - exists (e :: ns), ds. repeat split; auto.
    constructor; [by repeat split | done].
Qed.

Lemma fold_cleanElem_shape rooted l out :
  Forall (λ e, noSlash e = true) l → shape rooted out →
  shape rooted (fold_left (cleanElem rooted) l out).
Proof.
  revert out. induction l as [|e l IH]; intros out Hl Hout; simpl; [done|].
  inversion Hl; subst. apply IH; [done|]. by apply cleanElem_shape.
Qed.

Lemma fold_cleanElem_normals rooted ns acc :
  Forall normal ns → fold_left (cleanElem rooted) ns acc = rev ns ++ acc.
Proof.
  revert acc. induction ns as [|e ns IH]; intros acc H; simpl; [done|].
  inversion H; subst. rewrite cleanElem_normal by done.
  rewrite IH by done. by rewrite <- app_assoc.
Qed.

Lemma fold_cleanElem_dotdots ds acc :
  Forall (λ e, e = "..") ds → Forall (λ e, e = "..") acc →
  fold_left (cleanElem false) ds acc = rev ds ++ acc.
Proof.
  revert acc. induction ds as [|e ds IH]; intros acc H Hacc; simpl; [done|].
  inversion H; subst.
  assert (Hstep : cleanElem false acc ".." = ".." :: acc).
  { destruct acc as [|top acc']; [reflexivity|].
    inversion Hacc; subst. reflexivity. }
  rewrite Hstep, IH; [by rewrite <- app_assoc | done | by constructor].
Qed.

Lemma normal_noSlash ns : Forall normal ns → Forall (λ e, noSlash e = true) ns.
Proof. intros H. eapply Forall_impl; [exact H|]. by intros e (He & _). Qed.

Lemma dotdots_noSlash ds : Forall (λ e, e = "..") ds → Forall (λ e, noSlash e = true) ds.
Proof. intros H. eapply Forall_impl; [exact H|]. by intros e ->. Qed.

Lemma JoinSlash_head e l :
  noSlash e = true → e ≠ "" →
  JoinSlash (e :: l) ≠ "" ∧ HasPrefix (JoinSlash (e :: l)) "/" = false.
Proof.
  intros He Hne. destruct e as [|c e']; [done|].
  simpl in He. apply andb_true_iff in He as [Hc _]. apply negb_true_iff in Hc.
  assert (Hc' : Ascii.eqb "/" c = false) by (by rewrite Ascii.eqb_sym).
  assert (Hp : ∀ s, HasPrefix (String c s) "/" = false).
  { intros s. cbn -[Ascii.eqb]. by rewrite Hc'. }
  destruct l as [|e2 l].
  - split; [done | apply Hp].
  - change (JoinSlash (String c e' :: e2 :: l))
      with (String c (e' +:+ "/" +:+ JoinSlash (e2 :: l))).
    split; [done | apply Hp].
Qed.

(** The three forms of a cleaned path. *)
Lemma Clean_forms path :
  Clean path = "."
  ∨ (∃ ns, Forall normal ns ∧ Clean path = "/" +:+ JoinSlash ns)
  ∨ (∃ ds ns, Forall (λ e, e = "..") ds ∧ Forall normal ns ∧ ds ++ ns ≠ []
              ∧ Clean path = JoinSlash (ds ++ ns)).
Proof.
  unfold Clean.
  destruct (String.eqb_spec path "") as [|Hne]; [by left|].
  set (rooted := HasPrefix path "/").
  assert (Hshape : shape rooted (fold_left (cleanElem rooted) (SplitSlash path) [])).
  { apply fold_cleanElem_shape; [apply SplitSlash_noSlash|].
    exists [], []. by repeat split. }
  destruct Hshape as (ns & ds & Hout & Hns & Hds & Hr).
  rewrite Hout, rev_app_distr.
  destruct rooted.
  - right; left. rewrite (Hr eq_refl). simpl.
    exists (rev ns). split; [by apply Forall_rev | reflexivity].
  - destruct (rev ds ++ rev ns) as [|e out] eqn:Hrev; [by left|].
    right; right. exists (rev ds), (rev ns).
    rewrite Hrev. repeat split; try by apply Forall_rev. discriminate.
Qed.

Lemma Clean_rooted s :
  Clean (String "/" s)
  = "/" +:+ JoinSlash (rev (fold_left (cleanElem true) (SplitSlash s) [])).
Proof. reflexivity. Qed.

(** [Clean] is idempotent. *)
Lemma Clean_idempotent path : Clean (Clean path) = Clean path.
Proof.
  destruct (Clean_forms path) as [->|[(ns & Hns & ->)|(ds & ns & Hds & Hns & Hne & ->)]].
  - reflexivity.
  - change ("/" +:+ JoinSlash ns) with (String "/" (JoinSlash ns)).
    rewrite Clean_rooted.
    destruct ns as [|e out]; [reflexivity|].
    rewrite SplitSlash_JoinSlash; [|discriminate|by apply normal_noSlash].
    rewrite fold_cleanElem_normals by done.
    by rewrite app_nil_r, rev_involutive.
  - destruct (ds ++ ns) as [|e out] eqn:Hl; [done|].
    assert (Hs : Forall (λ e, noSlash e = true) (e :: out)).
    { rewrite <- Hl. apply Forall_app. split;
        [by apply dotdots_noSlash | by apply normal_noSlash]. }
    assert (He : e ≠ "").
    { destruct ds as [|d ds'].
      - simpl in Hl. subst ns. inversion Hns as [|? ? (_ & ? & _) _]; by subst.
      - inversion Hl; subst. inversion Hds; by subst. }
    inversion Hs as [|? ? Hse _]; subst.
    destruct (JoinSlash_head e out Hse He) as [Hj1 Hj2].
    unfold Clean.
    destruct (String.eqb_spec (JoinSlash (e :: out)) ""); [done|].
    rewrite Hj2.
    rewrite SplitSlash_JoinSlash; [|discriminate|done].
    rewrite <- Hl, fold_left_app.
    rewrite (fold_cleanElem_dotdots ds []); [|exact Hds|constructor].
    rewrite fold_cleanElem_normals by done.
    rewrite app_nil_r, rev_app_distr, !rev_involutive.
    rewrite Hl. reflexivity.
Qed.

End PathFacts.

(** ** The directory node: Getattr, Lookup, Create *)

Section DirNode.

Context (E : Env).

Lemma Getattr_run d out w :
  Getattr d out w =
    (({| Fuse.OwnerUid := uid (mng w); Fuse.OwnerGid := gid (mng w);
         Fuse.AttrMode := perm0755 |}, Syscall.OK), w).
Proof. reflexivity. Qed.

(** [Lookup] sends one stat request and classifies the answer. *)
Lemma Lookup_requests d name out w :
  requests (snd (Lookup E d name out w)) =
    requests w ++ [ReqStatPath (Filepath.Join (fullpath d) name)].
Proof.
  unfold Lookup, bind, GetPathAttrs, send, ret; simpl.
  destruct (ContainerStatPath E _ _) as [err|attrs]; simpl.
  - destruct (Strings.HasSuffix err "404"); reflexivity.
  - unfold getMng, inodeFor; simpl.
    destruct (Inodes.Inode _ _) as [ino t]; simpl.
    destruct (negb _); [reflexivity|].
    destruct (Os.IsDir _); reflexivity.
Qed.


Lemma Create_run d name flags mode w :
  let path := Filepath.Join (fullpath d) name in
  let probe := snd (fst (fst (Lookup E d name emptyAttr w))) in
  let w1 := snd (Lookup E d name emptyAttr w) in
  Create E d name flags mode w =
    if probe =? 0 then ((None, Syscall.EEXIST), w1)
    else if negb (probe =? Syscall.ENOENT) then ((None, probe), w1)
    else
      let (ino, w2) := inodeFor (Filepath.Clean path) w1 in
      ((Some (createdFile path mode ino), Syscall.OK), w2).
Proof.
  simpl. unfold Create, bind.
  destruct (Lookup E d name emptyAttr w) as [[[n e] o] w1]; simpl.
  destruct (e =? 0); [reflexivity|].
  destruct (negb _); [reflexivity|].
  destruct (inodeFor _ w1); reflexivity.
Qed.

Lemma inodeFor_requests p w :
  requests (snd (inodeFor p w)) = requests w
  ∧ clockReads (snd (inodeFor p w)) = clockReads w.
Proof.
  unfold inodeFor. destruct (Inodes.Inode _ _); simpl; auto.
Qed.


(** C7.  [Dir.Create] probes with [Lookup], which sends one stat
    request and nothing else, so no upload is issued whatever the
    outcome.  When the probe succeeds the result is [EEXIST] and no
    node; when the probe answers [ENOENT] the call succeeds with a
    [File] node that is writable and holds the requested mode; any
    other errno of the probe is returned as it is. *)
Theorem Create_probe_decides d name flags mode w :
  let path := Filepath.Join (fullpath d) name in
  let probe := snd (fst (fst (Lookup E d name emptyAttr w))) in
  let result := fst (Create E d name flags mode w) in
  let w' := snd (Create E d name flags mode w) in
  requests w' = requests w ++ [ReqStatPath path]
  ∧ uploads (requests w')
      = uploads (requests w)
  ∧ (probe = Syscall.OK → result = (None, Syscall.EEXIST))
  ∧ (probe = Syscall.ENOENT →
       ∃ ino, result = (Some (createdFile path mode ino), Syscall.OK))
  ∧ (probe ≠ Syscall.OK → probe ≠ Syscall.ENOENT → result = (None, probe)).
Proof.
  cbv zeta. rewrite Create_run. cbv zeta.
  pose proof (Lookup_requests d name emptyAttr w) as Hreq.
  set (probe := snd (fst (fst (Lookup E d name emptyAttr w)))) in *.
  set (w1 := snd (Lookup E d name emptyAttr w)) in *.
  assert (Hw' : requests
            (snd (if probe =? 0 then ((None, Syscall.EEXIST), w1)
                  else if negb (probe =? Syscall.ENOENT) then ((None, probe), w1)
                  else let (ino, w2) := inodeFor (Filepath.Clean (Filepath.Join (fullpath d) name)) w1 in
                       ((Some (createdFile (Filepath.Join (fullpath d) name) mode ino), Syscall.OK), w2)))
          = requests w ++ [ReqStatPath (Filepath.Join (fullpath d) name)]).
  { destruct (probe =? 0); [exact Hreq|].
    destruct (negb _); [exact Hreq|].
    pose proof (inodeFor_requests (Filepath.Clean (Filepath.Join (fullpath d) name)) w1) as [Hi _].
    destruct (inodeFor _ w1); simpl in *. congruence. }
  split; [exact Hw'|].
  split.
  { rewrite Hw'. unfold uploads. rewrite List.filter_app. simpl.
    by rewrite app_nil_r. }
  split; [|split].
  - intros ->. reflexivity.
  - intros ->. simpl.
    destruct (inodeFor _ w1) as [ino w2]. by exists ino.
  - intros H0 H2.
    destruct (Z.eqb_spec probe 0) as [|_]; [contradiction|].
    destruct (Z.eqb_spec probe Syscall.ENOENT) as [|_]; [contradiction|].
    reflexivity.
Qed.

End DirNode.



(** ** The changes cache *)

Section ChangesCache.

Context (E : Env).

Lemma quiet_refl w : quiet w w.
Proof. by repeat split. Qed.

Lemma quiet_trans w1 w2 w3 : quiet w1 w2 → quiet w2 w3 → quiet w1 w3.
Proof.
  intros (a1 & a2 & a3 & a4) (b1 & b2 & b3 & b4).
  repeat split; congruence.
Qed.

(** A loop whose body keeps a preorder keeps it. *)
Lemma foldM_preorder {A B : Type} (R : World → World → Prop)
    (body : A → B → M A) (l : list B) :
  (∀ w, R w w) → (∀ w1 w2 w3, R w1 w2 → R w2 w3 → R w1 w3) →
  (∀ acc x w, R w (snd (body acc x w))) →
  ∀ acc w, R w (snd (foldM body acc l w)).
Proof.
  intros Hrefl Htrans Hbody. induction l as [|x l IH]; intros acc w; simpl.
  - apply Hrefl.
  - unfold bind. specialize (Hbody acc x w).
    destruct (body acc x w) as [acc' w']; simpl in *.
    eapply Htrans; [exact Hbody | apply IH].
Qed.

Lemma getRawAttrs_quiet path w : quiet w (snd (getRawAttrs E path w)).
Proof.
  unfold getRawAttrs, bind, send, ret, quiet, diffCalls, uploads; simpl.
  rewrite !List.filter_app; simpl. rewrite !app_nil_r. by repeat split.
Qed.

Lemma changesInDirStep_quiet dir acc c w :
  quiet w (snd (changesInDirStep E dir acc c w)).
Proof.
  unfold changesInDirStep.
  destruct (Kind c =? FileModified); [apply quiet_refl|].
  destruct (negb _); [apply quiet_refl|].
  unfold bind. pose proof (getRawAttrs_quiet (Path c) w) as H.
  destruct (getRawAttrs E (Path c) w) as [[err|md] w']; exact H.
Qed.

Lemma changesLoop_quiet dir l acc w :
  quiet w (snd (foldM (changesInDirStep E dir) acc l w)).
Proof.
  apply (foldM_preorder quiet); auto using quiet_refl, changesInDirStep_quiet.
  intros. eapply quiet_trans; eauto.
Qed.

(** What the loop of [ChangesInDir] lets through: changes of the
    cached list that are not [Modified] and whose parent directory
    cleans to [dir]. *)
Lemma changesLoop_elements dir l acc w c :
  c ∈ fst (foldM (changesInDirStep E dir) acc l w) →
  c ∈ acc
  ∨ ∃ c0, c0 ∈ l ∧ Path c = Path c0 ∧ Kind c = Kind c0
          ∧ Kind c0 ≠ FileModified
          ∧ Filepath.Clean (Filepath.Dir (Path c0)) = dir.
Proof.
  revert acc w. induction l as [|x l IH]; intros acc w; simpl.
  - auto.
  - unfold bind.
    destruct (changesInDirStep E dir acc x w) as [acc' w'] eqn:Hstep.
    intros Hc. apply IH in Hc. destruct Hc as [Hc|(c0 & Hin & Hrest)].
    + unfold changesInDirStep in Hstep.
      destruct (Z.eqb_spec (Kind x) FileModified) as [|Hk].
      { inversion Hstep; subst. auto. }
      destruct (String.eqb_spec (Filepath.Clean (Filepath.Dir (Path x))) dir) as [Hd|Hd];
        simpl in Hstep.
      2:{ inversion Hstep; subst. auto. }
      unfold bind in Hstep.
      destruct (getRawAttrs E (Path x) w) as [[err|md] w1].
      { inversion Hstep; subst. auto. }
      inversion Hstep; subst.
      apply elem_of_app in Hc. destruct Hc as [Hc|Hc]; [auto|].
      apply list_elem_of_singleton in Hc. subst c. simpl.
      right. exists x. repeat split; auto. left.
    + right. exists c0. split; [by right | exact Hrest].
Qed.

(** The run of [ChangesInDir], case by case. *)
Lemma changesStale_run w :
  changesStale E w =
    match changes (mng w) with
    | None => (true, w)
    | Some _ =>
        (changesUpdated (mng w) + changesUpdateInterval (mng w)
           <? now E (clockReads w),
         {| mng := mng w; requests := requests w; clockReads := S (clockReads w) |})
    end.
Proof.
  unfold changesStale, bind, getMng, timeNow, ret.
  destruct (changes (mng w)); reflexivity.
Qed.

Lemma changesStale_world w :
  mng (snd (changesStale E w)) = mng w
  ∧ requests (snd (changesStale E w)) = requests w.
Proof. rewrite changesStale_run. destruct (changes (mng w)); auto. Qed.

Lemma fetchFsChanges_fails w e :
  fetchError (unixGetChanges E (length (requests w))) = Some e →
  fst (fetchFsChanges E w) = Some e
  ∧ mng (snd (fetchFsChanges E w)) = mng w
  ∧ requests (snd (fetchFsChanges E w)) = requests w ++ [ReqChanges].
Proof.
  unfold fetchError, fetchFsChanges, bind, send, ret; simpl.
  destruct (unixGetChanges E (length (requests w))) as [err|resp]; simpl.
  - intros [= ->]. auto.
  - destruct (negb (StatusCode resp =? 200)); simpl.
    + intros [= <-]. auto.
    + destruct (Body resp); [intros [= ->]; auto | discriminate | discriminate].
Qed.

Lemma fetchFsChanges_succeeds w :
  fetchError (unixGetChanges E (length (requests w))) = None →
  fst (fetchFsChanges E w) = None
  ∧ changes (mng (snd (fetchFsChanges E w)))
      = decodedChanges (unixGetChanges E (length (requests w)))
  ∧ changesUpdated (mng (snd (fetchFsChanges E w))) = now E (clockReads w)
  ∧ changesUpdateInterval (mng (snd (fetchFsChanges E w))) = changesUpdateInterval (mng w)
  ∧ clockReads (snd (fetchFsChanges E w)) = S (clockReads w)
  ∧ requests (snd (fetchFsChanges E w)) = requests w ++ [ReqChanges].
Proof.
  unfold fetchError, decodedChanges, fetchFsChanges, bind, send, ret; simpl.
  destruct (unixGetChanges E (length (requests w))) as [err|resp]; simpl; [discriminate|].
  destruct resp as [code body]; simpl.
  destruct (negb (code =? 200)); simpl; [discriminate|].
  destruct body; [discriminate | |]; intros _; simpl; repeat split; reflexivity.
Qed.

End ChangesCache.

Section ChangesInDirFacts.

Context (E : Env).

Lemma ChangesInDir_run dir w :
  ChangesInDir E dir w =
    let (stale, w1) := changesStale E w in
    let (err, w2) := if stale then fetchFsChanges E w1 else (None, w1) in
    match err with
    | Some e => (inl e, w2)
    | None =>
        let (result, w3) :=
          foldM (changesInDirStep E (Filepath.Clean dir)) []
                (default [] (changes (mng w2))) w2 in
        (inr result, w3)
    end.
Proof.
  unfold ChangesInDir, bind.
  destruct (changesStale E w) as [stale w1].
  destruct stale.
  - destruct (fetchFsChanges E w1) as [[e|] w2]; [reflexivity|].
    unfold getMng. destruct (foldM _ _ _ w2); reflexivity.
  - unfold ret at 1. unfold getMng. destruct (foldM _ _ _ w1); reflexivity.
Qed.

(** A call that finds the cache fresh sends no changes request and
    leaves the manager as it was. *)
Lemma ChangesInDir_fresh dir w :
  fst (changesStale E w) = false →
  mng (snd (ChangesInDir E dir w)) = mng w
  ∧ diffCalls (requests (snd (ChangesInDir E dir w))) = diffCalls (requests w)
  ∧ fst (ChangesInDir E dir w)
    = inr (fst (foldM (changesInDirStep E (Filepath.Clean dir)) []
                      (default [] (changes (mng w))) (snd (changesStale E w)))).
Proof.
  intros Hfresh. rewrite ChangesInDir_run.
  destruct (changesStale_world E w) as [Hm Hr].
  destruct (changesStale E w) as [stale w1]; simpl in *. subst stale.
  pose proof (changesLoop_quiet E (Filepath.Clean dir)
                (default [] (changes (mng w1))) [] w1) as (Q1 & _ & Q3 & _).
  destruct (foldM _ _ _ w1) as [res w3] eqn:Hloop; simpl in *.
  rewrite Hm in *. rewrite Hr in *. repeat split; try congruence.
  by rewrite Hloop.
Qed.

(** A call whose refresh fails. *)
Lemma ChangesInDir_failed dir w e :
  fst (changesStale E w) = true →
  fetchError (unixGetChanges E (length (requests w))) = Some e →
  fst (ChangesInDir E dir w) = inl e
  ∧ mng (snd (ChangesInDir E dir w)) = mng w.
Proof.
  intros Hstale Herr. rewrite ChangesInDir_run.
  destruct (changesStale_world E w) as [Hm Hr].
  destruct (changesStale E w) as [stale w1]; simpl in *. subst stale.
  rewrite <- Hr in Herr.
  destruct (fetchFsChanges_fails E w1 e Herr) as (F1 & F2 & _).
  destruct (fetchFsChanges E w1) as [err w2]; simpl in *. subst err. simpl.
  split; [reflexivity | congruence].
Qed.

(** A call whose refresh succeeds. *)
Lemma ChangesInDir_refreshed dir w :
  fst (changesStale E w) = true →
  fetchError (unixGetChanges E (length (requests w))) = None →
  let w' := snd (ChangesInDir E dir w) in
  changes (mng w') = decodedChanges (unixGetChanges E (length (requests w)))
  ∧ changesUpdated (mng w') = now E (clockReads (snd (changesStale E w)))
  ∧ changesUpdateInterval (mng w') = changesUpdateInterval (mng w)
  ∧ clockReads w' = S (clockReads (snd (changesStale E w)))
  ∧ diffCalls (requests w') = diffCalls (requests w) ++ [ReqChanges]
  ∧ is_Some (match fst (ChangesInDir E dir w) with inr res => Some res | inl _ => None end).
Proof.
  intros Hstale Hok. cbv zeta. rewrite ChangesInDir_run.
  destruct (changesStale_world E w) as [Hm Hr].
  destruct (changesStale E w) as [stale w1]; simpl in *. subst stale.
  rewrite <- Hr in Hok |- *.
  destruct (fetchFsChanges_succeeds E w1 Hok) as (F1 & F2 & F3 & F4 & F5 & F6).
  destruct (fetchFsChanges E w1) as [err w2]; simpl in *. subst err.
  pose proof (changesLoop_quiet E (Filepath.Clean dir)
                (default [] (changes (mng w2))) [] w2) as (Q1 & Q2 & Q3 & _).
  destruct (foldM _ _ _ w2) as [res w3]; simpl in *.
  rewrite Q1, Q2, Q3, F2, F3, F4, F5, F6, Hm.
  unfold diffCalls. rewrite List.filter_app. simpl.
  repeat split; try reflexivity. by eexists.
Qed.

(** C5.  When [ChangesInDir] attempts a refresh and the attempt fails
    (the request fails, the status is not 200, or the body does not
    decode), the call returns that error and the cached entries and
    the refresh time are as before.  Whenever a call does change the
    cached entries or the refresh time, it did refresh and the refresh
    succeeded. *)
Theorem ChangesInDir_failed_refresh_keeps_cache dir w e :
  fst (changesStale E w) = true →
  fetchError (unixGetChanges E (length (requests w))) = Some e →
  fst (ChangesInDir E dir w) = inl e
  ∧ changes (mng (snd (ChangesInDir E dir w))) = changes (mng w)
  ∧ changesUpdated (mng (snd (ChangesInDir E dir w))) = changesUpdated (mng w)
  ∧ ∀ dir2 w2,
      (changes (mng (snd (ChangesInDir E dir2 w2))),
       changesUpdated (mng (snd (ChangesInDir E dir2 w2))))
        ≠ (changes (mng w2), changesUpdated (mng w2)) →
      fst (changesStale E w2) = true
      ∧ fetchError (unixGetChanges E (length (requests w2))) = None.
Proof.
  intros Hstale Herr.
  destruct (ChangesInDir_failed dir w e Hstale Herr) as [H1 H2].
  rewrite H2. repeat split; try done.
  - destruct (fst (changesStale E w2)) eqn:Hs; [reflexivity|].
    destruct (ChangesInDir_fresh dir2 w2 Hs) as (Hm & _). rewrite Hm in H. done.
  - destruct (fst (changesStale E w2)) eqn:Hs.
    + destruct (fetchError (unixGetChanges E (length (requests w2)))) as [e2|] eqn:He2;
        [|reflexivity].
      destruct (ChangesInDir_failed dir2 w2 e2 Hs He2) as [_ Hm].
      rewrite Hm in H. done.
    + destruct (ChangesInDir_fresh dir2 w2 Hs) as (Hm & _). rewrite Hm in H. done.
Qed.

End ChangesInDirFacts.

(** C5, on a runtime that refuses the connection. *)
Lemma ChangesInDir_failed_refresh_keeps_cache_witness :
  fst (changesStale Scenario.envDown Scenario.w0) = true
  ∧ fetchError (unixGetChanges Scenario.envDown (length (requests Scenario.w0)))
      = Some "dial unix /var/run/docker.sock: connect: connection refused"
  ∧ fst (ChangesInDir Scenario.envDown "/etc" Scenario.w0)
      = inl "dial unix /var/run/docker.sock: connect: connection refused".
Proof.
  split; [reflexivity|]. split; [reflexivity|].
  exact (proj1 (ChangesInDir_failed_refresh_keeps_cache Scenario.envDown "/etc" Scenario.w0
                  "dial unix /var/run/docker.sock: connect: connection refused"
                  eq_refl eq_refl)).
Defined.

(** C4 as stated fails.  The runtime answers the changes request with
    the JSON value [null], which decodes to the nil slice: the first
    call refreshes successfully, the second call starts within the
    refresh interval, and still the cache counts as never filled and a
    second changes request is sent. *)
Lemma ChangesInDir_null_refreshes_twice :
  let first := ChangesInDir Scenario.envNull "/etc" Scenario.w0 in
  let second := ChangesInDir Scenario.envNull "/etc" (snd first) in
  fst first = inr []
  ∧ now Scenario.envNull (clockReads (snd first))
      < changesUpdated (mng (snd first)) + changesUpdateInterval (mng (snd first))
  ∧ diffCalls (requests (snd second)) = [ReqChanges; ReqChanges]
  ∧ (length (diffCalls (requests (snd second)))
      - length (diffCalls (requests Scenario.w0)))%nat ≠ 1%nat.
Proof. vm_compute. repeat split; congruence. Qed.

Section BackToBack.

Context (E : Env).

(** C4, amended.  Take two consecutive calls of [ChangesInDir], the
    first of which refreshes the cache from a response whose body is a
    JSON array (possibly empty), the second starting before the
    refresh time plus the refresh interval.  Together they send
    exactly one changes request, the one of the first call; the second
    call sends none, leaves the cached entries and the refresh time as
    the first call set them, and returns changes of the cached list. *)
Theorem ChangesInDir_back_to_back dir w l :
  fst (changesStale E w) = true →
  unixGetChanges E (length (requests w))
    = inr {| StatusCode := 200; Body := DecodedArray l |} →
  now E (clockReads (snd (ChangesInDir E dir w)))
    < changesUpdated (mng (snd (ChangesInDir E dir w)))
      + changesUpdateInterval (mng (snd (ChangesInDir E dir w))) →
  diffCalls (requests (snd (ChangesInDir E dir (snd (ChangesInDir E dir w)))))
    = diffCalls (requests w) ++ [ReqChanges]
  ∧ diffCalls (requests (snd (ChangesInDir E dir (snd (ChangesInDir E dir w)))))
    = diffCalls (requests (snd (ChangesInDir E dir w)))
  ∧ mng (snd (ChangesInDir E dir (snd (ChangesInDir E dir w))))
    = mng (snd (ChangesInDir E dir w))
  ∧ changes (mng (snd (ChangesInDir E dir w))) = Some l
  ∧ ∃ res, fst (ChangesInDir E dir (snd (ChangesInDir E dir w))) = inr res
           ∧ ∀ c, c ∈ res → ∃ c0, c0 ∈ l ∧ Path c = Path c0 ∧ Kind c = Kind c0.
Proof.
  intros Hstale Hresp Hsoon.
  assert (Hok : fetchError (unixGetChanges E (length (requests w))) = None)
    by (by rewrite Hresp).
  destruct (ChangesInDir_refreshed E dir w Hstale Hok) as (R1 & R2 & R3 & R4 & R5 & _).
  rewrite Hresp in R1. simpl in R1.
  set (w1 := snd (ChangesInDir E dir w)) in *.
  assert (Hfresh : fst (changesStale E w1) = false).
  { rewrite changesStale_run, R1. simpl. apply Z.ltb_ge. lia. }
  destruct (ChangesInDir_fresh E dir w1 Hfresh) as (F1 & F2 & F3).
  split; [congruence|]. split; [congruence|]. split; [congruence|]. split; [congruence|].
  eexists. split; [exact F3|].
  intros c Hc. rewrite R1 in Hc. simpl in Hc.
  apply changesLoop_elements in Hc.
  destruct Hc as [Hc|(c0 & Hin & Hp & Hk & _)]; [by apply elem_of_nil in Hc|].
  by exists c0.
Qed.

(** C2, amended.  Every change that [ChangesInDir] returns for [dir]
    is not [Modified], and the cleaned parent directory of its path,
    [Clean (Dir path)] as the code computes it, is the cleaned [dir].
    With a kind of the wire format (0, 1 or 2) it is therefore [Added]
    or [Removed]; and with a cleaned path, as the runtime reports
    them, the parent directory of the cleaned path is the cleaned
    [dir] too. *)
Theorem ChangesInDir_direct_children dir w res c :
  fst (ChangesInDir E dir w) = inr res →
  c ∈ res →
  Kind c ≠ FileModified
  ∧ Filepath.Clean (Filepath.Dir (Path c)) = Filepath.Clean dir
  ∧ (0 ≤ Kind c ≤ 2 → Kind c = FileAdded ∨ Kind c = FileRemoved)
  ∧ (Filepath.Clean (Path c) = Path c →
     Filepath.Dir (Filepath.Clean (Path c)) = Filepath.Clean dir).
Proof.
  intros Hres Hc. rewrite ChangesInDir_run in Hres.
  destruct (changesStale E w) as [stale w1].
  destruct (if stale then fetchFsChanges E w1 else (None, w1)) as [[e|] w2];
    [discriminate|].
  destruct (foldM _ _ _ w2) as [res' w3] eqn:Hloop. simpl in Hres.
  injection Hres as ->.
  assert (Hin : c ∈ fst (foldM (changesInDirStep E (Filepath.Clean dir)) []
                           (default [] (changes (mng w2))) w2))
    by (by rewrite Hloop).
  apply changesLoop_elements in Hin.
  destruct Hin as [Hin|(c0 & _ & Hp & Hk & Hnm & Hd)]; [by apply elem_of_nil in Hin|].
  rewrite Hp, Hk. repeat split; try assumption.
  - unfold FileModified, FileAdded, FileRemoved in *. lia.
  - intros Hclean. rewrite Hclean.
    unfold Filepath.Dir in *. by rewrite <- Hd, PathFacts.Clean_idempotent.
Qed.

End BackToBack.

(** C4, amended, on the scenario: the diff is the empty array. *)
Lemma ChangesInDir_back_to_back_witness :
  fst (changesStale Scenario.env Scenario.w0) = true
  ∧ unixGetChanges Scenario.env (length (requests Scenario.w0))
      = inr {| StatusCode := 200; Body := DecodedArray [] |}
  ∧ now Scenario.env (clockReads (snd (ChangesInDir Scenario.env "/etc" Scenario.w0)))
      < changesUpdated (mng (snd (ChangesInDir Scenario.env "/etc" Scenario.w0)))
        + changesUpdateInterval (mng (snd (ChangesInDir Scenario.env "/etc" Scenario.w0)))
  ∧ diffCalls (requests (snd (ChangesInDir Scenario.env "/etc"
                                (snd (ChangesInDir Scenario.env "/etc" Scenario.w0)))))
      = diffCalls (requests Scenario.w0) ++ [ReqChanges].
Proof.
  assert (H3 : now Scenario.env (clockReads (snd (ChangesInDir Scenario.env "/etc" Scenario.w0)))
      < changesUpdated (mng (snd (ChangesInDir Scenario.env "/etc" Scenario.w0)))
        + changesUpdateInterval (mng (snd (ChangesInDir Scenario.env "/etc" Scenario.w0))))
    by (vm_compute; reflexivity).
  split; [reflexivity|]. split; [reflexivity|]. split; [exact H3|].
  exact (proj1 (ChangesInDir_back_to_back Scenario.env "/etc" Scenario.w0 []
                  eq_refl eq_refl H3)).
Defined.

(** C2 as stated fails.  The diff reports the added directory
    [/etc/new/], written with a trailing slash, and a change of
    [/etc/new/x] with the kind byte 3.  [ChangesInDir] of [/etc/new]
    returns both: the parent directory of [/etc/new/] is [/etc/new]
    when it is taken before cleaning, as the code does, but [/etc]
    when it is taken of the cleaned path; and the filter drops kind 0
    only, so the kind 3 passes, which is neither [Added] nor
    [Removed]. *)
Lemma ChangesInDir_returns_uncleaned_path_and_unknown_kind :
  fst (ChangesInDir Scenario.envOdd "/etc/new" Scenario.w0)
    = inr [ {| Path := "/etc/new/"; Kind := FileAdded; mode := 420 |};
            {| Path := "/etc/new/x"; Kind := 3; mode := 420 |} ]
  ∧ Filepath.Dir (Filepath.Clean "/etc/new/") = "/etc"
  ∧ Filepath.Clean "/etc/new" = "/etc/new"
  ∧ ¬ (∀ res c, fst (ChangesInDir Scenario.envOdd "/etc/new" Scenario.w0) = inr res →
         c ∈ res → Kind c = FileAdded →
         Filepath.Dir (Filepath.Clean (Path c)) = Filepath.Clean "/etc/new")
  ∧ ¬ (∀ res c, fst (ChangesInDir Scenario.envOdd "/etc/new" Scenario.w0) = inr res →
         c ∈ res → Kind c = FileAdded ∨ Kind c = FileRemoved).
Proof.
  assert (H : fst (ChangesInDir Scenario.envOdd "/etc/new" Scenario.w0)
    = inr [ {| Path := "/etc/new/"; Kind := FileAdded; mode := 420 |};
            {| Path := "/etc/new/x"; Kind := 3; mode := 420 |} ])
    by (vm_compute; reflexivity).
  split; [exact H|]. split; [vm_compute; reflexivity|].
  split; [vm_compute; reflexivity|]. split.
  - intros Hall.
    specialize (Hall _ {| Path := "/etc/new/"; Kind := FileAdded; mode := 420 |} H
                  (list_elem_of_here _ _) eq_refl).
    vm_compute in Hall. discriminate.
  - intros Hall.
    specialize (Hall _ {| Path := "/etc/new/x"; Kind := 3; mode := 420 |} H
                  (list_elem_of_further _ _ _ (list_elem_of_here _ _))).
    destruct Hall as [Hk|Hk]; vm_compute in Hk; discriminate.
Qed.

(** C2, on a container whose diff reports the added [/etc/new]. *)
Lemma ChangesInDir_direct_children_witness :
  fst (ChangesInDir Scenario.envAdded "/etc" Scenario.w0)
    = inr [ {| Path := "/etc/new"; Kind := FileAdded; mode := 420 |} ]
  ∧ Kind {| Path := "/etc/new"; Kind := FileAdded; mode := 420 |} ≠ FileModified
  ∧ Filepath.Clean (Filepath.Dir "/etc/new") = Filepath.Clean "/etc".
Proof.
  assert (H1 : fst (ChangesInDir Scenario.envAdded "/etc" Scenario.w0)
                 = inr [ {| Path := "/etc/new"; Kind := FileAdded; mode := 420 |} ])
    by (vm_compute; reflexivity).
  split; [exact H1|].
  pose proof (ChangesInDir_direct_children Scenario.envAdded "/etc" Scenario.w0 _
                {| Path := "/etc/new"; Kind := FileAdded; mode := 420 |} H1
                (list_elem_of_here _ _)) as (Ha & Hb & _).
  split; [exact Ha | exact Hb].
Defined.

(** ** The upload *)

(** Writing one entry into a fresh writer: the header block, then
    the data, and nothing owed but the padding. *)
Lemma Tar_write_one_entry (encodable : Tar.Header → bool) hdr data :
  encodable (Tar.normalize hdr) = true →
  Tar.Size hdr = Z.of_nat (length data) →
  Tar.WriteHeader encodable hdr Tar.NewWriter
    = (None, {| Tar.buffer := [Tar.Block (Tar.normalize hdr)];
                Tar.nb := Tar.Size hdr;
                Tar.pad := Tar.blockPadding (Tar.Size hdr);
                Tar.werr := None |})
  ∧ Tar.Write data {| Tar.buffer := [Tar.Block (Tar.normalize hdr)];
                      Tar.nb := Tar.Size hdr;
                      Tar.pad := Tar.blockPadding (Tar.Size hdr);
                      Tar.werr := None |}
    = (None, {| Tar.buffer := Tar.Block (Tar.normalize hdr) :: map Tar.Octet data;
                Tar.nb := 0;
                Tar.pad := Tar.blockPadding (Tar.Size hdr);
                Tar.werr := None |}).
Proof.
  intros Henc Hsize. split.
  - unfold Tar.WriteHeader, Tar.Flush, Tar.NewWriter. simpl.
    rewrite Henc. reflexivity.
  - unfold Tar.Write. simpl. rewrite Hsize, Z.ltb_irrefl, Z.sub_diag. reflexivity.
Qed.

(** C3.  What [SaveFile] sends when the header can be encoded: one
    upload, directed at the directory part of the path with its
    trailing slash, whose content is empty.  The buffer holds the
    header block and the data, but it is handed over wrapped in a
    [tar.Reader] on which [Next] was never called, and such a reader
    yields no bytes; an empty archive has no entry.  For [/a/b/c]:
    the upload goes to [/a/b/] and carries nothing. *)
Theorem SaveFile_upload_body_is_empty E path data stat w :
  (∀ hdr, tarEncodable E hdr = true) →
  requests (snd (SaveFile E path data stat w))
    = requests w ++ [ReqCopyTo (fst (Filepath.Split path)) []]
  ∧ Tar.Entries [] = Some []
  ∧ Filepath.Split "/a/b/c" = ("/a/b/", "c").
Proof.
  intros Henc. split; [|split; reflexivity].
  unfold SaveFile. destruct (Filepath.Split path) as [dir name]. simpl fst.
  unfold bind, timeNow.
  match goal with
  | |- context [Tar.WriteHeader _ ?h _] =>
      destruct (Tar_write_one_entry (tarEncodable E) h data (Henc _) eq_refl) as [H1 H2];
      rewrite H1, H2
  end.
  reflexivity.
Qed.

(** C3, at the input of the claim: ["hi"] written to [/a/b/c] with
    mode 0644. *)
Lemma SaveFile_upload_body_is_empty_witness :
  (∀ hdr, tarEncodable Scenario.env hdr = true)
  ∧ requests (snd (SaveFile Scenario.env "/a/b/c" Scenario.hi Scenario.stat0644 Scenario.w0))
      = [ReqCopyTo "/a/b/" []].
Proof.
  assert (H : ∀ hdr, tarEncodable Scenario.env hdr = true) by reflexivity.
  split; [exact H|].
  exact (proj1 (SaveFile_upload_body_is_empty Scenario.env "/a/b/c" Scenario.hi
                  Scenario.stat0644 Scenario.w0 H)).
Defined.

(** What the buffer of [SaveFile] holds at the time of the upload, on
    the same input: the header block and the two bytes, without the
    padding and the trailer that the deferred [Close] would add. *)
Example SaveFile_buffer_at_upload :
  let hdr := {| Tar.Typeflag := 0; Tar.Name := "c"; Tar.Linkname := "";
                Tar.Size := 2; Tar.Mode := 420; Tar.ModTime := 1000 * Second |} in
  let written := snd (Tar.Write Scenario.hi
                        (snd (Tar.WriteHeader (λ _, true) hdr Tar.NewWriter))) in
  Tar.buffer written
    = [ Tar.Block (Tar.normalize hdr); Tar.Octet Byte.x68; Tar.Octet Byte.x69 ]
  ∧ Tar.Entries (Tar.buffer written) = None
  ∧ Tar.Entries (Tar.buffer (snd (Tar.Close written)))
    = Some [ (Tar.normalize hdr, Scenario.hi) ].
Proof. vm_compute. repeat split; reflexivity. Qed.

(** ** The end-to-end scenario *)

(** C6 as stated fails: the export parser skips the symlink entry, so
    the snapshot has nothing under [/bin] and [Readdir] of [/bin] is
    empty. *)
Lemma Readdir_bin_does_not_list_sh :
  parseContainterContent (inr Scenario.export) = inr Scenario.files
  ∧ map_to_list Scenario.files = [("/etc/hostname", 420)]
  ∧ fst (Readdir Scenario.env Scenario.bin Scenario.w0) = (Some [], Syscall.OK)
  ∧ map Fuse.Name (default [] (fst (fst (Readdir Scenario.env Scenario.bin Scenario.w0))))
      ≠ ["sh"].
Proof. vm_compute. repeat split; congruence. Qed.

(** C6, amended.  For the mount whose export holds the regular file
    [/etc/hostname] (mode 0644) and the symlink [/bin/sh] to [busybox],
    on a container without changes: the snapshot holds
    [/etc/hostname] only; [Readdir] of [/etc] yields exactly
    [hostname], a regular file; [Readdir] of [/bin] yields no entry;
    [Lookup] of [sh] in [/bin] returns a symlink node of type [S_IFLNK]
    whose [Readlink] is [busybox]. *)
Theorem scenario_mount_listing :
  parseContainterContent (inr Scenario.export)
    = inr {[ "/etc/hostname" := 6 * 64 + 4 * 8 + 4 ]}
  ∧ (∃ ino, fst (Readdir Scenario.env Scenario.etc Scenario.w0)
            = (Some [ {| Fuse.Mode := Fuse.S_IFREG; Fuse.Name := "hostname";
                         Fuse.Ino := ino |} ], Syscall.OK))
  ∧ fst (Readdir Scenario.env Scenario.bin Scenario.w0) = (Some [], Syscall.OK)
  ∧ (∃ node, fst (fst (Lookup Scenario.env Scenario.bin "sh" emptyAttr Scenario.w0))
             = (Some node, Syscall.OK)
             ∧ Fs.Mode (Fs.stableAttr node) = Fuse.S_IFLNK
             ∧ Fs.Readlink node = Some "busybox").
Proof.
  split; [reflexivity|].
  split; [eexists; vm_compute; reflexivity|].
  split; [vm_compute; reflexivity|].
  eexists. vm_compute. repeat split; reflexivity.
Qed.

(** ** The inode allocator *)

Module InodeFacts.
Import Inodes.

Lemma Inode_stored p t :
  table (snd (Inode p t)) !! p = Some (fst (Inode p t)).
Proof.
  unfold Inode. destruct (table t !! p) eqn:H; simpl; [done|].
  apply lookup_insert_eq.
Qed.

Lemma Inode_extends p t : extends t (snd (Inode p t)).
Proof.
  unfold extends, Inode. intros q i Hq.
  destruct (table t !! p) eqn:H; simpl; [done|].
  rewrite lookup_insert_ne; [done|]. intros ->. congruence.
Qed.

Lemma extends_refl t : extends t t.
Proof. by intros p i. Qed.

Lemma extends_trans t1 t2 t3 : extends t1 t2 → extends t2 t3 → extends t1 t3.
Proof. intros H1 H2 p i Hp. by apply H2, H1. Qed.

Lemma initial_allocated : allocated 0 initial.
Proof.
  unfold allocated, initial; simpl. split; [reflexivity|]. split; [lia|]. split.
  - intros p i H. apply lookup_singleton_Some in H as [<- <-]. by left.
  - intros p q i Hp Hq.
    apply lookup_singleton_Some in Hp as [<- <-].
    by apply lookup_singleton_Some in Hq as [<- _].
Qed.

Lemma Inode_allocated k p t :
  2 + k < 2 ^ 64 - 1 → allocated k t → allocated (k + 1) (snd (Inode p t)).
Proof.
  intros Hk (Hroot & Hnext & Hrange & Hinj). unfold Inode.
  destruct (table t !! p) as [i|] eqn:Hp; simpl.
  - repeat split; try done; lia.
  - assert (Hw : uint64 (next t + 1) = next t + 1).
    { unfold uint64. apply Z.mod_small. lia. }
    assert (Hpr : p ≠ "/") by (intros ->; congruence).
    unfold allocated; simpl. rewrite Hw. split; [|split; [|split]].
    + by rewrite lookup_insert_ne.
    + lia.
    + intros q i Hq. destruct (decide (p = q)) as [<-|Hne].
      * rewrite lookup_insert_eq in Hq. injection Hq as <-. right. lia.
      * rewrite lookup_insert_ne in Hq by done.
        destruct (Hrange q i Hq) as [?|?]; [by left | right; lia].
    + intros q1 q2 i H1 H2.
      destruct (decide (p = q1)) as [<-|Hn1], (decide (p = q2)) as [<-|Hn2]; [done| | |].
      * rewrite lookup_insert_eq in H1. injection H1 as <-.
        rewrite lookup_insert_ne in H2 by done.
        destruct (Hrange q2 _ H2) as [[? ?]|?]; lia.
      * rewrite lookup_insert_eq in H2. injection H2 as <-.
        rewrite lookup_insert_ne in H1 by done.
        destruct (Hrange q1 _ H1) as [[? ?]|?]; lia.
      * rewrite lookup_insert_ne in H1, H2 by done. by eapply Hinj.
Qed.

(** A run keeps the invariant, extends the table, and every number it
    returns is the one the final table holds for its path. *)
Lemma run_allocated paths : ∀ k t,
  2 + k + Z.of_nat (length paths) < 2 ^ 64 →
  allocated k t →
  allocated (k + Z.of_nat (length paths)) (snd (run paths t))
  ∧ extends t (snd (run paths t))
  ∧ ∀ i p a, paths !! i = Some p → fst (run paths t) !! i = Some a →
             table (snd (run paths t)) !! p = Some a.
Proof.
  induction paths as [|p rest IH]; intros k t Hk Hall; simpl.
  - rewrite Z.add_0_r. split; [done|]. split; [apply extends_refl|].
    intros i q a Hq. by rewrite lookup_nil in Hq.
  - simpl length in Hk. rewrite Nat2Z.inj_succ in Hk.
    pose proof (Inode_allocated k p t ltac:(lia) Hall) as H1.
    pose proof (Inode_extends p t) as E1.
    pose proof (Inode_stored p t) as S1.
    destruct (Inode p t) as [ino t1]; simpl in *.
    destruct (IH (k + 1) t1 ltac:(lia) H1) as (H2 & E2 & R2).
    destruct (run rest t1) as [inos t2]; simpl in *.
    split; [|split].
    + replace (k + Z.of_nat (S (length rest))) with (k + 1 + Z.of_nat (length rest)) by lia.
      exact H2.
    + by eapply extends_trans.
    + intros [|i] q a Hq Ha; simpl in *.
      * injection Hq as <-. injection Ha as <-. by apply E2.
      * by eapply R2.
Qed.

End InodeFacts.

(** ** Readdir *)

Section ReaddirFacts.

Context (E : Env).

Lemma ChangesInDir_keeps_files_and_inodes dir w :
  staticFiles (mng (snd (ChangesInDir E dir w))) = staticFiles (mng w)
  ∧ inodes (mng (snd (ChangesInDir E dir w))) = inodes (mng w).
Proof.
  rewrite ChangesInDir_run.
  destruct (changesStale_world E w) as [Hm _].
  destruct (changesStale E w) as [stale w1]; simpl in Hm.
  assert (Hf : ∀ w2 err, (if stale then fetchFsChanges E w1 else (None, w1)) = (err, w2) →
                staticFiles (mng w2) = staticFiles (mng w)
                ∧ inodes (mng w2) = inodes (mng w)).
  { intros w2 err. destruct stale.
    - unfold fetchFsChanges, bind, send, ret, timeNow, setChanges; simpl.
      destruct (unixGetChanges E _) as [e|resp]; [intros [= <- <-]; by rewrite <- Hm|].
      destruct (negb _); [intros [= <- <-]; by rewrite <- Hm|].
      destruct (Body resp); intros [= <- <-]; simpl; by rewrite <- Hm.
    - intros [= <- <-]. by rewrite Hm. }
  destruct (if stale then fetchFsChanges E w1 else (None, w1)) as [err w2] eqn:Hfetch.
  destruct (Hf w2 err eq_refl) as [Hs Hi].
  destruct err as [e|]; [done|].
  pose proof (changesLoop_quiet E (Filepath.Clean dir)
                (default [] (changes (mng w2))) [] w2) as (Q1 & _).
  destruct (foldM _ _ _ w2) as [res w3]; simpl in *. by rewrite Q1.
Qed.

Lemma addedStep_run children ch w :
  addedStep E children ch w =
    if negb (Kind ch =? FileAdded) then (children, w)
    else
      (match ContainerStatPath E (length (requests w)) (Path ch) with
       | inl _ => children
       | inr st => <[ Filepath.Base (Path ch) := fuseModeOf st ]> children
       end,
       {| mng := mng w; requests := requests w ++ [ReqStatPath (Path ch)];
          clockReads := clockReads w |}).
Proof.
  unfold addedStep, bind, GetPathAttrs, send, ret; simpl.
  destruct (negb _); [reflexivity|].
  destruct (ContainerStatPath E _ _); reflexivity.
Qed.

Lemma addedLoop_mng chs children w :
  mng (snd (foldM (addedStep E) children chs w)) = mng w.
Proof.
  apply (foldM_preorder (λ w w', mng w' = mng w)); [done|congruence|].
  intros acc ch w0. rewrite addedStep_run. by destruct (negb _).
Qed.

(** Where the entries of the map come from after the second loop. *)
Lemma addedLoop_sources all chs : ∀ children w k v,
  (∀ ch, ch ∈ chs → ch ∈ all) →
  fst (foldM (addedStep E) children chs w) !! k = Some v →
  children !! k = Some v ∨ fromAdded E all k v.
Proof.
  induction chs as [|ch chs IH]; intros children w k v Hsub; simpl; [auto|].
  unfold bind. rewrite addedStep_run.
  assert (Hsub' : ∀ c, c ∈ chs → c ∈ all) by (intros c Hc; apply Hsub; by right).
  destruct (Z.eqb_spec (Kind ch) FileAdded) as [Hk|Hk]; simpl.
  2:{ intros H. by apply IH in H. }
  destruct (ContainerStatPath E (length (requests w)) (Path ch)) as [err|st] eqn:Hst.
  { intros H. by apply IH in H. }
  intros H. apply IH in H; [|done]. destruct H as [H|H]; [|by right].
  destruct (decide (Filepath.Base (Path ch) = k)) as [Hb|Hb].
  - rewrite <- Hb, lookup_insert_eq in H. injection H as <-.
    right. exists ch, (length (requests w)), st.
    repeat split; try done. apply Hsub. left.
  - rewrite lookup_insert_ne in H by done. by left.
Qed.

(** An entry that comes from an added change stays one. *)
Lemma addedLoop_keeps all chs : ∀ children w k,
  (∀ ch, ch ∈ chs → ch ∈ all) →
  (∃ v, children !! k = Some v ∧ fromAdded E all k v) →
  ∃ v, fst (foldM (addedStep E) children chs w) !! k = Some v ∧ fromAdded E all k v.
Proof.
  induction chs as [|ch chs IH]; intros children w k Hsub Hk; simpl; [done|].
  unfold bind. rewrite addedStep_run.
  assert (Hsub' : ∀ c, c ∈ chs → c ∈ all) by (intros c Hc; apply Hsub; by right).
  destruct (Z.eqb_spec (Kind ch) FileAdded) as [Hadd|Hadd]; simpl; [|by apply IH].
  destruct (ContainerStatPath E (length (requests w)) (Path ch)) as [err|st] eqn:Hst;
    [by apply IH|].
  apply IH; [done|].
  destruct (decide (Filepath.Base (Path ch) = k)) as [Hb|Hb].
  - subst k. exists (fuseModeOf st). rewrite lookup_insert_eq. split; [done|].
    exists ch, (length (requests w)), st. repeat split; try done. apply Hsub. left.
  - destruct Hk as (v & Hv & Hfa). exists v. by rewrite lookup_insert_ne.
Qed.

(** An added change whose stat is answered leaves its entry. *)
Lemma addedLoop_present all chs : ∀ children w ch,
  (∀ c, c ∈ chs → c ∈ all) →
  ch ∈ chs → Kind ch = FileAdded → statAnswers E (Path ch) →
  ∃ v, fst (foldM (addedStep E) children chs w) !! Filepath.Base (Path ch) = Some v
       ∧ fromAdded E all (Filepath.Base (Path ch)) v.
Proof.
  induction chs as [|c chs IH]; intros children w ch Hsub Hin Hadd Hstat.
  { by apply elem_of_nil in Hin. }
  assert (Hsub' : ∀ c', c' ∈ chs → c' ∈ all) by (intros c' Hc; apply Hsub; by right).
  apply elem_of_cons in Hin. destruct Hin as [<-|Hin].
  - simpl. unfold bind. rewrite addedStep_run.
    rewrite Hadd. simpl.
    destruct (Hstat (length (requests w))) as [st Hst]. rewrite Hst.
    apply addedLoop_keeps; [done|].
    exists (fuseModeOf st). rewrite lookup_insert_eq. split; [done|].
    exists ch, (length (requests w)), st. repeat split; try done. apply Hsub. left.
  - simpl. unfold bind.
    destruct (addedStep E children c w) as [children' w'].
    by apply IH.
Qed.

(** Where the entries of the map come from after the first loop. *)
Lemma staticLoop_sources prefix chs l : ∀ children k v,
  fold_left (staticStep prefix chs) l children !! k = Some v →
  children !! k = Some v
  ∨ ∃ file fmode, (file, fmode) ∈ l
      ∧ Strings.HasPrefix file prefix = true
      ∧ WasRemoved file chs = false
      ∧ let sub := Strings.from (String.length prefix) file in
        let pos := Strings.IndexSlash sub in
        (0 < pos ∧ k = Strings.upto (Z.to_nat pos) sub ∧ v = Fuse.S_IFDIR)
        ∨ (pos < 0 ∧ k = sub
           ∧ v = if Z.land fmode Fuse.S_IFLNK =? Fuse.S_IFLNK
                 then Fuse.S_IFLNK else Fuse.S_IFREG).
Proof.
  induction l as [|[file fmode] l IH]; intros children k v; simpl; [auto|].
  intros H. apply IH in H. destruct H as [H|(f & m & Hin & Hrest)].
  2:{ right. exists f, m. split; [by right | exact Hrest]. }
  unfold staticStep in H.
  destruct (Strings.HasPrefix file prefix) eqn:Hp; simpl in H; [|by left].
  destruct (WasRemoved file chs) eqn:Hr; [by left|].
  set (sub := Strings.from (String.length prefix) file) in *.
  destruct (Z.ltb_spec 0 (Strings.IndexSlash sub)) as [Hpos|Hpos].
  - destruct (decide (Strings.upto (Z.to_nat (Strings.IndexSlash sub)) sub = k)) as [Hk|Hk].
    + rewrite <- Hk, lookup_insert_eq in H. injection H as <-.
      right. exists file, fmode. split; [left|]. repeat split; try done.
      left. by repeat split.
    + rewrite lookup_insert_ne in H by done. by left.
  - destruct (Z.ltb_spec (Strings.IndexSlash sub) 0) as [Hneg|Hneg]; [|by left].
    assert (Hv : <[ sub := if Z.land fmode Fuse.S_IFLNK =? Fuse.S_IFLNK
                            then Fuse.S_IFLNK else Fuse.S_IFREG ]> children !! k = Some v).
    { destruct (Z.land fmode Fuse.S_IFLNK =? Fuse.S_IFLNK); exact H. }
    destruct (decide (sub = k)) as [Hk|Hk].
    + rewrite <- Hk, lookup_insert_eq in Hv. injection Hv as <-.
      right. exists file, fmode. split; [left|]. repeat split; try done.
      right. by repeat split.
    + rewrite lookup_insert_ne in Hv by done. by left.
Qed.

Lemma listStep_run dirpath acc child md w :
  listStep dirpath acc (child, md) w =
    let key := Filepath.Clean (Filepath.Join dirpath child) in
    (acc ++ [{| Fuse.Mode := md; Fuse.Name := child;
                Fuse.Ino := fst (Inodes.Inode key (inodes (mng w))) |}],
     setInodes (snd (Inodes.Inode key (inodes (mng w)))) w).
Proof.
  unfold listStep, bind, inodeFor, ret.
  by destruct (Inodes.Inode _ (inodes (mng w))).
Qed.

(** The third loop lists the children in the order of the range, with
    the number the table holds for each. *)
Lemma listLoop_entries dirpath l : ∀ acc w,
  map (λ e, (Fuse.Name e, Fuse.Mode e)) (fst (foldM (listStep dirpath) acc l w))
    = map (λ e, (Fuse.Name e, Fuse.Mode e)) acc ++ l
  ∧ Inodes.extends (inodes (mng w)) (inodes (mng (snd (foldM (listStep dirpath) acc l w))))
  ∧ ∀ e, e ∈ fst (foldM (listStep dirpath) acc l w) →
         e ∈ acc
         ∨ Inodes.table (inodes (mng (snd (foldM (listStep dirpath) acc l w))))
             !! Filepath.Clean (Filepath.Join dirpath (Fuse.Name e)) = Some (Fuse.Ino e).
Proof.
  induction l as [|[child md] l IH]; intros acc w; cbn [foldM].
  - simpl. rewrite app_nil_r. split; [done|]. split; [apply InodeFacts.extends_refl | auto].
  - unfold bind. rewrite listStep_run. cbv zeta.
    set (key := Filepath.Clean (Filepath.Join dirpath child)).
    pose proof (InodeFacts.Inode_stored key (inodes (mng w))) as Hst.
    pose proof (InodeFacts.Inode_extends key (inodes (mng w))) as Hex.
    set (acc' := acc ++ [_]).
    set (w' := setInodes _ w).
    destruct (IH acc' w') as (I1 & I2 & I3).
    split; [|split].
    + rewrite I1. unfold acc'. rewrite map_app. simpl. by rewrite <- app_assoc.
    + eapply InodeFacts.extends_trans; [exact Hex | exact I2].
    + intros e He. apply I3 in He. destruct He as [He|He]; [|by right].
      apply elem_of_app in He. destruct He as [He|He]; [by left|].
      apply list_elem_of_singleton in He. subst e. simpl.
      right. by apply I2.
Qed.

Lemma Readdir_run d w :
  Readdir E d w =
    let (changes, w1) := ChangesInDir E (fullpath d) w in
    match changes with
    | inl _ => ((None, Syscall.EIO), w1)
    | inr changes =>
        let children :=
          fold_left (staticStep (childPrefix d) changes)
                    (rangeOrder E (map_to_list (staticFiles (mng w1)))) ∅ in
        let (children, w2) := foldM (addedStep E) children changes w1 in
        let (entries, w3) :=
          foldM (listStep (fullpath d)) [] (rangeOrder E (map_to_list children)) w2 in
        ((Some entries, Syscall.OK), w3)
    end.
Proof.
  unfold Readdir, bind, childPrefix.
  destruct (ChangesInDir E (fullpath d) w) as [[err|changes] w1]; [reflexivity|].
  unfold getMng.
  destruct (foldM (addedStep E) _ changes w1) as [children w2].
  destruct (foldM (listStep (fullpath d)) _ _ w2); reflexivity.
Qed.

End ReaddirFacts.

(** C1 as stated fails.  The diff reports the added file [/etc/new]
    and [ChangesInDir] returns it, but the stat that [Readdir] makes
    for it fails, and [Readdir] drops the entry: the added name does
    not appear. *)
Lemma Readdir_drops_added_when_stat_fails :
  fst (ChangesInDir Scenario.envAdded "/etc" Scenario.w0)
    = inr [ {| Path := "/etc/new"; Kind := FileAdded; mode := 420 |} ]
  ∧ fst (Readdir Scenario.envAdded Scenario.etc Scenario.w0)
    = (Some [ {| Fuse.Mode := Fuse.S_IFREG; Fuse.Name := "hostname"; Fuse.Ino := 2 |} ],
       Syscall.OK)
  ∧ Filepath.Base "/etc/new"
      ∉ map Fuse.Name
          (default [] (fst (fst (Readdir Scenario.envAdded Scenario.etc Scenario.w0)))).
Proof.
  split; [vm_compute; reflexivity|].
  split; [vm_compute; reflexivity|].
  vm_compute. intros H. apply list_elem_of_singleton in H. discriminate.
Qed.

Section ReaddirClaims.

Context (E : Env).

(** The entries of [Readdir] and their sources. *)
Lemma Readdir_entries d w chs :
  range_ok E →
  fst (ChangesInDir E (fullpath d) w) = inr chs →
  ∃ l, fst (Readdir E d w) = (Some l, Syscall.OK)
    ∧ NoDup (map Fuse.Name l)
    ∧ (∀ e, e ∈ l →
         fromAdded E chs (Fuse.Name e) (Fuse.Mode e)
         ∨ fromSnapshot (staticFiles (mng w)) (childPrefix d) chs
                        (Fuse.Name e) (Fuse.Mode e))
    ∧ (∀ ch, ch ∈ chs → Kind ch = FileAdded → statAnswers E (Path ch) →
         ∃ e, e ∈ l ∧ Fuse.Name e = Filepath.Base (Path ch)
              ∧ fromAdded E chs (Fuse.Name e) (Fuse.Mode e)).
Proof.
  intros Hrange Hchs. rewrite Readdir_run.
  destruct (ChangesInDir_keeps_files_and_inodes E (fullpath d) w) as [Hfiles _].
  destruct (ChangesInDir E (fullpath d) w) as [r w1]. simpl in Hchs, Hfiles. subst r.
  cbv zeta.
  set (c0 := fold_left (staticStep (childPrefix d) chs)
               (rangeOrder E (map_to_list (staticFiles (mng w1)))) ∅).
  pose proof (addedLoop_sources E chs chs c0 w1) as Hsrc.
  pose proof (addedLoop_present E chs chs c0 w1) as Hpres.
  destruct (foldM (addedStep E) c0 chs w1) as [c1 w2]. simpl in Hsrc, Hpres.
  destruct (listLoop_entries (fullpath d) (rangeOrder E (map_to_list c1)) [] w2)
    as (Hpairs & _ & _).
  destruct (foldM (listStep (fullpath d)) [] _ w2) as [l w3]. simpl in Hpairs |- *.
  assert (Hperm : rangeOrder E (map_to_list c1) ≡ₚ map_to_list c1)
    by apply Hrange, NoDup_map_to_list.
  assert (Hmem : ∀ k v, (k, v) ∈ map (λ e, (Fuse.Name e, Fuse.Mode e)) l ↔ c1 !! k = Some v).
  { intros k v. rewrite Hpairs, Hperm. apply elem_of_map_to_list. }
  exists l. split; [reflexivity|]. split; [|split].
  - assert (Hn : map Fuse.Name l = map fst (map (λ e, (Fuse.Name e, Fuse.Mode e)) l)).
    { rewrite List.map_map. reflexivity. }
    rewrite Hn, Hpairs, Hperm. apply NoDup_fst_map_to_list.
  - intros e He.
    assert (Hc1 : c1 !! Fuse.Name e = Some (Fuse.Mode e)).
    { apply Hmem. apply list_elem_of_fmap. by exists e. }
    apply Hsrc in Hc1; [|done]. destruct Hc1 as [Hc0|Hadd]; [|by left].
    right. unfold c0 in Hc0. apply staticLoop_sources in Hc0.
    destruct Hc0 as [Hc0|(file & fmode & Hin & Hp & Hr & Hshape)]; [by rewrite lookup_empty in Hc0|].
    exists file, fmode. repeat split; try done.
    rewrite <- Hfiles. apply elem_of_map_to_list.
    rewrite <- (Hrange _ (NoDup_map_to_list _)). exact Hin.
  - intros ch Hin Hadd Hstat.
    destruct (Hpres ch ltac:(done) Hin Hadd Hstat) as (v & Hv & Hfa).
    apply Hmem in Hv. apply list_elem_of_fmap in Hv. destruct Hv as (e & Heq & He).
    injection Heq as Hname Hmode. exists e. rewrite <- Hname, <- Hmode. by repeat split.
Qed.

(** C1, amended.  When [ChangesInDir] succeeds with the changes [chs],
    [Readdir] succeeds and returns entries without duplicate names.
    Every entry is derived either from an [Added] change of [chs]
    whose stat succeeded, or from a snapshot path under the directory
    that [chs] does not report as [Removed] (so a snapshot file whose
    own path is reported removed contributes no entry).  Every
    [Added] change of [chs] whose stat the container answers appears
    under the base name of its path, and the entry of that name has
    the type derived from the stat of an [Added] change, also when
    the snapshot yields the same name. *)
Theorem Readdir_children d w chs :
  range_ok E →
  fst (ChangesInDir E (fullpath d) w) = inr chs →
  ∃ l, fst (Readdir E d w) = (Some l, Syscall.OK)
    ∧ NoDup (map Fuse.Name l)
    ∧ (∀ e, e ∈ l →
         fromAdded E chs (Fuse.Name e) (Fuse.Mode e)
         ∨ fromSnapshot (staticFiles (mng w)) (childPrefix d) chs
                        (Fuse.Name e) (Fuse.Mode e))
    ∧ (∀ ch, ch ∈ chs → Kind ch = FileAdded → statAnswers E (Path ch) →
         ∃ e, e ∈ l ∧ Fuse.Name e = Filepath.Base (Path ch)
              ∧ fromAdded E chs (Fuse.Name e) (Fuse.Mode e)).
Proof. apply Readdir_entries. Qed.

End ReaddirClaims.

(** C1, amended, on the container in which [/etc/hostname] became a
    directory: the added entry is listed, with the type of its stat. *)
Lemma Readdir_children_witness :
  range_ok Scenario.envGrown
  ∧ fst (ChangesInDir Scenario.envGrown (fullpath Scenario.etc) Scenario.w0)
    = inr [ {| Path := "/etc/hostname"; Kind := FileAdded; mode := 420 |};
            {| Path := "/etc/new"; Kind := FileAdded; mode := 420 |} ]
  ∧ statAnswers Scenario.envGrown "/etc/hostname"
  ∧ ∃ l, fst (Readdir Scenario.envGrown Scenario.etc Scenario.w0) = (Some l, Syscall.OK)
         ∧ NoDup (map Fuse.Name l)
         ∧ ∃ e, e ∈ l ∧ Fuse.Name e = "hostname".
Proof.
  assert (H1 : range_ok Scenario.envGrown) by (intros l _; reflexivity).
  assert (H2 : fst (ChangesInDir Scenario.envGrown (fullpath Scenario.etc) Scenario.w0)
    = inr [ {| Path := "/etc/hostname"; Kind := FileAdded; mode := 420 |};
            {| Path := "/etc/new"; Kind := FileAdded; mode := 420 |} ])
    by (vm_compute; reflexivity).
  assert (H3 : statAnswers Scenario.envGrown "/etc/hostname")
    by (intros n; eexists; reflexivity).
  split; [exact H1|]. split; [exact H2|]. split; [exact H3|].
  destruct (Readdir_children Scenario.envGrown Scenario.etc Scenario.w0 _ H1 H2)
    as (l & Hl & Hnd & _ & Hadded).
  exists l. split; [exact Hl|]. split; [exact Hnd|].
  destruct (Hadded {| Path := "/etc/hostname"; Kind := FileAdded; mode := 420 |}
              (list_elem_of_here _ _) eq_refl H3) as (e & He & Hname & _).
  exists e. split; [exact He | exact Hname].
Defined.

(** The same container, run: the directory wins over the regular file
    of the snapshot. *)
Example Readdir_added_wins :
  map (λ e, (Fuse.Name e, Fuse.Mode e))
      (default [] (fst (fst (Readdir Scenario.envGrown Scenario.etc Scenario.w0))))
    ≡ₚ [ ("hostname", Fuse.S_IFDIR); ("new", Fuse.S_IFREG) ].
Proof. vm_compute. reflexivity || apply Permutation_swap. Qed.

(** A snapshot file that the returned changes report as removed is not
    listed. *)
Example Readdir_removed_file :
  fst (Readdir Scenario.envRemoved Scenario.etc Scenario.w0) = (Some [], Syscall.OK).
Proof. vm_compute. reflexivity. Qed.

(** A removed directory is still listed while the snapshot holds a
    path below it: the removal filter compares whole snapshot paths. *)
Example Readdir_removed_directory :
  fst (ChangesInDir Scenario.envRemovedDir "/etc" Scenario.wSsl)
    = inr [ {| Path := "/etc/ssl"; Kind := FileRemoved; mode := 420 |} ]
  ∧ fst (Readdir Scenario.envRemovedDir Scenario.etc Scenario.wSsl)
    = (Some [ {| Fuse.Mode := Fuse.S_IFDIR; Fuse.Name := "ssl"; Fuse.Ino := 2 |} ],
       Syscall.OK).
Proof. vm_compute. split; reflexivity. Qed.

(** On the scenario mount no container makes [Readdir] report a
    symlink: added entries are directories or regular files, and the
    snapshot holds no symlink. *)
Lemma scenario_never_lists_symlink E d w l :
  range_ok E →
  staticFiles (mng w) = Scenario.files →
  fst (Readdir E d w) = (Some l, Syscall.OK) →
  ∀ e, e ∈ l → Fuse.Mode e ≠ Fuse.S_IFLNK.
Proof.
  intros Hrange Hfiles Hl e He.
  destruct (fst (ChangesInDir E (fullpath d) w)) as [err|chs] eqn:Hchs.
  { rewrite Readdir_run in Hl.
    destruct (ChangesInDir E (fullpath d) w) as [r w1]. simpl in Hchs. subst r.
    discriminate. }
  destruct (Readdir_entries E d w chs Hrange Hchs) as (l' & Hl' & _ & Hsrc & _).
  rewrite Hl' in Hl. injection Hl as ->.
  destruct (Hsrc e He) as [(ch & n & st & _ & _ & _ & _ & Hm)
                          |(file & fmode & Hfile & _ & _ & Hshape)].
  - rewrite Hm. unfold fuseModeOf. by destruct (Os.IsDir _).
  - rewrite Hfiles in Hfile.
    assert (Hf : Scenario.files = {[ "/etc/hostname" := 420 ]}) by reflexivity.
    rewrite Hf in Hfile. apply lookup_singleton_Some in Hfile as [_ <-].
    cbv zeta in Hshape. destruct Hshape as [(_ & _ & ->)|(_ & _ & ->)]; by vm_compute.
Qed.

(** The three outcomes of [Create] on the scenario mount: the file
    exists; it does not; the stat fails otherwise. *)
Example Create_existing :
  fst (Create Scenario.env Scenario.etc "hostname" 0 420 Scenario.w0)
    = (None, Syscall.EEXIST).
Proof. vm_compute. reflexivity. Qed.

Example Create_missing :
  fst (Create Scenario.env Scenario.tmp "x" 0 420 Scenario.w0)
    = (Some (createdFile "/tmp/x" 420 2), Syscall.OK).
Proof. vm_compute. reflexivity. Qed.

Example Create_stat_error :
  fst (Create Scenario.envAdded Scenario.tmp "x" 0 420 Scenario.w0)
    = (None, Syscall.EIO).
Proof. vm_compute. reflexivity. Qed.

(** ** Inode numbers across operations *)

Section InodeNumbers.

Context (E : Env).

(** A successful [Lookup] leaves the number of its node in the table,
    under the cleaned path. *)
Lemma Lookup_inode_stored d name out w node :
  fst (fst (fst (Lookup E d name out w))) = Some node →
  Inodes.table (inodes (mng (snd (Lookup E d name out w))))
    !! Filepath.Clean (Filepath.Join (fullpath d) name)
  = Some (Fs.Ino (Fs.stableAttr node)).
Proof.
  unfold Lookup, bind, GetPathAttrs, send, ret; simpl.
  destruct (ContainerStatPath E _ _) as [err|attrs]; simpl.
  { destruct (Strings.HasSuffix err "404"); discriminate. }
  unfold getMng, inodeFor; simpl.
  match goal with
  | |- context [Inodes.Inode ?k ?t] =>
      pose proof (InodeFacts.Inode_stored k t) as Hst;
      destruct (Inodes.Inode k t) as [ino t']
  end.
  simpl in Hst.
  destruct (negb _); [|destruct (Os.IsDir _)];
    simpl; intros [= <-]; simpl; exact Hst.
Qed.

(** [Readdir] reports for each child the number the table already
    holds for it. *)
Lemma Readdir_reports_known_inodes d w l errno e i :
  fst (Readdir E d w) = (Some l, errno) →
  e ∈ l →
  Inodes.table (inodes (mng w))
    !! Filepath.Clean (Filepath.Join (fullpath d) (Fuse.Name e)) = Some i →
  Fuse.Ino e = i.
Proof.
  rewrite Readdir_run.
  destruct (ChangesInDir_keeps_files_and_inodes E (fullpath d) w) as [_ Hino].
  destruct (ChangesInDir E (fullpath d) w) as [[err|chs] w1]; [discriminate|].
  simpl in Hino. cbv zeta.
  set (c0 := fold_left _ _ ∅).
  pose proof (addedLoop_mng E chs c0 w1) as Hm.
  destruct (foldM (addedStep E) c0 chs w1) as [c1 w2]. simpl in Hm.
  destruct (listLoop_entries (fullpath d) (rangeOrder E (map_to_list c1)) [] w2)
    as (_ & Hext & Hent).
  destruct (foldM (listStep (fullpath d)) [] _ w2) as [l' w3]. simpl in *.
  intros [= <- <-] He Hi.
  destruct (Hent e He) as [Hnil|Hstored]; [by apply elem_of_nil in Hnil|].
  rewrite Hm, Hino in Hext. apply Hext in Hi. congruence.
Qed.

End InodeNumbers.

(** From the mount on, the allocator is a function of the path it is
    given: in a sequence of requests that does not exhaust the 64-bit
    numbers, two requests return the same number exactly when they
    are for the same path, and the root gets 1. *)
Lemma run_numbers_function (paths : list string) :
  2 + Z.of_nat (length paths) < 2 ^ 64 →
  ∀ i j p q a b,
    paths !! i = Some p → paths !! j = Some q →
    fst (Inodes.run paths Inodes.initial) !! i = Some a →
    fst (Inodes.run paths Inodes.initial) !! j = Some b →
    (p = q ↔ a = b) ∧ (p = "/" → a = 1) ∧ 0 ≤ a < 2 ^ 64.
Proof.
  intros Hbound.
  destruct (InodeFacts.run_allocated paths 0 Inodes.initial ltac:(lia)
              InodeFacts.initial_allocated) as ((Hroot & Hnext & Hrange & Hinj) & _ & Hres).
  intros i j p q a b Hp Hq Ha Hb.
  pose proof (Hres i p a Hp Ha) as Ta.
  pose proof (Hres j q b Hq Hb) as Tb.
  split; [split|split].
  - intros ->. congruence.
  - intros ->. by eapply Hinj.
  - intros ->. congruence.
  - destruct (Hrange p a Ta) as [[-> _]|?]; lia.
Qed.

(** * Further properties *)

(** ** changes.go *)

(** X1.  [WasRemoved path c] holds exactly when [c] has a change for
    that very path whose kind is [Removed]; changes of another kind,
    or for another path, never count. *)
Theorem WasRemoved_iff (path : string) (c : fsChanges) :
  WasRemoved path c = true
  ↔ ∃ ch, ch ∈ c ∧ Path ch = path ∧ Kind ch = FileRemoved.
Proof.
  induction c as [|ch c IH]; simpl.
  - split; [discriminate|]. intros (ch & H & _). by apply elem_of_nil in H.
  - destruct (String.eqb_spec (Path ch) path) as [Hp|Hp];
      destruct (Z.eqb_spec (Kind ch) FileRemoved) as [Hk|Hk]; simpl.
    + split; [|done]. intros _. exists ch. split; [left|done].
    + rewrite IH. split.
      * intros (c0 & Hin & H1 & H2). exists c0. split; [by right|done].
      * intros (c0 & Hin & H1 & H2). apply elem_of_cons in Hin as [->|Hin]; [done|].
        by exists c0.
    + rewrite IH. split.
      * intros (c0 & Hin & H1 & H2). exists c0. split; [by right|done].
      * intros (c0 & Hin & H1 & H2). apply elem_of_cons in Hin as [->|Hin]; [done|].
        by exists c0.
    + rewrite IH. split.
      * intros (c0 & Hin & H1 & H2). exists c0. split; [by right|done].
      * intros (c0 & Hin & H1 & H2). apply elem_of_cons in Hin as [->|Hin]; [done|].
        by exists c0.
Qed.

(** ** The export parser *)

Section ExportParser.

Lemma parseEntries_stops_at_error tr err rest : ∀ acc,
  parseEntries (tr ++ Tar.NextError err :: rest) acc = parseEntries tr acc.
Proof.
  induction tr as [|[hdr|e] tr IH]; intros acc; simpl; [reflexivity| |reflexivity].
  destruct (_ || _); apply IH.
Qed.

(** X2.  A read error in the export ends the parsing silently: the
    snapshot is the one of the entries before the error, whatever
    follows it, and no error is returned. *)
Theorem parseContainterContent_error_truncates tr err rest :
  parseContainterContent (inr (tr ++ Tar.NextError err :: rest))
    = parseContainterContent (inr tr)
  ∧ ∃ files, parseContainterContent (inr (tr ++ Tar.NextError err :: rest)) = inr files.
Proof.
  unfold parseContainterContent. rewrite parseEntries_stops_at_error.
  split; [reflexivity | by eexists].
Qed.

Lemma parseEntries_sources tr : ∀ acc k v,
  parseEntries tr acc !! k = Some v →
  acc !! k = Some v
  ∨ ∃ hdr, Tar.NextHeader hdr ∈ tr ∧ regularEntry hdr = true
           ∧ k = snapshotKey hdr ∧ v = uint32 (Tar.Mode hdr).
Proof.
  induction tr as [|[hdr|e] tr IH]; intros acc k v; simpl; [auto| |auto].
  fold (regularEntry hdr). destruct (regularEntry hdr) eqn:Hreg.
  - intros H. apply IH in H. destruct H as [H|(h & Hin & Hrest)].
    + fold (snapshotKey hdr) in H.
      destruct (decide (snapshotKey hdr = k)) as [<-|Hne].
      * rewrite lookup_insert_eq in H. injection H as <-.
        right. exists hdr. repeat split; [left|done].
      * rewrite lookup_insert_ne in H by done. by left.
    + right. exists h. split; [by right|done].
  - intros H. apply IH in H. destruct H as [H|(h & Hin & Hrest)]; [by left|].
    right. exists h. split; [by right|done].
Qed.

Lemma parseEntries_keeps_keys tr : ∀ acc k,
  is_Some (acc !! k) → is_Some (parseEntries tr acc !! k).
Proof.
  induction tr as [|[hdr|e] tr IH]; intros acc k Hk; simpl; [done| |done].
  destruct (_ || _); [|by apply IH].
  apply IH. destruct (decide ("/" +:+ Filepath.Clean (Tar.Name hdr) = k)) as [<-|Hne].
  - rewrite lookup_insert_eq. by eexists.
  - by rewrite lookup_insert_ne.
Qed.

Lemma parseEntries_records tr : ∀ acc hdr,
  errorFree tr → Tar.NextHeader hdr ∈ tr → regularEntry hdr = true →
  is_Some (parseEntries tr acc !! snapshotKey hdr).
Proof.
  induction tr as [|[h|e] tr IH]; intros acc hdr Hfree Hin Hreg.
  - by apply elem_of_nil in Hin.
  - assert (Hfree' : errorFree tr) by (intros e He; apply (Hfree e); by right).
    apply elem_of_cons in Hin as [Heq|Hin].
    + injection Heq as <-. simpl. fold (regularEntry hdr). rewrite Hreg.
      apply parseEntries_keeps_keys. fold (snapshotKey hdr).
      rewrite lookup_insert_eq. by eexists.
    + simpl. destruct (_ || _); by apply IH.
  - exfalso. apply (Hfree e). left.
Qed.

(** X3.  The snapshot holds regular files only: every key is the
    cleaned name of a regular entry of the export behind one slash,
    and its value is the mode of that entry cut to 32 bits;
    directories, symlinks and other entries leave no key.  When no
    read fails, every regular entry of the export has its key in the
    snapshot. *)
Theorem parseContainterContent_regular_files tr files :
  parseContainterContent (inr tr) = inr files →
  (∀ k v, files !! k = Some v →
     ∃ hdr, Tar.NextHeader hdr ∈ tr ∧ regularEntry hdr = true
            ∧ k = "/" +:+ Filepath.Clean (Tar.Name hdr)
            ∧ v = uint32 (Tar.Mode hdr) ∧ 0 ≤ v < 2 ^ 32)
  ∧ (errorFree tr →
     ∀ hdr, Tar.NextHeader hdr ∈ tr → regularEntry hdr = true →
            is_Some (files !! ("/" +:+ Filepath.Clean (Tar.Name hdr)))).
Proof.
  unfold parseContainterContent. intros [= <-]. split.
  - intros k v H. apply parseEntries_sources in H.
    destruct H as [H|(hdr & Hin & Hreg & Hk & Hv)]; [by rewrite lookup_empty in H|].
    exists hdr. repeat split; try done; subst v; unfold uint32.
    + apply Z.mod_pos_bound. lia.
    + apply Z.mod_pos_bound. lia.
  - intros Hfree hdr Hin Hreg. by apply parseEntries_records.
Qed.

End ExportParser.

(** X3, on the export of the scenario. *)
Lemma parseContainterContent_regular_files_witness :
  parseContainterContent (inr Scenario.export) = inr Scenario.files
  ∧ ∀ k v, Scenario.files !! k = Some v →
      ∃ hdr, Tar.NextHeader hdr ∈ Scenario.export ∧ regularEntry hdr = true
             ∧ k = "/" +:+ Filepath.Clean (Tar.Name hdr)
             ∧ v = uint32 (Tar.Mode hdr) ∧ 0 ≤ v < 2 ^ 32.
Proof.
  assert (H : parseContainterContent (inr Scenario.export) = inr Scenario.files)
    by reflexivity.
  split; [exact H|].
  exact (proj1 (parseContainterContent_regular_files Scenario.export Scenario.files H)).
Defined.

(** ** The changes cache, further *)

Section ChangesInDirMore.

Context (E : Env).

Lemma getRawAttrs_run path w :
  snd (getRawAttrs E path w)
    = {| mng := mng w; requests := requests w ++ [ReqHeadArchive path];
         clockReads := clockReads w |}
  ∧ match headMode E (length (requests w)) path with
    | Some md => fst (getRawAttrs E path w) = inr md
    | None => ∃ err, fst (getRawAttrs E path w) = inl err
    end.
Proof.
  unfold getRawAttrs, headMode, bind, send, ret; simpl. split; [reflexivity|].
  destruct (unixHead E (length (requests w)) path) as [err|resp]; [by eexists|].
  destruct (Z.eqb_spec (HeadStatus resp) 404) as [H404|H404].
  { rewrite H404. simpl. by eexists. }
  destruct (Z.eqb_spec (HeadStatus resp) 200) as [H200|H200]; simpl; [|by eexists].
  destruct (String.eqb (PathStatHeader resp) ""); [by eexists|].
  destruct (decodePathStat E (PathStatHeader resp)); [by eexists | reflexivity].
Qed.

Lemma changesInDirStep_run dir acc c w :
  changesInDirStep E dir acc c w =
    if directChild dir c then
      (match headMode E (length (requests w)) (Path c) with
       | Some md => acc ++ [{| Path := Path c; Kind := Kind c; mode := uint32 md |}]
       | None => acc
       end,
       {| mng := mng w; requests := requests w ++ [ReqHeadArchive (Path c)];
          clockReads := clockReads w |})
    else (acc, w).
Proof.
  unfold changesInDirStep, directChild.
  destruct (Kind c =? FileModified); [reflexivity|].
  destruct (String.eqb _ dir); simpl; [|reflexivity].
  unfold bind. destruct (getRawAttrs_run (Path c) w) as [Hw Hr].
  destruct (getRawAttrs E (Path c) w) as [r w1]. simpl in Hw, Hr. subst w1.
  destruct (headMode E (length (requests w)) (Path c)) as [md|].
  - by rewrite Hr.
  - destruct Hr as [err ->]. reflexivity.
Qed.

(** The requests of the loop: one HEAD for each change it looks at,
    in the order of the list. *)
Lemma changesLoop_requests dir l : ∀ acc w,
  requests (snd (foldM (changesInDirStep E dir) acc l w))
    = requests w ++ map (λ c, ReqHeadArchive (Path c)) (List.filter (directChild dir) l).
Proof.
  induction l as [|c l IH]; intros acc w; cbn [foldM List.filter].
  - simpl. by rewrite app_nil_r.
  - unfold bind. rewrite changesInDirStep_run.
    destruct (directChild dir c).
    + rewrite IH. simpl. by rewrite <- app_assoc.
    + by rewrite IH.
Qed.

(** Every change the loop adds was answered by the runtime. *)
Lemma changesLoop_answered dir l : ∀ acc w c,
  c ∈ fst (foldM (changesInDirStep E dir) acc l w) →
  c ∈ acc
  ∨ ∃ n md, headMode E n (Path c) = Some md ∧ mode c = uint32 md.
Proof.
  induction l as [|x l IH]; intros acc w c; cbn [foldM]; [auto|].
  unfold bind. rewrite changesInDirStep_run.
  destruct (directChild dir x); [|apply IH].
  destruct (headMode E (length (requests w)) (Path x)) as [md|] eqn:Hmd; [|apply IH].
  intros H. apply IH in H. destruct H as [H|H]; [|by right].
  apply elem_of_app in H as [H|H]; [by left|].
  apply list_elem_of_singleton in H. subst c. right. by exists (length (requests w)), md.
Qed.

(** With a runtime that answers alike every time, the loop is a map
    with omissions. *)
Lemma changesLoop_stable dir l : ∀ acc w,
  headStable E →
  fst (foldM (changesInDirStep E dir) acc l w) = acc ++ omap (surfaced E dir) l.
Proof.
  induction l as [|c l IH]; intros acc w Hst; cbn [foldM].
  - simpl. by rewrite app_nil_r.
  - unfold bind. rewrite changesInDirStep_run. simpl omap. unfold surfaced at 1.
    destruct (directChild dir c); [|by apply IH].
    rewrite (Hst (length (requests w))).
    destruct (headMode E 0 (Path c)) as [md|]; [|by apply IH].
    rewrite IH by done. by rewrite <- app_assoc.
Qed.

Lemma changesStale_staleAt w : fst (changesStale E w) = staleAt E w.
Proof. rewrite changesStale_run. unfold staleAt. by destruct (changes (mng w)). Qed.

(** X4.  [ChangesInDir] returns a change only when the runtime
    answered the HEAD request for its path with status 200 and a
    header that decodes, and the mode of the returned change is the
    decoded mode cut to 32 bits.  So a path for which the HEAD request
    never succeeds (a path that is gone from the container) is never
    among the returned changes, whatever the diff reports for it. *)
Theorem ChangesInDir_returns_answered_paths dir w res :
  fst (ChangesInDir E dir w) = inr res →
  (∀ c, c ∈ res →
     ∃ n md, headMode E n (Path c) = Some md ∧ mode c = uint32 md
             ∧ 0 ≤ mode c < 2 ^ 32)
  ∧ (∀ path, (∀ n, headMode E n path = None) → ∀ c, c ∈ res → Path c ≠ path).
Proof.
  intros Hres.
  assert (Hall : ∀ c, c ∈ res →
            ∃ n md, headMode E n (Path c) = Some md ∧ mode c = uint32 md).
  { rewrite ChangesInDir_run in Hres.
    destruct (changesStale E w) as [stale w1].
    destruct (if stale then fetchFsChanges E w1 else (None, w1)) as [[e|] w2];
      [discriminate|].
    destruct (foldM _ _ _ w2) as [res' w3] eqn:Hloop. simpl in Hres.
    injection Hres as ->. intros c Hc.
    assert (Hin : c ∈ fst (foldM (changesInDirStep E (Filepath.Clean dir)) []
                             (default [] (changes (mng w2))) w2))
      by (by rewrite Hloop).
    apply changesLoop_answered in Hin.
    destruct Hin as [Hin|Hin]; [by apply elem_of_nil in Hin | exact Hin]. }
  split.
  - intros c Hc. destruct (Hall c Hc) as (n & md & H1 & H2).
    exists n, md. repeat split; try done; rewrite H2; unfold uint32;
      apply Z.mod_pos_bound; lia.
  - intros path Hnever c Hc Heq. destruct (Hall c Hc) as (n & md & H1 & _).
    rewrite Heq, Hnever in H1. discriminate.
Qed.

(** X5.  With a runtime that answers the HEAD request for a path the
    same way every time, the result of [ChangesInDir] is the cached
    list, in its order, restricted to the changes that are not
    [Modified], lie directly in the directory and have their HEAD
    request answered, each with its mode filled in. *)
Theorem ChangesInDir_is_filtered_cache dir w res :
  headStable E →
  fst (ChangesInDir E dir w) = inr res →
  res = omap (surfaced E (Filepath.Clean dir))
             (default [] (changes (mng (snd (ChangesInDir E dir w))))).
Proof.
  intros Hst Hres. rewrite ChangesInDir_run in Hres |- *.
  destruct (changesStale E w) as [stale w1].
  destruct (if stale then fetchFsChanges E w1 else (None, w1)) as [[e|] w2];
    [discriminate|].
  pose proof (changesLoop_stable (Filepath.Clean dir)
                (default [] (changes (mng w2))) [] w2 Hst) as Hloop.
  pose proof (changesLoop_quiet E (Filepath.Clean dir)
                (default [] (changes (mng w2))) [] w2) as (Q1 & _).
  destruct (foldM _ _ _ w2) as [res' w3]. simpl in *.
  injection Hres as ->. by rewrite Q1.
Qed.

(** X6.  The requests of one [ChangesInDir]: a changes request exactly
    when the cache was never filled or the clock is strictly past the
    refresh time plus the interval (at that very instant the cache is
    still served); then, unless the refresh failed, one HEAD request
    for each cached change that is not [Modified] and lies directly in
    the directory, in the order of the cache.  Nothing else is sent:
    no stat through the docker client, no upload. *)
Theorem ChangesInDir_requests dir w :
  requests (snd (ChangesInDir E dir w))
    = requests w
      ++ (if staleAt E w then [ReqChanges] else [])
      ++ match fst (ChangesInDir E dir w) with
         | inl _ => []
         | inr _ =>
             map (λ c, ReqHeadArchive (Path c))
                 (List.filter (directChild (Filepath.Clean dir))
                    (default [] (changes (mng (snd (ChangesInDir E dir w))))))
         end.
Proof.
  rewrite <- changesStale_staleAt. rewrite ChangesInDir_run.
  destruct (changesStale_world E w) as [_ Hr].
  destruct (changesStale E w) as [stale w1]. simpl in Hr |- *.
  assert (Hfetch : ∀ err w2, (if stale then fetchFsChanges E w1 else (None, w1)) = (err, w2) →
            requests w2 = requests w ++ (if stale then [ReqChanges] else [])).
  { intros err w2. destruct stale.
    - destruct (fetchError (unixGetChanges E (length (requests w1)))) as [e|] eqn:He.
      + destruct (fetchFsChanges_fails E w1 e He) as (_ & _ & F).
        intros Heq. rewrite Heq in F. simpl in F. congruence.
      + destruct (fetchFsChanges_succeeds E w1 He) as (_ & _ & _ & _ & _ & F).
        intros Heq. rewrite Heq in F. simpl in F. congruence.
    - intros [= <- <-]. by rewrite app_nil_r. }
  destruct (if stale then fetchFsChanges E w1 else (None, w1)) as [err w2] eqn:Hf.
  specialize (Hfetch err w2 eq_refl).
  destruct err as [e|]; simpl.
  - by rewrite app_nil_r.
  - pose proof (changesLoop_requests (Filepath.Clean dir)
                  (default [] (changes (mng w2))) [] w2) as Hloop.
    pose proof (changesLoop_quiet E (Filepath.Clean dir)
                  (default [] (changes (mng w2))) [] w2) as (Q1 & _).
    destruct (foldM _ _ _ w2) as [res w3]. simpl in *.
    rewrite Hloop, Hfetch, Q1. by rewrite <- app_assoc.
Qed.

End ChangesInDirMore.

(** X4, on the container whose diff reports the added [/etc/new]. *)
Lemma ChangesInDir_returns_answered_paths_witness :
  fst (ChangesInDir Scenario.envAdded "/etc" Scenario.w0)
    = inr [ {| Path := "/etc/new"; Kind := FileAdded; mode := 420 |} ]
  ∧ ∃ n md, headMode Scenario.envAdded n "/etc/new" = Some md ∧ 420 = uint32 md.
Proof.
  assert (H : fst (ChangesInDir Scenario.envAdded "/etc" Scenario.w0)
                = inr [ {| Path := "/etc/new"; Kind := FileAdded; mode := 420 |} ])
    by (vm_compute; reflexivity).
  split; [exact H|].
  destruct (proj1 (ChangesInDir_returns_answered_paths Scenario.envAdded "/etc"
                     Scenario.w0 _ H)
              {| Path := "/etc/new"; Kind := FileAdded; mode := 420 |}
              (list_elem_of_here _ _)) as (n & md & H1 & H2 & _).
  by exists n, md.
Defined.

(** X5, on the same container. *)
Lemma ChangesInDir_is_filtered_cache_witness :
  headStable Scenario.envAdded
  ∧ fst (ChangesInDir Scenario.envAdded "/etc" Scenario.w0)
    = inr [ {| Path := "/etc/new"; Kind := FileAdded; mode := 420 |} ]
  ∧ [ {| Path := "/etc/new"; Kind := FileAdded; mode := 420 |} ]
    = omap (surfaced Scenario.envAdded (Filepath.Clean "/etc"))
           (default [] (changes (mng (snd (ChangesInDir Scenario.envAdded "/etc"
                                             Scenario.w0))))).
Proof.
  assert (H1 : headStable Scenario.envAdded) by (intros n path; reflexivity).
  assert (H2 : fst (ChangesInDir Scenario.envAdded "/etc" Scenario.w0)
                = inr [ {| Path := "/etc/new"; Kind := FileAdded; mode := 420 |} ])
    by (vm_compute; reflexivity).
  split; [exact H1|]. split; [exact H2|].
  exact (ChangesInDir_is_filtered_cache Scenario.envAdded "/etc" Scenario.w0 _ H1 H2).
Defined.

(** ** The directory node, further *)

Section DirNodeMore.

Context (E : Env).

Lemma Lookup_failed_run d name out w err :
  ContainerStatPath E (length (requests w)) (Filepath.Join (fullpath d) name) = inl err →
  Lookup E d name out w =
    ((None, if Strings.HasSuffix err "404" then Syscall.ENOENT else Syscall.EIO, out),
     sent (ReqStatPath (Filepath.Join (fullpath d) name)) w).
Proof.
  intros H. unfold Lookup, bind, GetPathAttrs, send, ret, sent; simpl.
  rewrite H. by destruct (Strings.HasSuffix err "404").
Qed.

Lemma Lookup_answered_run d name out w attrs :
  ContainerStatPath E (length (requests w)) (Filepath.Join (fullpath d) name) = inr attrs →
  ∃ node,
    Lookup E d name out w =
      ((Some node, Syscall.OK,
        {| Fuse.OwnerUid := uid (mng w); Fuse.OwnerGid := gid (mng w);
           Fuse.AttrMode := Fuse.AttrMode out |}),
       setInodes (snd (Inodes.Inode (Filepath.Clean (Filepath.Join (fullpath d) name))
                         (inodes (mng w))))
                 (sent (ReqStatPath (Filepath.Join (fullpath d) name)) w))
    ∧ Fs.Ino (Fs.stableAttr node)
      = fst (Inodes.Inode (Filepath.Clean (Filepath.Join (fullpath d) name))
               (inodes (mng w)))
    ∧ (nodePath node = None ∨ nodePath node = Some (Filepath.Join (fullpath d) name)).
Proof.
  intros H. unfold Lookup, bind, GetPathAttrs, send, ret, sent; simpl.
  rewrite H. unfold getMng, inodeFor; simpl.
  destruct (Inodes.Inode _ (inodes (mng w))) as [ino t]; simpl.
  destruct (negb _); [|destruct (Os.IsDir _)];
    eexists; (split; [reflexivity|]); simpl; auto.
Qed.

(** X7.  A [Lookup] that fails leaves no trace but its request: the
    errno is [ENOENT] or [EIO], there is no node, the [out] argument
    and the manager are as before, and in particular no inode number
    is allocated for the missing path. *)
Theorem Lookup_failure_allocates_nothing d name out w :
  snd (fst (fst (Lookup E d name out w))) ≠ Syscall.OK →
  (snd (fst (fst (Lookup E d name out w))) = Syscall.ENOENT
   ∨ snd (fst (fst (Lookup E d name out w))) = Syscall.EIO)
  ∧ fst (fst (fst (Lookup E d name out w))) = None
  ∧ snd (fst (Lookup E d name out w)) = out
  ∧ mng (snd (Lookup E d name out w)) = mng w
  ∧ requests (snd (Lookup E d name out w))
    = requests w ++ [ReqStatPath (Filepath.Join (fullpath d) name)].
Proof.
  destruct (ContainerStatPath E (length (requests w)) (Filepath.Join (fullpath d) name))
    as [err|attrs] eqn:Hst.
  - rewrite (Lookup_failed_run d name out w err Hst). simpl. intros _.
    repeat split. destruct (Strings.HasSuffix err "404"); auto.
  - destruct (Lookup_answered_run d name out w attrs Hst) as (node & -> & _).
    simpl. intros H. by destruct H.
Qed.

Lemma Clean_keeps_root p :
  Strings.HasPrefix p "/" = true → Strings.HasPrefix (Filepath.Clean p) "/" = true.
Proof.
  destruct p as [|c p]; [discriminate|]. intros H.
  unfold Filepath.Clean. rewrite H. reflexivity.
Qed.

Lemma Join_cleanAbs a b :
  Strings.HasPrefix a "/" = true → cleanAbs (Filepath.Join a b).
Proof.
  intros Ha. destruct a as [|c a]; [discriminate|].
  unfold Filepath.Join. simpl negb. cbv iota.
  split; [apply PathFacts.Clean_idempotent|].
  apply Clean_keeps_root. exact Ha.
Qed.

(** X8.  Paths stay cleaned and absolute along lookups.  Below a
    directory with an absolute path (the root is one), a directory or
    file node returned by [Lookup] carries the path
    [Join (fullpath, name)], which is cleaned and absolute, and that
    very path is the key under which the inode table holds the number
    of the node. *)
Theorem Lookup_node_path_clean_and_keyed d name out w node p :
  Strings.HasPrefix (fullpath d) "/" = true →
  fst (fst (fst (Lookup E d name out w))) = Some node →
  nodePath node = Some p →
  p = Filepath.Join (fullpath d) name
  ∧ Filepath.Clean p = p
  ∧ Strings.HasPrefix p "/" = true
  ∧ Inodes.table (inodes (mng (snd (Lookup E d name out w)))) !! p
    = Some (Fs.Ino (Fs.stableAttr node)).
Proof.
  intros Habs Hl Hpath.
  destruct (Join_cleanAbs (fullpath d) name Habs) as [Hclean Hroot].
  assert (Hp : p = Filepath.Join (fullpath d) name).
  { destruct (ContainerStatPath E (length (requests w))
                (Filepath.Join (fullpath d) name)) as [err|attrs] eqn:Hst.
    - rewrite (Lookup_failed_run d name out w err Hst) in Hl. discriminate.
    - destruct (Lookup_answered_run d name out w attrs Hst) as (n & Hrun & _ & Hn).
      rewrite Hrun in Hl. simpl in Hl. injection Hl as ->.
      destruct Hn as [H|H]; congruence. }
  subst p. repeat split; try done.
  rewrite <- Hclean at 1. by apply Lookup_inode_stored.
Qed.

Lemma Inode_of_known p t i :
  Inodes.table t !! p = Some i → Inodes.Inode p t = (i, t).
Proof. unfold Inodes.Inode. by intros ->. Qed.

Lemma Lookup_reports_known d name out w node i :
  Inodes.table (inodes (mng w))
    !! Filepath.Clean (Filepath.Join (fullpath d) name) = Some i →
  fst (fst (fst (Lookup E d name out w))) = Some node →
  Fs.Ino (Fs.stableAttr node) = i.
Proof.
  intros Hi Hl.
  destruct (ContainerStatPath E (length (requests w))
              (Filepath.Join (fullpath d) name)) as [err|attrs] eqn:Hst.
  - rewrite (Lookup_failed_run d name out w err Hst) in Hl. discriminate.
  - destruct (Lookup_answered_run d name out w attrs Hst) as (n & Hrun & Hino & _).
    rewrite Hrun in Hl. simpl in Hl. injection Hl as ->.
    by rewrite Hino, (Inode_of_known _ _ _ Hi).
Qed.

Lemma Lookup_extends d name out w :
  Inodes.extends (inodes (mng w)) (inodes (mng (snd (Lookup E d name out w)))).
Proof.
  destruct (ContainerStatPath E (length (requests w))
              (Filepath.Join (fullpath d) name)) as [err|attrs] eqn:Hst.
  - rewrite (Lookup_failed_run d name out w err Hst). apply InodeFacts.extends_refl.
  - destruct (Lookup_answered_run d name out w attrs Hst) as (n & -> & _).
    simpl. apply InodeFacts.Inode_extends.
Qed.

Lemma Create_succeeded_run d name flags mode w node :
  fst (Create E d name flags mode w) = (Some node, Syscall.OK) →
  let key := Filepath.Clean (Filepath.Join (fullpath d) name) in
  let w1 := snd (Lookup E d name emptyAttr w) in
  mng w1 = mng w
  ∧ node = createdFile (Filepath.Join (fullpath d) name) mode
             (fst (Inodes.Inode key (inodes (mng w))))
  ∧ inodes (mng (snd (Create E d name flags mode w)))
    = snd (Inodes.Inode key (inodes (mng w))).
Proof.
  cbv zeta. pose proof (Create_run E d name flags mode w) as Hrun. cbv zeta in Hrun.
  rewrite Hrun. clear Hrun.
  destruct (ContainerStatPath E (length (requests w))
              (Filepath.Join (fullpath d) name)) as [err|attrs] eqn:Hst.
  - rewrite (Lookup_failed_run d name emptyAttr w err Hst). simpl.
    destruct (Strings.HasSuffix err "404"); simpl; [|discriminate].
    unfold inodeFor. simpl.
    destruct (Inodes.Inode _ (inodes (mng w))) as [ino t]. simpl.
    intros [= <-]. auto.
  - destruct (Lookup_answered_run d name emptyAttr w attrs Hst) as (n & -> & _).
    simpl. discriminate.
Qed.

Lemma Create_extends d name flags mode w :
  Inodes.extends (inodes (mng w)) (inodes (mng (snd (Create E d name flags mode w)))).
Proof.
  pose proof (Create_run E d name flags mode w) as Hrun. cbv zeta in Hrun.
  rewrite Hrun. clear Hrun.
  pose proof (Lookup_extends d name emptyAttr w) as Hl.
  destruct (_ =? 0); [exact Hl|]. destruct (negb _); [exact Hl|].
  unfold inodeFor.
  pose proof (InodeFacts.Inode_extends
                (Filepath.Clean (Filepath.Join (fullpath d) name))
                (inodes (mng (snd (Lookup E d name emptyAttr w))))) as Hi.
  destruct (Inodes.Inode _ _) as [ino t]. simpl in *.
  by eapply InodeFacts.extends_trans.
Qed.

(** X9.  A file keeps the inode number it got at [Create]: when
    [Create] succeeds with a node, any later successful [Lookup] of
    the same name in the same directory returns a node with the same
    number, whatever was allocated in between.  The created node
    carries the path [Join (fullpath, name)]. *)
Theorem Create_then_Lookup_same_inode d name flags mode w node out w' node' :
  fst (Create E d name flags mode w) = (Some node, Syscall.OK) →
  Inodes.extends (inodes (mng (snd (Create E d name flags mode w)))) (inodes (mng w')) →
  fst (fst (fst (Lookup E d name out w'))) = Some node' →
  Fs.Ino (Fs.stableAttr node') = Fs.Ino (Fs.stableAttr node)
  ∧ nodePath node = Some (Filepath.Join (fullpath d) name).
Proof.
  intros Hc Hext Hl.
  destruct (Create_succeeded_run d name flags mode w node Hc) as (_ & Hnode & Hino).
  split; [|by rewrite Hnode].
  apply (Lookup_reports_known d name out w' node'); [|exact Hl].
  apply Hext. rewrite Hino, Hnode. simpl. apply InodeFacts.Inode_stored.
Qed.

End DirNodeMore.

(** X7, on the scenario: [/tmp/x] is missing. *)
Lemma Lookup_failure_allocates_nothing_witness :
  snd (fst (fst (Lookup Scenario.env Scenario.tmp "x" emptyAttr Scenario.w0))) ≠ Syscall.OK
  ∧ fst (fst (fst (Lookup Scenario.env Scenario.tmp "x" emptyAttr Scenario.w0))) = None
  ∧ mng (snd (Lookup Scenario.env Scenario.tmp "x" emptyAttr Scenario.w0))
    = mng Scenario.w0.
Proof.
  assert (H : snd (fst (fst (Lookup Scenario.env Scenario.tmp "x" emptyAttr Scenario.w0)))
                ≠ Syscall.OK) by (vm_compute; discriminate).
  split; [exact H|].
  destruct (Lookup_failure_allocates_nothing Scenario.env Scenario.tmp "x" emptyAttr
              Scenario.w0 H) as (_ & Hnode & _ & Hmng & _).
  split; [exact Hnode | exact Hmng].
Defined.

(** X8, on the scenario: the node of [/etc/hostname]. *)
Lemma Lookup_node_path_clean_and_keyed_witness :
  Strings.HasPrefix (fullpath Scenario.etc) "/" = true
  ∧ (∃ node, fst (fst (fst (Lookup Scenario.env Scenario.etc "hostname" emptyAttr
                              Scenario.w0))) = Some node
             ∧ nodePath node = Some "/etc/hostname")
  ∧ Filepath.Clean "/etc/hostname" = "/etc/hostname".
Proof.
  assert (H1 : Strings.HasPrefix (fullpath Scenario.etc) "/" = true) by reflexivity.
  split; [exact H1|]. split.
  - eexists. split; vm_compute; reflexivity.
  - exact (proj1 (proj2 (Lookup_node_path_clean_and_keyed Scenario.env Scenario.etc
                           "hostname" emptyAttr Scenario.w0 _ "/etc/hostname" H1
                           eq_refl eq_refl))).
Defined.

(** X9, on a container in which [/tmp/x] appears after the create. *)
Lemma Create_then_Lookup_same_inode_witness :
  fst (Create More.envCreated Scenario.tmp "x" 0 420 Scenario.w0)
    = (Some (createdFile "/tmp/x" 420 2), Syscall.OK)
  ∧ ∃ node', fst (fst (fst (Lookup More.envCreated Scenario.tmp "x" emptyAttr
                              (snd (Create More.envCreated Scenario.tmp "x" 0 420
                                      Scenario.w0))))) = Some node'
             ∧ Fs.Ino (Fs.stableAttr node') = 2.
Proof.
  assert (H1 : fst (Create More.envCreated Scenario.tmp "x" 0 420 Scenario.w0)
                 = (Some (createdFile "/tmp/x" 420 2), Syscall.OK))
    by (vm_compute; reflexivity).
  split; [exact H1|].
  eexists. split; [vm_compute; reflexivity|].
  exact (proj1 (Create_then_Lookup_same_inode More.envCreated Scenario.tmp "x" 0 420
                  Scenario.w0 _ emptyAttr _ _ H1 (InodeFacts.extends_refl _) eq_refl)).
Defined.

(** ** Readdir, further *)

Section ReaddirMore.

Context (E : Env).

Lemma staticStep_keeps_keys prefix chs children entry k :
  is_Some (children !! k) → is_Some (staticStep prefix chs children entry !! k).
Proof.
  intros Hk. unfold staticStep. destruct entry as [file fmode].
  destruct (negb _); [done|]. destruct (WasRemoved file chs); [done|].
  assert (Hins : ∀ k' v, is_Some (<[ k' := v ]> children !! k)).
  { intros k' v. destruct (decide (k' = k)) as [->|Hne].
    - rewrite lookup_insert_eq. by eexists.
    - by rewrite lookup_insert_ne. }
  destruct (0 <? _); [apply Hins|].
  destruct (_ <? 0); [|done].
  destruct (_ =? _); apply Hins.
Qed.

Lemma staticLoop_keeps_keys prefix chs l : ∀ children k,
  is_Some (children !! k) →
  is_Some (fold_left (staticStep prefix chs) l children !! k).
Proof.
  induction l as [|entry l IH]; intros children k Hk; simpl; [done|].
  by apply IH, staticStep_keeps_keys.
Qed.

Lemma staticLoop_lists prefix chs l : ∀ children file fmode,
  (file, fmode) ∈ l →
  Strings.HasPrefix file prefix = true →
  WasRemoved file chs = false →
  Strings.IndexSlash (Strings.from (String.length prefix) file) ≠ 0 →
  is_Some (fold_left (staticStep prefix chs) l children !! childName prefix file).
Proof.
  induction l as [|entry l IH]; intros children file fmode Hin Hp Hr Hpos.
  - by apply elem_of_nil in Hin.
  - apply elem_of_cons in Hin as [<-|Hin]; [|simpl; by eapply IH].
    simpl. apply staticLoop_keeps_keys.
    unfold staticStep, childName. rewrite Hp, Hr. simpl.
    set (sub := Strings.from (String.length prefix) file) in *.
    destruct (Z.ltb_spec 0 (Strings.IndexSlash sub)) as [H0|H0].
    + rewrite lookup_insert_eq. by eexists.
    + destruct (Z.ltb_spec (Strings.IndexSlash sub) 0) as [H1|H1]; [|lia].
      destruct (_ =? _); rewrite lookup_insert_eq; by eexists.
Qed.

Lemma addedLoop_keeps_keys chs : ∀ children w k,
  is_Some (children !! k) →
  is_Some (fst (foldM (addedStep E) children chs w) !! k).
Proof.
  induction chs as [|ch chs IH]; intros children w k Hk; cbn [foldM]; [done|].
  unfold bind. rewrite addedStep_run.
  destruct (negb _); [by apply IH|]. apply IH.
  destruct (ContainerStatPath E _ _) as [err|st]; [done|].
  destruct (decide (Filepath.Base (Path ch) = k)) as [->|Hne].
  - rewrite lookup_insert_eq. by eexists.
  - by rewrite lookup_insert_ne.
Qed.

Lemma addedLoop_requests chs : ∀ children w,
  requests (snd (foldM (addedStep E) children chs w))
    = requests w ++ map (λ c, ReqStatPath (Path c)) (List.filter isAdded chs).
Proof.
  induction chs as [|ch chs IH]; intros children w; cbn [foldM List.filter].
  - simpl. by rewrite app_nil_r.
  - unfold bind. rewrite addedStep_run. unfold isAdded at 1.
    destruct (Kind ch =? FileAdded); simpl.
    + rewrite IH. simpl. by rewrite <- app_assoc.
    + by rewrite IH.
Qed.

Lemma listLoop_requests dirpath l : ∀ acc w,
  requests (snd (foldM (listStep dirpath) acc l w)) = requests w
  ∧ changes (mng (snd (foldM (listStep dirpath) acc l w))) = changes (mng w)
  ∧ changesUpdated (mng (snd (foldM (listStep dirpath) acc l w)))
    = changesUpdated (mng w).
Proof.
  induction l as [|[child md] l IH]; intros acc w; cbn [foldM]; [done|].
  unfold bind. rewrite listStep_run. cbv zeta.
  set (acc' := acc ++ [_]).
  set (w' := setInodes _ w).
  destruct (IH acc' w') as (I1 & I2 & I3).
  rewrite I1, I2, I3. done.
Qed.

(** X10.  [Readdir] fails exactly when [ChangesInDir] fails, and then
    with [EIO] and no entries; in that case it does nothing beyond
    what [ChangesInDir] did: no stat is sent through the docker client
    and no inode number is allocated. *)
Theorem Readdir_fails_with_ChangesInDir d w :
  (snd (fst (Readdir E d w)) = Syscall.OK ∨ snd (fst (Readdir E d w)) = Syscall.EIO)
  ∧ (snd (fst (Readdir E d w)) = Syscall.EIO
     ↔ ∃ err, fst (ChangesInDir E (fullpath d) w) = inl err)
  ∧ (snd (fst (Readdir E d w)) = Syscall.EIO →
     fst (fst (Readdir E d w)) = None
     ∧ snd (Readdir E d w) = snd (ChangesInDir E (fullpath d) w)
     ∧ inodes (mng (snd (Readdir E d w))) = inodes (mng w)).
Proof.
  rewrite Readdir_run.
  destruct (ChangesInDir_keeps_files_and_inodes E (fullpath d) w) as [_ Hino].
  destruct (ChangesInDir E (fullpath d) w) as [[err|chs] w1]; simpl in *.
  - split; [by right|]. split; [split; [by eexists|done]|]. done.
  - destruct (foldM (addedStep E) _ chs w1) as [c1 w2].
    destruct (foldM (listStep (fullpath d)) [] _ w2) as [l w3]. simpl.
    split; [by left|]. split.
    + split; [discriminate|]. by intros [err Herr].
    + discriminate.
Qed.

Lemma HasPrefix_from p : ∀ s,
  Strings.HasPrefix s p = true → s = p +:+ Strings.from (String.length p) s.
Proof.
  induction p as [|c p IH]; intros s H; [reflexivity|].
  destruct s as [|c' s]; [discriminate|]. cbn [Strings.HasPrefix] in H.
  destruct (Ascii.eqb_spec c c') as [->|]; [|discriminate].
  change (String c' s = String c' (p +:+ Strings.from (String.length p) s)).
  f_equal. by apply IH.
Qed.

Lemma NoDup_names_inj (l : list Fuse.DirEntry) e1 e2 :
  NoDup (map Fuse.Name l) → e1 ∈ l → e2 ∈ l → Fuse.Name e1 = Fuse.Name e2 → e1 = e2.
Proof.
  induction l as [|x l IH]; intros Hnd H1 H2 Hn; [by apply elem_of_nil in H1|].
  simpl in Hnd. apply NoDup_cons in Hnd as [Hx Hnd].
  apply elem_of_cons in H1 as [->|H1]; apply elem_of_cons in H2 as [->|H2].
  - reflexivity.
  - exfalso. apply Hx. rewrite Hn. apply list_elem_of_fmap. by exists e2.
  - exfalso. apply Hx. rewrite <- Hn. apply list_elem_of_fmap. by exists e1.
  - by apply IH.
Qed.

(** X11.  [Readdir] reports type bits only: the mode of every entry is
    [S_IFDIR], [S_IFREG] or [S_IFLNK].  An entry is [S_IFLNK] only
    when the snapshot holds the file that lies directly in the
    directory under the name of the entry (the prefix followed by the
    name, which has no slash), with a recorded mode that has both bits
    of [S_IFLNK] set, and the returned changes do not report that file
    as removed.  The entry named after an [Added] change whose stat
    the container answers is [S_IFDIR] or [S_IFREG], never a symlink,
    also when the snapshot holds such a file of that name. *)
Theorem Readdir_modes_are_types d w l e :
  range_ok E →
  fst (Readdir E d w) = (Some l, Syscall.OK) →
  e ∈ l →
  (Fuse.Mode e = Fuse.S_IFDIR ∨ Fuse.Mode e = Fuse.S_IFREG ∨ Fuse.Mode e = Fuse.S_IFLNK)
  ∧ ∃ chs, fst (ChangesInDir E (fullpath d) w) = inr chs
    ∧ (Fuse.Mode e = Fuse.S_IFLNK →
       ∃ file fmode, staticFiles (mng w) !! file = Some fmode
                     ∧ Strings.HasPrefix file (childPrefix d) = true
                     ∧ Z.land fmode Fuse.S_IFLNK = Fuse.S_IFLNK
                     ∧ file = childPrefix d +:+ Fuse.Name e
                     ∧ Strings.IndexSlash (Fuse.Name e) < 0
                     ∧ WasRemoved file chs = false)
    ∧ (∀ ch, ch ∈ chs → Kind ch = FileAdded → statAnswers E (Path ch) →
         Filepath.Base (Path ch) = Fuse.Name e →
         (Fuse.Mode e = Fuse.S_IFDIR ∨ Fuse.Mode e = Fuse.S_IFREG)
         ∧ Fuse.Mode e ≠ Fuse.S_IFLNK).
Proof.
  intros Hrange Hl He.
  destruct (fst (ChangesInDir E (fullpath d) w)) as [err|chs] eqn:Hchs.
  { rewrite Readdir_run in Hl.
    destruct (ChangesInDir E (fullpath d) w) as [r w1]. simpl in Hchs. subst r.
    discriminate. }
  destruct (Readdir_entries E d w chs Hrange Hchs) as (l' & Hl' & Hnd & Hsrc & Hadded).
  rewrite Hl' in Hl. injection Hl as ->.
  assert (Hadd : ∀ name md, fromAdded E chs name md →
            (md = Fuse.S_IFDIR ∨ md = Fuse.S_IFREG) ∧ md ≠ Fuse.S_IFLNK).
  { intros name md (ch & n & st & _ & _ & _ & _ & ->). unfold fuseModeOf.
    destruct (Os.IsDir _); (split; [auto|]); intros H; vm_compute in H; discriminate. }
  assert (Htype : Fuse.Mode e = Fuse.S_IFDIR ∨ Fuse.Mode e = Fuse.S_IFREG
                  ∨ Fuse.Mode e = Fuse.S_IFLNK).
  { destruct (Hsrc e He) as [Hfa|(file & fmode & _ & _ & _ & Hshape)].
    - destruct (Hadd _ _ Hfa) as [[H|H] _]; auto.
    - cbv zeta in Hshape. destruct Hshape as [(_ & _ & ->)|(_ & _ & ->)]; [auto|].
      destruct (_ =? _); auto. }
  split; [exact Htype|]. exists chs. split; [reflexivity|]. split.
  - intros Hlnk.
    destruct (Hsrc e He) as [Hfa|(file & fmode & Hfile & Hp & Hr & Hshape)].
    { destruct (Hadd _ _ Hfa) as [_ Hno]. contradiction. }
    cbv zeta in Hshape. destruct Hshape as [(_ & _ & Hm)|(Hneg & Hname & Hm)].
    { rewrite Hm in Hlnk. vm_compute in Hlnk. discriminate. }
    exists file, fmode. repeat split; try done.
    + destruct (Z.eqb_spec (Z.land fmode Fuse.S_IFLNK) Fuse.S_IFLNK) as [Hb|Hb]; [exact Hb|].
      rewrite Hm in Hlnk. vm_compute in Hlnk. discriminate.
    + rewrite Hname. by apply HasPrefix_from.
    + by rewrite Hname.
  - intros ch Hin Hk Hstat Hbase.
    destruct (Hadded ch Hin Hk Hstat) as (e' & He' & Hn' & Hfa).
    assert (e' = e) as ->.
    { apply (NoDup_names_inj l); try done. congruence. }
    by apply (Hadd (Fuse.Name e)).
Qed.

(** X12.  [Readdir] lists the snapshot: every snapshot path below the
    directory that the returned changes do not report as removed
    yields an entry, named by its first segment below the directory
    (the synthesized subdirectory) or, for a file directly in the
    directory, by its name.  The one exception is a path that
    continues with a slash right after the prefix, which is skipped. *)
Theorem Readdir_lists_snapshot_paths d w chs file fmode :
  range_ok E →
  fst (ChangesInDir E (fullpath d) w) = inr chs →
  staticFiles (mng w) !! file = Some fmode →
  Strings.HasPrefix file (childPrefix d) = true →
  WasRemoved file chs = false →
  Strings.IndexSlash (Strings.from (String.length (childPrefix d)) file) ≠ 0 →
  ∃ l e, fst (Readdir E d w) = (Some l, Syscall.OK)
         ∧ e ∈ l ∧ Fuse.Name e = childName (childPrefix d) file.
Proof.
  intros Hrange Hchs Hfile Hp Hr Hpos. rewrite Readdir_run.
  destruct (ChangesInDir_keeps_files_and_inodes E (fullpath d) w) as [Hfiles _].
  destruct (ChangesInDir E (fullpath d) w) as [r w1]. simpl in Hchs, Hfiles. subst r.
  cbv zeta.
  set (c0 := fold_left (staticStep (childPrefix d) chs)
               (rangeOrder E (map_to_list (staticFiles (mng w1)))) ∅).
  assert (H0 : is_Some (c0 !! childName (childPrefix d) file)).
  { unfold c0. eapply staticLoop_lists; try done.
    rewrite (Hrange _ (NoDup_map_to_list _)). apply elem_of_map_to_list.
    by rewrite Hfiles. }
  pose proof (addedLoop_keeps_keys chs c0 w1 _ H0) as H1.
  destruct (foldM (addedStep E) c0 chs w1) as [c1 w2]. simpl in H1.
  destruct (listLoop_entries (fullpath d) (rangeOrder E (map_to_list c1)) [] w2)
    as (Hpairs & _ & _).
  destruct (foldM (listStep (fullpath d)) [] _ w2) as [l w3]. simpl in Hpairs |- *.
  destruct H1 as [v Hv].
  assert (Hin : (childName (childPrefix d) file, v)
                  ∈ map (λ e, (Fuse.Name e, Fuse.Mode e)) l).
  { rewrite Hpairs, (Hrange _ (NoDup_map_to_list _)). by apply elem_of_map_to_list. }
  apply list_elem_of_fmap in Hin. destruct Hin as (e & Heq & He).
  injection Heq as Hn _. exists l, e. by repeat split.
Qed.

Lemma Readdir_extends d w :
  Inodes.extends (inodes (mng w)) (inodes (mng (snd (Readdir E d w)))).
Proof.
  rewrite Readdir_run.
  destruct (ChangesInDir_keeps_files_and_inodes E (fullpath d) w) as [_ Hino].
  destruct (ChangesInDir E (fullpath d) w) as [[err|chs] w1]; simpl in Hino.
  { simpl. rewrite Hino. apply InodeFacts.extends_refl. }
  cbv zeta. set (c0 := fold_left _ _ ∅).
  pose proof (addedLoop_mng E chs c0 w1) as Hm.
  destruct (foldM (addedStep E) c0 chs w1) as [c1 w2]. simpl in Hm.
  destruct (listLoop_entries (fullpath d) (rangeOrder E (map_to_list c1)) [] w2)
    as (_ & Hext & _).
  destruct (foldM (listStep (fullpath d)) [] _ w2) as [l w3]. simpl in *.
  by rewrite Hm, Hino in Hext.
Qed.

Lemma Readdir_stores_inodes d w l errno e :
  fst (Readdir E d w) = (Some l, errno) →
  e ∈ l →
  Inodes.table (inodes (mng (snd (Readdir E d w))))
    !! Filepath.Clean (Filepath.Join (fullpath d) (Fuse.Name e)) = Some (Fuse.Ino e).
Proof.
  rewrite Readdir_run.
  destruct (ChangesInDir E (fullpath d) w) as [[err|chs] w1]; [discriminate|].
  cbv zeta. set (c0 := fold_left _ _ ∅).
  destruct (foldM (addedStep E) c0 chs w1) as [c1 w2].
  destruct (listLoop_entries (fullpath d) (rangeOrder E (map_to_list c1)) [] w2)
    as (_ & _ & Hent).
  destruct (foldM (listStep (fullpath d)) [] _ w2) as [l' w3]. simpl in *.
  intros [= <- <-] He.
  destruct (Hent e He) as [Hnil|Hst]; [by apply elem_of_nil in Hnil | exact Hst].
Qed.

(** X13.  A child keeps its inode number from one [Readdir] to the
    next: two listings of the same directory report the same number
    for the same name, whatever was allocated in between. *)
Theorem Readdir_inodes_stable d w l1 errno1 w' l2 errno2 e1 e2 :
  fst (Readdir E d w) = (Some l1, errno1) →
  Inodes.extends (inodes (mng (snd (Readdir E d w)))) (inodes (mng w')) →
  fst (Readdir E d w') = (Some l2, errno2) →
  e1 ∈ l1 → e2 ∈ l2 → Fuse.Name e1 = Fuse.Name e2 →
  Fuse.Ino e1 = Fuse.Ino e2.
Proof.
  intros H1 Hext H2 He1 He2 Hname.
  pose proof (Readdir_stores_inodes d w l1 errno1 e1 H1 He1) as Hst.
  apply Hext in Hst. rewrite Hname in Hst.
  symmetry. by eapply Readdir_reports_known_inodes.
Qed.

(** X14.  The requests of a [Readdir] whose [ChangesInDir] succeeded:
    those of [ChangesInDir], then one stat through the docker client
    for each returned change of kind [Added], in order.  It sends no
    upload and leaves the cached changes and the refresh time as
    [ChangesInDir] left them. *)
Theorem Readdir_requests d w chs :
  fst (ChangesInDir E (fullpath d) w) = inr chs →
  requests (snd (Readdir E d w))
    = requests (snd (ChangesInDir E (fullpath d) w))
      ++ map (λ c, ReqStatPath (Path c)) (List.filter isAdded chs)
  ∧ uploads (requests (snd (Readdir E d w))) = uploads (requests w)
  ∧ changes (mng (snd (Readdir E d w)))
    = changes (mng (snd (ChangesInDir E (fullpath d) w)))
  ∧ changesUpdated (mng (snd (Readdir E d w)))
    = changesUpdated (mng (snd (ChangesInDir E (fullpath d) w))).
Proof.
  intros Hchs. rewrite Readdir_run.
  pose proof (ChangesInDir_requests E (fullpath d) w) as Hreq.
  destruct (ChangesInDir E (fullpath d) w) as [r w1]. simpl in Hchs, Hreq. subst r.
  cbv zeta. set (c0 := fold_left _ _ ∅).
  pose proof (addedLoop_requests chs c0 w1) as Ha.
  pose proof (addedLoop_mng E chs c0 w1) as Hm.
  destruct (foldM (addedStep E) c0 chs w1) as [c1 w2]. simpl in Ha, Hm.
  destruct (listLoop_requests (fullpath d) (rangeOrder E (map_to_list c1)) [] w2)
    as (L1 & L2 & L3).
  destruct (foldM (listStep (fullpath d)) [] _ w2) as [l w3]. simpl in *.
  rewrite L1, L2, L3, Hm, Ha. repeat split; try done.
  rewrite Hreq. unfold uploads. rewrite !List.filter_app.
  assert (Hnone : ∀ (A : Type) (f : A → Request) (xs : list A),
            (∀ x, isCopyTo (f x) = false) → List.filter isCopyTo (map f xs) = []).
  { intros A f xs Hf. induction xs as [|x xs IH]; simpl; [done|]. by rewrite Hf. }
  rewrite !Hnone by done.
  destruct (staleAt E w); simpl; by rewrite !app_nil_r.
Qed.

End ReaddirMore.

(** X11, on the scenario mount. *)
Lemma Readdir_modes_are_types_witness :
  range_ok Scenario.env
  ∧ fst (Readdir Scenario.env Scenario.etc Scenario.w0)
    = (Some [ {| Fuse.Mode := Fuse.S_IFREG; Fuse.Name := "hostname"; Fuse.Ino := 2 |} ],
       Syscall.OK)
  ∧ (Fuse.S_IFREG = Fuse.S_IFDIR ∨ Fuse.S_IFREG = Fuse.S_IFREG
     ∨ Fuse.S_IFREG = Fuse.S_IFLNK).
Proof.
  assert (H1 : range_ok Scenario.env) by (intros l _; reflexivity).
  assert (H2 : fst (Readdir Scenario.env Scenario.etc Scenario.w0)
    = (Some [ {| Fuse.Mode := Fuse.S_IFREG; Fuse.Name := "hostname"; Fuse.Ino := 2 |} ],
       Syscall.OK)) by (vm_compute; reflexivity).
  split; [exact H1|]. split; [exact H2|].
  exact (proj1 (Readdir_modes_are_types Scenario.env Scenario.etc Scenario.w0 _
                  {| Fuse.Mode := Fuse.S_IFREG; Fuse.Name := "hostname"; Fuse.Ino := 2 |}
                  H1 H2 (list_elem_of_here _ _))).
Defined.

(** X12, on the scenario mount: the root lists [etc] for the snapshot
    path [/etc/hostname]. *)
Lemma Readdir_lists_snapshot_paths_witness :
  range_ok Scenario.env
  ∧ fst (ChangesInDir Scenario.env (fullpath Root) Scenario.w0) = inr []
  ∧ staticFiles (mng Scenario.w0) !! "/etc/hostname" = Some 420
  ∧ childName (childPrefix Root) "/etc/hostname" = "etc"
  ∧ ∃ l e, fst (Readdir Scenario.env Root Scenario.w0) = (Some l, Syscall.OK)
           ∧ e ∈ l ∧ Fuse.Name e = childName (childPrefix Root) "/etc/hostname".
Proof.
  assert (H1 : range_ok Scenario.env) by (intros l _; reflexivity).
  assert (H2 : fst (ChangesInDir Scenario.env (fullpath Root) Scenario.w0) = inr [])
    by (vm_compute; reflexivity).
  assert (H3 : staticFiles (mng Scenario.w0) !! "/etc/hostname" = Some 420)
    by reflexivity.
  split; [exact H1|]. split; [exact H2|]. split; [exact H3|]. split; [reflexivity|].
  apply (Readdir_lists_snapshot_paths Scenario.env Root Scenario.w0 [] "/etc/hostname" 420
           H1 H2 H3); [reflexivity | reflexivity | vm_compute; discriminate].
Defined.

(** X13, on the scenario mount: two listings of [/etc] in a row. *)
Lemma Readdir_inodes_stable_witness :
  fst (Readdir Scenario.env Scenario.etc Scenario.w0)
    = (Some [ {| Fuse.Mode := Fuse.S_IFREG; Fuse.Name := "hostname"; Fuse.Ino := 2 |} ],
       Syscall.OK)
  ∧ ∃ l2, fst (Readdir Scenario.env Scenario.etc
                 (snd (Readdir Scenario.env Scenario.etc Scenario.w0)))
          = (Some l2, Syscall.OK)
          ∧ ∀ e2, e2 ∈ l2 → Fuse.Name e2 = "hostname" → Fuse.Ino e2 = 2.
Proof.
  assert (H1 : fst (Readdir Scenario.env Scenario.etc Scenario.w0)
    = (Some [ {| Fuse.Mode := Fuse.S_IFREG; Fuse.Name := "hostname"; Fuse.Ino := 2 |} ],
       Syscall.OK)) by (vm_compute; reflexivity).
  split; [exact H1|].
  eexists. split; [vm_compute; reflexivity|].
  intros e2 He2 Hn. symmetry.
  refine (Readdir_inodes_stable Scenario.env Scenario.etc Scenario.w0 _ _
            (snd (Readdir Scenario.env Scenario.etc Scenario.w0)) _ _
            {| Fuse.Mode := Fuse.S_IFREG; Fuse.Name := "hostname"; Fuse.Ino := 2 |} e2
            H1 (InodeFacts.extends_refl _) _ (list_elem_of_here _ _) He2 _).
  - vm_compute. reflexivity.
  - by rewrite Hn.
Defined.

(** X14, on the container in which [/etc/hostname] became a directory
    and [/etc/new] appeared. *)
Lemma Readdir_requests_witness :
  fst (ChangesInDir Scenario.envGrown (fullpath Scenario.etc) Scenario.w0)
    = inr [ {| Path := "/etc/hostname"; Kind := FileAdded; mode := 420 |};
            {| Path := "/etc/new"; Kind := FileAdded; mode := 420 |} ]
  ∧ requests (snd (Readdir Scenario.envGrown Scenario.etc Scenario.w0))
    = [ ReqChanges; ReqHeadArchive "/etc/hostname"; ReqHeadArchive "/etc/new";
        ReqStatPath "/etc/hostname"; ReqStatPath "/etc/new" ]
  ∧ uploads (requests (snd (Readdir Scenario.envGrown Scenario.etc Scenario.w0)))
    = uploads (requests Scenario.w0).
Proof.
  assert (H : fst (ChangesInDir Scenario.envGrown (fullpath Scenario.etc) Scenario.w0)
    = inr [ {| Path := "/etc/hostname"; Kind := FileAdded; mode := 420 |};
            {| Path := "/etc/new"; Kind := FileAdded; mode := 420 |} ])
    by (vm_compute; reflexivity).
  split; [exact H|]. split; [vm_compute; reflexivity|].
  exact (proj1 (proj2 (Readdir_requests Scenario.envGrown Scenario.etc Scenario.w0 _ H))).
Defined.

(** ** The inode table and the upload, further *)

(** X15.  No operation takes a number away or changes it: after
    [Lookup], [Create] or [Readdir] every path that had a number in
    the inode table still has that number, and [ChangesInDir],
    [SaveFile] and [Getattr] leave the table as it is. *)
Theorem inode_table_only_grows E d name out flags mode path data stat w :
  Inodes.extends (inodes (mng w)) (inodes (mng (snd (Lookup E d name out w))))
  ∧ Inodes.extends (inodes (mng w)) (inodes (mng (snd (Create E d name flags mode w))))
  ∧ Inodes.extends (inodes (mng w)) (inodes (mng (snd (Readdir E d w))))
  ∧ inodes (mng (snd (ChangesInDir E path w))) = inodes (mng w)
  ∧ inodes (mng (snd (SaveFile E path data stat w))) = inodes (mng w)
  ∧ inodes (mng (snd (Getattr d out w))) = inodes (mng w).
Proof.
  split; [apply Lookup_extends|]. split; [apply Create_extends|].
  split; [apply Readdir_extends|].
  split; [apply ChangesInDir_keeps_files_and_inodes|].
  split; [|reflexivity].
  unfold SaveFile. destruct (Filepath.Split path) as [dir nm].
  unfold bind, timeNow. destruct (Tar.WriteHeader _ _ _) as [[e|] tw]; [reflexivity|].
  destruct (Tar.Write data tw) as [[e|] tw']; reflexivity.
Qed.

(** X16.  [SaveFile] reads the clock once and never touches the
    manager.  When the header cannot be encoded it returns the error
    of [WriteHeader] and sends nothing; otherwise it sends one upload
    and returns exactly what the runtime answers to it, error or not.
    Writing the data never fails, since the header announces exactly
    its length. *)
Theorem SaveFile_outcome E path data stat w :
  let hdr := Tar.normalize (saveHeader path data stat (now E (clockReads w))) in
  let result := SaveFile E path data stat w in
  mng (snd result) = mng w
  ∧ clockReads (snd result) = S (clockReads w)
  ∧ (if tarEncodable E hdr
     then fst result = CopyToContainer E (length (requests w)) (fst (Filepath.Split path)) []
          ∧ requests (snd result)
            = requests w ++ [ReqCopyTo (fst (Filepath.Split path)) []]
     else fst result = Some "archive/tar: cannot encode header"
          ∧ requests (snd result) = requests w).
Proof.
  cbv zeta. unfold SaveFile, saveHeader.
  destruct (Filepath.Split path) as [dir nm]. simpl fst. simpl snd.
  unfold bind, timeNow.
  match goal with
  | |- context [Tar.WriteHeader _ ?h _] => set (hdr := h)
  end.
  destruct (tarEncodable E (Tar.normalize hdr)) eqn:Henc.
  - destruct (Tar_write_one_entry (tarEncodable E) hdr data Henc eq_refl) as [H1 H2].
    rewrite H1, H2. simpl. repeat split; reflexivity.
  - unfold Tar.WriteHeader, Tar.Flush, Tar.NewWriter. simpl.
    fold hdr. rewrite Henc. simpl. repeat split; reflexivity.
Qed.

(** ** manager.go: the status file *)

Module ManagerFacts.
Import Manager.

Lemma Abs_clean H path p :
  Abs H path = inr p →
  (Strings.HasPrefix path "/" = true ∨ ∃ wd, getwd H = inr wd ∧ wd ≠ "") →
  Filepath.Clean p = p.
Proof.
  unfold Abs. intros Hp Hwd.
  destruct (Strings.HasPrefix path "/") eqn:Habs.
  - injection Hp as <-. apply PathFacts.Clean_idempotent.
  - destruct Hwd as [?|(wd & Hwd & Hne)]; [done|].
    rewrite Hwd in Hp. injection Hp as <-.
    unfold Filepath.Join. destruct (String.eqb_spec wd ""); [done|]. simpl.
    apply PathFacts.Clean_idempotent.
Qed.

(** X17.  Recording a mount: when the status file is absent or holds
    a map, the mount point resolves, the write succeeds and the codec
    is faithful on the new map, [writeStatus (id, path)] with a
    non-empty path returns nil and the status read back afterwards is
    the old one with [id] bound to the absolute mount point; every
    other container keeps its entry.  Without a status file the old
    map is empty.  The recorded path is cleaned whenever [path] is
    absolute or the working directory is known. *)
Theorem writeStatus_records_mount H id path f m p :
  ReadStatus H f = inr (Some m) →
  path ≠ "" →
  Abs H path = inr p →
  writeFails H f (marshal H (Some (<[ id := p ]> m))) = None →
  roundTrips H (<[ id := p ]> m) →
  fst (writeStatus H id path f) = Returned None
  ∧ ReadStatus H (snd (writeStatus H id path f)) = inr (Some (<[ id := p ]> m))
  ∧ (∀ m', ReadStatus H (snd (writeStatus H id path f)) = inr (Some m') →
       m' !! id = Some p ∧ ∀ other, other ≠ id → m' !! other = m !! other)
  ∧ (f = Absent → m = ∅)
  ∧ (Strings.HasPrefix path "/" = true ∨ (∃ wd, getwd H = inr wd ∧ wd ≠ "") →
     Filepath.Clean p = p).
Proof.
  intros Hread Hpath Habs Hwrite Hrt.
  assert (Hrun : writeStatus H id path f
                 = (Returned None, Holds (marshal H (Some (<[ id := p ]> m))))).
  { unfold writeStatus, store. rewrite Hread.
    destruct (String.eqb_spec path ""); [done|]. simpl.
    by rewrite Habs, Hwrite. }
  rewrite Hrun. simpl. split; [done|]. split; [exact Hrt|]. split; [|split].
  - intros m' Hm'. rewrite Hrt in Hm'. injection Hm' as <-. split.
    + apply lookup_insert_eq.
    + intros other Hne. by rewrite lookup_insert_ne.
  - intros ->. simpl in Hread. by injection Hread as <-.
  - by apply Abs_clean.
Qed.

(** X18.  Clearing a mount: [UnmountContainer] discards the outcome of
    the [umount] command.  When the status file is absent or holds a
    map, the write succeeds and the codec is faithful on the new map,
    it returns nil and the status read back has no entry for [id] and
    the old entries of all other containers.  Recording a mount for a
    container without an entry and clearing it again gives back the
    old map. *)
Theorem UnmountContainer_clears_entry H id path f m :
  ReadStatus H f = inr (Some m) →
  writeFails H f (marshal H (Some (delete id m))) = None →
  roundTrips H (delete id m) →
  fst (UnmountContainer H id path f) = Returned None
  ∧ ReadStatus H (snd (UnmountContainer H id path f)) = inr (Some (delete id m))
  ∧ delete id m !! id = None
  ∧ (∀ other, other ≠ id → delete id m !! other = m !! other)
  ∧ (∀ m0 p, m0 !! id = None → m = <[ id := p ]> m0 → delete id m = m0).
Proof.
  intros Hread Hwrite Hrt.
  assert (Hrun : UnmountContainer H id path f
                 = (Returned None, Holds (marshal H (Some (delete id m))))).
  { unfold UnmountContainer, writeStatus, store. rewrite Hread. simpl.
    by rewrite Hwrite. }
  rewrite Hrun. simpl. split; [done|]. split; [exact Hrt|]. split; [|split].
  - apply lookup_delete_eq.
  - intros other Hne. by rewrite lookup_delete_ne.
  - intros m0 p Hnone ->. rewrite delete_insert_eq. by apply delete_id.
Qed.

(** X19.  [writeStatus] never writes before it has read: when the
    status file cannot be read or does not decode, or when the mount
    point cannot be resolved, it returns that error and the file is
    left exactly as it was. *)
Theorem writeStatus_failure_leaves_file H id path f err :
  ReadStatus H f = inl err
  ∨ (path ≠ "" ∧ Abs H path = inl err ∧ ∃ status, ReadStatus H f = inr status) →
  writeStatus H id path f = (Returned (Some err), f).
Proof.
  unfold writeStatus. intros [Hread|(Hpath & Habs & status & Hread)].
  - by rewrite Hread.
  - rewrite Hread. destruct (String.eqb_spec path ""); [done|]. simpl.
    by rewrite Habs.
Qed.

End ManagerFacts.

(** X17, without a status file: the first mount. *)
Lemma writeStatus_records_mount_witness :
  Manager.ReadStatus Manager.host Manager.Absent = inr (Some ∅)
  ∧ "mnt" ≠ ""
  ∧ Manager.Abs Manager.host "mnt" = inr "/home/u/mnt"
  ∧ Manager.roundTrips Manager.host (<[ "c0ffee" := "/home/u/mnt" ]> ∅)
  ∧ Manager.ReadStatus Manager.host
      (snd (Manager.writeStatus Manager.host "c0ffee" "mnt" Manager.Absent))
    = inr (Some (<[ "c0ffee" := "/home/u/mnt" ]> ∅)).
Proof.
  assert (H1 : Manager.ReadStatus Manager.host Manager.Absent = inr (Some ∅))
    by reflexivity.
  assert (H2 : "mnt" ≠ "") by discriminate.
  assert (H3 : Manager.Abs Manager.host "mnt" = inr "/home/u/mnt") by reflexivity.
  assert (H4 : Manager.writeFails Manager.host Manager.Absent
                 (Manager.marshal Manager.host (Some (<[ "c0ffee" := "/home/u/mnt" ]> ∅)))
               = None) by reflexivity.
  assert (H5 : Manager.roundTrips Manager.host (<[ "c0ffee" := "/home/u/mnt" ]> ∅))
    by (vm_compute; reflexivity).
  split; [exact H1|]. split; [exact H2|]. split; [exact H3|]. split; [exact H5|].
  exact (proj1 (proj2 (ManagerFacts.writeStatus_records_mount Manager.host "c0ffee" "mnt"
                         Manager.Absent ∅ "/home/u/mnt" H1 H2 H3 H4 H5))).
Defined.

(** X18, on the status file of that mount; the [umount] command of the
    example host fails. *)
Lemma UnmountContainer_clears_entry_witness :
  Manager.ReadStatus Manager.host (Manager.Holds "{c0ffee:/home/u/mnt}")
    = inr (Some Manager.mounted)
  ∧ Manager.roundTrips Manager.host (delete "c0ffee" Manager.mounted)
  ∧ Manager.umount Manager.host "/home/u/mnt" = Some "exit status 32"
  ∧ fst (Manager.UnmountContainer Manager.host "c0ffee" "/home/u/mnt"
           (Manager.Holds "{c0ffee:/home/u/mnt}")) = Manager.Returned None.
Proof.
  assert (H1 : Manager.ReadStatus Manager.host (Manager.Holds "{c0ffee:/home/u/mnt}")
                 = inr (Some Manager.mounted)) by reflexivity.
  assert (H2 : Manager.writeFails Manager.host (Manager.Holds "{c0ffee:/home/u/mnt}")
                 (Manager.marshal Manager.host (Some (delete "c0ffee" Manager.mounted)))
               = None) by reflexivity.
  assert (H3 : Manager.roundTrips Manager.host (delete "c0ffee" Manager.mounted))
    by (vm_compute; reflexivity).
  split; [exact H1|]. split; [exact H3|]. split; [reflexivity|].
  exact (proj1 (ManagerFacts.UnmountContainer_clears_entry Manager.host "c0ffee"
                  "/home/u/mnt" _ _ H1 H2 H3)).
Defined.

(** X19, on a status file that cannot be read. *)
Lemma writeStatus_failure_leaves_file_witness :
  Manager.ReadStatus Manager.host (Manager.Unreadable "permission denied")
    = inl "permission denied"
  ∧ Manager.writeStatus Manager.host "c0ffee" "mnt" (Manager.Unreadable "permission denied")
    = (Manager.Returned (Some "permission denied"), Manager.Unreadable "permission denied").
Proof.
  assert (H1 : Manager.ReadStatus Manager.host (Manager.Unreadable "permission denied")
                 = inl "permission denied") by reflexivity.
  split; [exact H1|].
  exact (ManagerFacts.writeStatus_failure_leaves_file Manager.host "c0ffee" "mnt"
           (Manager.Unreadable "permission denied") "permission denied" (or_introl H1)).
Defined.

(** ** The names that Readdir reports *)

Module NameFacts.
Import Strings Filepath.

Lemma IndexSlash_range s : -1 ≤ IndexSlash s.
Proof.
  induction s as [|c s IH]; simpl; [lia|].
  destruct (Ascii.eqb c "/"); [lia|]. destruct (Z.ltb_spec (IndexSlash s) 0); lia.
Qed.

Lemma IndexSlash_none s : IndexSlash s < 0 → noSlash s = true.
Proof.
  induction s as [|c s IH]; simpl; [done|].
  destruct (Ascii.eqb c "/"); [lia|]. simpl.
  destruct (Z.ltb_spec (IndexSlash s) 0); [intros _; by apply IH | lia].
Qed.

Lemma upto_IndexSlash s : noSlash (upto (Z.to_nat (IndexSlash s)) s) = true.
Proof.
  induction s as [|c s IH]; simpl; [done|].
  destruct (Ascii.eqb c "/") eqn:Hc; [done|].
  pose proof (IndexSlash_range s).
  destruct (Z.ltb_spec (IndexSlash s) 0) as [Hn|Hn]; [done|].
  replace (Z.to_nat (IndexSlash s + 1)) with (S (Z.to_nat (IndexSlash s))) by lia.
  simpl. by rewrite Hc, IH.
Qed.

Lemma LastIndexSlash_range s : -1 ≤ LastIndexSlash s.
Proof.
  induction s as [|c s IH]; simpl; [lia|].
  destruct (Z.leb_spec 0 (LastIndexSlash s)); [lia|]. destruct (Ascii.eqb c "/"); lia.
Qed.

Lemma LastIndexSlash_none s : LastIndexSlash s < 0 → noSlash s = true.
Proof.
  induction s as [|c s IH]; simpl; [done|].
  destruct (Z.leb_spec 0 (LastIndexSlash s)) as [H0|H0]; [lia|].
  destruct (Ascii.eqb c "/"); [lia|]. intros _. by apply IH.
Qed.

(** What follows the last slash has no slash. *)
Lemma Split_name_noSlash s : noSlash (snd (Split s)) = true.
Proof.
  unfold Split. simpl. induction s as [|c s IH]; [done|].
  pose proof (LastIndexSlash_range s) as Hr. simpl LastIndexSlash.
  destruct (Z.leb_spec 0 (LastIndexSlash s)) as [H0|H0].
  - replace (Z.to_nat (LastIndexSlash s + 1 + 1))
      with (S (Z.to_nat (LastIndexSlash s + 1))) by lia.
    exact IH.
  - destruct (Ascii.eqb c "/") eqn:Hc; simpl.
    + apply LastIndexSlash_none. lia.
    + rewrite Hc. simpl. apply LastIndexSlash_none. lia.
Qed.

Lemma Base_noSlash p : noSlash (Base p) = true ∨ Base p = "/".
Proof.
  unfold Base. destruct (String.eqb p ""); [by left|].
  destruct (String.eqb (snd (Split (stripTrailingSlashes p))) ""); [by right|].
  left. apply Split_name_noSlash.
Qed.

End NameFacts.

Section ReaddirNames.

Context (E : Env).

(** X21.  The names that [Readdir] reports are single path segments:
    no name contains a slash, except that an [Added] change whose
    path consists of slashes only is listed under the name [/]. *)
Theorem Readdir_names_are_segments d w l e :
  range_ok E →
  fst (Readdir E d w) = (Some l, Syscall.OK) →
  e ∈ l →
  noSlash (Fuse.Name e) = true
  ∨ (Fuse.Name e = "/"
     ∧ ∃ chs ch, fst (ChangesInDir E (fullpath d) w) = inr chs
                 ∧ ch ∈ chs ∧ Kind ch = FileAdded ∧ Filepath.Base (Path ch) = "/").
Proof.
  intros Hrange Hl He.
  destruct (fst (ChangesInDir E (fullpath d) w)) as [err|chs] eqn:Hchs.
  { rewrite Readdir_run in Hl.
    destruct (ChangesInDir E (fullpath d) w) as [r w1]. simpl in Hchs. subst r.
    discriminate. }
  destruct (Readdir_entries E d w chs Hrange Hchs) as (l' & Hl' & _ & Hsrc & _).
  rewrite Hl' in Hl. injection Hl as ->.
  destruct (Hsrc e He) as [(ch & n & st & Hin & Hk & Hb & _ & _)
                          |(file & fmode & _ & _ & _ & Hshape)].
  - destruct (NameFacts.Base_noSlash (Path ch)) as [Hns|Hroot].
    + left. by rewrite <- Hb.
    + right. split; [congruence|]. by exists chs, ch.
  - left. cbv zeta in Hshape. destruct Hshape as [(_ & -> & _)|(Hneg & -> & _)].
    + apply NameFacts.upto_IndexSlash.
    + by apply NameFacts.IndexSlash_none.
Qed.

End ReaddirNames.

(** X21, on the scenario mount. *)
Lemma Readdir_names_are_segments_witness :
  range_ok Scenario.env
  ∧ fst (Readdir Scenario.env Root Scenario.w0)
    = (Some [ {| Fuse.Mode := Fuse.S_IFDIR; Fuse.Name := "etc"; Fuse.Ino := 2 |} ],
       Syscall.OK)
  ∧ noSlash "etc" = true.
Proof.
  assert (H1 : range_ok Scenario.env) by (intros l _; reflexivity).
  assert (H2 : fst (Readdir Scenario.env Root Scenario.w0)
    = (Some [ {| Fuse.Mode := Fuse.S_IFDIR; Fuse.Name := "etc"; Fuse.Ino := 2 |} ],
       Syscall.OK)) by (vm_compute; reflexivity).
  split; [exact H1|]. split; [exact H2|].
  destruct (Readdir_names_are_segments Scenario.env Root Scenario.w0 _
              {| Fuse.Mode := Fuse.S_IFDIR; Fuse.Name := "etc"; Fuse.Ino := 2 |}
              H1 H2 (list_elem_of_here _ _)) as [H|[H _]].
  - exact H.
  - discriminate H.
Defined.

(** * Creation and inode numbers over a session *)

(** ** Two creations in a row *)

Section CreateTwice.

Context (E : Env).




End CreateTwice.


(** ** Inode numbers over a mount session *)

Section MountSession.

Context (E : Env).

Lemma allocated_mono k k' t :
  k ≤ k' → Inodes.allocated k t → Inodes.allocated k' t.
Proof.
  intros Hk (Hroot & Hnext & Hrange & Hinj). repeat split; try done; lia.
Qed.

Lemma SaveFile_keeps_mng path data stat w :
  mng (snd (SaveFile E path data stat w)) = mng w.
Proof.
  unfold SaveFile. destruct (Filepath.Split path) as [dir nm].
  unfold bind, timeNow. destruct (Tar.WriteHeader _ _ _) as [[e|] tw]; [reflexivity|].
  destruct (Tar.Write data tw) as [[e|] tw']; reflexivity.
Qed.

(** The third loop of [Readdir] asks the allocator once per child. *)
Lemma listLoop_allocated dirpath l : ∀ acc w k,
  Inodes.allocated k (inodes (mng w)) →
  2 + k + Z.of_nat (length l) < 2 ^ 64 →
  Inodes.allocated (k + Z.of_nat (length l))
    (inodes (mng (snd (foldM (listStep dirpath) acc l w)))).
Proof.
  induction l as [|[child md] l IH]; intros acc w k Hall Hk; cbn [foldM].
  - simpl. by rewrite Z.add_0_r.
  - unfold bind. rewrite listStep_run. cbv zeta.
    set (key := Filepath.Clean (Filepath.Join dirpath child)).
    simpl length in Hk. rewrite Nat2Z.inj_succ in Hk.
    pose proof (InodeFacts.Inode_allocated k key (inodes (mng w)) ltac:(lia) Hall) as H1.
    set (acc' := acc ++ [_]).
    set (w' := setInodes _ w).
    simpl length. rewrite Nat2Z.inj_succ.
    replace (k + Z.succ (Z.of_nat (length l))) with (k + 1 + Z.of_nat (length l)) by lia.
    apply IH; [exact H1 | lia].
Qed.

(** What one call does to the inode table: it keeps the invariant of
    the allocator, takes no number away, and every number it reports
    is the one the table holds for the path. *)
Lemma reported_allocated c k w :
  Inodes.allocated k (inodes (mng w)) →
  2 + k + 1 + Z.of_nat (length (fst (reported E c w))) < 2 ^ 64 →
  Inodes.allocated (k + 1 + Z.of_nat (length (fst (reported E c w))))
    (inodes (mng (snd (reported E c w))))
  ∧ Inodes.extends (inodes (mng w)) (inodes (mng (snd (reported E c w))))
  ∧ ∀ p a, (p, a) ∈ fst (reported E c w) →
           Inodes.table (inodes (mng (snd (reported E c w)))) !! p = Some a.
Proof.
  intros Hall Hk.
  destruct c as [d|d name|d name flags mode|d|path data stat]; unfold reported in *;
    cbv zeta in *.
  - (* Getattr *)
    rewrite Getattr_run. simpl. split; [|split].
    + eapply allocated_mono; [|exact Hall]. lia.
    + apply InodeFacts.extends_refl.
    + intros p a H. by apply elem_of_nil in H.
  - (* Lookup *)
    unfold inodeKey in *.
    destruct (ContainerStatPath E (length (requests w)) (Filepath.Join (fullpath d) name))
      as [err|attrs] eqn:Hst.
    + rewrite (Lookup_failed_run E d name emptyAttr w err Hst) in *. simpl in *.
      split; [|split].
      * eapply allocated_mono; [|exact Hall]. lia.
      * apply InodeFacts.extends_refl.
      * intros p a H. by apply elem_of_nil in H.
    + destruct (Lookup_answered_run E d name emptyAttr w attrs Hst) as (node & Hrun & Hino & _).
      rewrite Hrun in *. simpl in *. split; [|split].
      * apply (allocated_mono (k + 1)); [lia|].
        apply InodeFacts.Inode_allocated; [lia | exact Hall].
      * apply InodeFacts.Inode_extends.
      * intros p a H. apply list_elem_of_singleton in H. injection H as -> ->.
        rewrite Hino. apply InodeFacts.Inode_stored.
  - (* Create *)
    unfold inodeKey in *.
    pose proof (Create_run E d name flags mode w) as Hrun. cbv zeta in Hrun.
    rewrite Hrun in *. clear Hrun.
    destruct (ContainerStatPath E (length (requests w)) (Filepath.Join (fullpath d) name))
      as [err|attrs] eqn:Hst.
    + rewrite (Lookup_failed_run E d name emptyAttr w err Hst) in *. simpl in *.
      destruct (Strings.HasSuffix err "404"); simpl in *.
      * unfold inodeFor in *. simpl in *.
        pose proof (InodeFacts.Inode_stored
                      (Filepath.Clean (Filepath.Join (fullpath d) name))
                      (inodes (mng w))) as Hs.
        pose proof (InodeFacts.Inode_extends
                      (Filepath.Clean (Filepath.Join (fullpath d) name))
                      (inodes (mng w))) as He.
        pose proof (InodeFacts.Inode_allocated k
                      (Filepath.Clean (Filepath.Join (fullpath d) name))
                      (inodes (mng w))) as Ha.
        destruct (Inodes.Inode _ (inodes (mng w))) as [ino t]. simpl in *.
        split; [|split].
        -- apply (allocated_mono (k + 1)); [lia|]. apply Ha; [lia | exact Hall].
        -- exact He.
        -- intros p a H. apply list_elem_of_singleton in H. by injection H as -> ->.
      * split; [|split].
        -- eapply allocated_mono; [|exact Hall]. lia.
        -- apply InodeFacts.extends_refl.
        -- intros p a H. by apply elem_of_nil in H.
    + destruct (Lookup_answered_run E d name emptyAttr w attrs Hst) as (node & Hrun & _).
      rewrite Hrun in *. simpl in *. split; [|split].
      * apply (allocated_mono (k + 1)); [lia|].
        apply InodeFacts.Inode_allocated; [lia | exact Hall].
      * apply InodeFacts.Inode_extends.
      * intros p a H. by apply elem_of_nil in H.
  - (* Readdir *)
    cbn [fst snd] in *.
    pose proof (Readdir_extends E d w) as Hext.
    pose proof (Readdir_stores_inodes E d w) as Hstored.
    assert (Hgrow : ∀ l, fst (fst (Readdir E d w)) = Some l →
              Inodes.allocated (k + Z.of_nat (length l)) (inodes (mng (snd (Readdir E d w))))).
    { intros l0 Hl0. revert Hk. rewrite Hl0. rewrite length_map. revert Hl0.
      rewrite Readdir_run.
      destruct (ChangesInDir_keeps_files_and_inodes E (fullpath d) w) as [_ Hino].
      destruct (ChangesInDir E (fullpath d) w) as [[err|chs] w1]; [discriminate|].
      simpl in Hino. cbv zeta. set (c0 := fold_left _ _ ∅).
      pose proof (addedLoop_mng E chs c0 w1) as Hm.
      destruct (foldM (addedStep E) c0 chs w1) as [c1 w2]. simpl in Hm.
      pose proof (listLoop_entries (fullpath d) (rangeOrder E (map_to_list c1)) [] w2)
        as (Hpairs & _ & _).
      pose proof (listLoop_allocated (fullpath d) (rangeOrder E (map_to_list c1)) [] w2 k)
        as Hloop.
      destruct (foldM (listStep (fullpath d)) [] _ w2) as [l' w3]. simpl in *.
      intros [= <-] Hk.
      assert (Hlen : length l' = length (rangeOrder E (map_to_list c1))).
      { rewrite <- Hpairs. by rewrite length_map. }
      rewrite Hlen in *. apply Hloop; [by rewrite Hm, Hino | lia]. }
    destruct (fst (Readdir E d w)) as [[l|] errno] eqn:Hr; simpl in *.
    + split; [|split; [exact Hext|]].
      * rewrite length_map in *.
        eapply allocated_mono; [|apply (Hgrow l eq_refl)]. lia.
      * intros p a H. apply list_elem_of_fmap in H. destruct H as (e & Heq & He).
        injection Heq as -> ->. unfold inodeKey.
        by apply (Hstored l errno e).
    + split; [|split; [exact Hext|]].
      * assert (Hsame : inodes (mng (snd (Readdir E d w))) = inodes (mng w)).
        { revert Hr. rewrite Readdir_run.
          destruct (ChangesInDir_keeps_files_and_inodes E (fullpath d) w) as [_ Hino].
          destruct (ChangesInDir E (fullpath d) w) as [[err|chs] w1]; [by simpl|].
          cbv zeta. destruct (foldM (addedStep E) _ chs w1) as [c1 w2].
          destruct (foldM (listStep (fullpath d)) [] _ w2) as [l' w3]. discriminate. }
        rewrite Hsame. eapply allocated_mono; [|exact Hall]. lia.
      * intros p a H. by apply elem_of_nil in H.
  - (* SaveFile *)
    simpl in *. rewrite SaveFile_keeps_mng. split; [|split].
    + eapply allocated_mono; [|exact Hall]. lia.
    + apply InodeFacts.extends_refl.
    + intros p a H. by apply elem_of_nil in H.
Qed.

(** A session keeps the invariant, and when it ends the table holds
    every number that was reported on the way. *)
Lemma session_allocated calls : ∀ k w,
  Inodes.allocated k (inodes (mng w)) →
  2 + k + Z.of_nat (length calls + length (fst (session E calls w))) < 2 ^ 64 →
  Inodes.allocated (k + Z.of_nat (length calls + length (fst (session E calls w))))
    (inodes (mng (snd (session E calls w))))
  ∧ Inodes.extends (inodes (mng w)) (inodes (mng (snd (session E calls w))))
  ∧ ∀ p a, (p, a) ∈ fst (session E calls w) →
           Inodes.table (inodes (mng (snd (session E calls w)))) !! p = Some a.
Proof.
  induction calls as [|c rest IH]; intros k w Hall Hk; cbn [session] in *.
  - simpl. rewrite Z.add_0_r. split; [done|]. split; [apply InodeFacts.extends_refl|].
    intros p a H. by apply elem_of_nil in H.
  - pose proof (reported_allocated c k w Hall) as Hone.
    destruct (reported E c w) as [r1 w1]. simpl in Hone.
    specialize (IH (k + 1 + Z.of_nat (length r1)) w1).
    destruct (session E rest w1) as [r2 w2]. simpl in *.
    rewrite length_app in *.
    destruct Hone as (H1 & E1 & S1); [lia|].
    destruct (IH H1 ltac:(lia)) as (H2 & E2 & S2).
    split; [|split].
    + eapply allocated_mono; [|exact H2]. lia.
    + by eapply InodeFacts.extends_trans.
    + intros p a H. apply elem_of_app in H. destruct H as [H|H].
      * by apply E2, S1.
      * by apply S2.
Qed.

End MountSession.

(** C8.  The inode numbers of a mount session are a function of the
    cleaned path.  Take any sequence of [Getattr], [Lookup], [Create],
    [Readdir] and [SaveFile] calls from the mount on, on any
    container, short enough not to exhaust the 64-bit numbers.  Of
    any two numbers that [Lookup], [Create] or [Readdir] report in it,
    for the cleaned paths [p] and [q]: they are the same number
    exactly when [p] and [q] are the same path.  So a path keeps its
    number on every call (a [Lookup] and a later [Readdir] of the same
    path report equal numbers), distinct paths have distinct numbers,
    the root has 1, and every number fits 64 bits. *)
Theorem inode_numbers_stable_and_injective E calls w p a q b :
  inodes (mng w) = Inodes.initial →
  2 + Z.of_nat (length calls + length (fst (session E calls w))) < 2 ^ 64 →
  (p, a) ∈ fst (session E calls w) →
  (q, b) ∈ fst (session E calls w) →
  (p = q ↔ a = b) ∧ (p = "/" → a = 1) ∧ (a = 1 → p = "/") ∧ 0 ≤ a < 2 ^ 64.
Proof.
  intros Hmount Hbound Hp Hq.
  destruct (session_allocated E calls 0 w) as ((Hroot & Hnext & Hrange & Hinj) & _ & Hres).
  { rewrite Hmount. apply InodeFacts.initial_allocated. }
  { lia. }
  apply Hres in Hp, Hq.
  split; [split|split; [|split]].
  - intros ->. congruence.
  - intros ->. by eapply Hinj.
  - intros ->. congruence.
  - intros ->. by eapply Hinj.
  - destruct (Hrange p a Hp) as [[-> _]|?]; lia.
Qed.

(** C8, on the scenario: a lookup of [/etc/hostname], a listing of
    [/etc], the creation of [/tmp/x] and a lookup of the root from
    [/etc]. *)
Lemma inode_numbers_stable_and_injective_witness :
  inodes (mng Scenario.w0) = Inodes.initial
  ∧ fst (session Scenario.envRoot
           [ CallLookup Scenario.etc "hostname"; CallReaddir Scenario.etc;
             CallCreate Scenario.tmp "x" 0 420; CallLookup Scenario.etc ".." ]
           Scenario.w0)
    = [ ("/etc/hostname", 2); ("/etc/hostname", 2); ("/tmp/x", 3); ("/", 1) ]
  ∧ ("/etc/hostname" = "/tmp/x" ↔ 2 = 3)
  ∧ ("/" = "/" → 1 = 1).
Proof.
  assert (H1 : inodes (mng Scenario.w0) = Inodes.initial) by reflexivity.
  assert (H2 : fst (session Scenario.envRoot
           [ CallLookup Scenario.etc "hostname"; CallReaddir Scenario.etc;
             CallCreate Scenario.tmp "x" 0 420; CallLookup Scenario.etc ".." ]
           Scenario.w0)
    = [ ("/etc/hostname", 2); ("/etc/hostname", 2); ("/tmp/x", 3); ("/", 1) ])
    by (vm_compute; reflexivity).
  split; [exact H1|]. split; [exact H2|].
  assert (H3 : 2 + Z.of_nat (length [ CallLookup Scenario.etc "hostname";
                                      CallReaddir Scenario.etc;
                                      CallCreate Scenario.tmp "x" 0 420;
                                      CallLookup Scenario.etc ".." ]
                             + length (fst (session Scenario.envRoot
                                 [ CallLookup Scenario.etc "hostname";
                                   CallReaddir Scenario.etc;
                                   CallCreate Scenario.tmp "x" 0 420;
                                   CallLookup Scenario.etc ".." ] Scenario.w0)))
               < 2 ^ 64) by (rewrite H2; vm_compute; reflexivity).
  split.
  - refine (proj1 (inode_numbers_stable_and_injective Scenario.envRoot _ Scenario.w0
                     "/etc/hostname" 2 "/tmp/x" 3 H1 H3 _ _)); rewrite H2.
    + apply list_elem_of_here.
    + do 2 apply list_elem_of_further. apply list_elem_of_here.
  - refine (proj1 (proj2 (inode_numbers_stable_and_injective Scenario.envRoot _ Scenario.w0
                     "/" 1 "/" 1 H1 H3 _ _))); rewrite H2;
      do 3 apply list_elem_of_further; apply list_elem_of_here.
Defined.
